(** * School-management backend: fee lifecycle and bulk import

  A shallow embedding of the fee engine ([models/Fee.js],
  [controllers/fee.controller.js]) and of the bulk-import pipeline
  ([controllers/dashboard.controller.js]).

  Conventions of the embedding:
  - a JavaScript [Number] holding money is an integer [Z] (whole currency
    units; every operation the code performs on amounts is [+], [-] and
    comparison, exact on integers);
  - a [Date] is its time value, milliseconds since the epoch, in [Z]; the
    local time zone of the server is UTC;
  - a string is held as its UTF-8 encoding, a [string] of bytes: the
    characters the code looks for (comma, quote, parenthesis, line ends,
    [a-z0-9], the words it compares with) are ASCII, and a byte of ASCII
    inside the encoding is that character; [trim] and the case mappings
    read the longer sequences they act on;
  - a spreadsheet cell is a string (what the CSV branch of [parseFile]
    produces); the workbook branch, which reads the file through
    ExcelJS, is outside the model: an awaited [parseFile] of a path with
    another extension than [.csv] has no result in it, and
    [parse_rawData] is the part of [parseFile] both branches share;
  - an ObjectId is a [nat]; an absent ([undefined]/[null]) value is [None];
  - a collection of the document store is the list of its documents in
    insertion order, and every store operation succeeds;
  - the generated password of an account and the removal of the uploaded
    file when a request ends are left out: no fee or import result
    depends on them. *)

From Stdlib Require Import ZArith Bool Ascii Lia.
From stdpp Require Import base option list gmap strings pretty.

Open Scope Z_scope.

(** ** models/Fee.js *)

Module FeeModel.

Inductive FeeStatus := paid | unpaid | partial | overdue.
Inductive FeeType := tuition | exam | transport | library | laboratory | other.

#[global] Instance FeeStatus_eq_dec : EqDecision FeeStatus.
Proof. solve_decision. Defined.
#[global] Instance FeeType_eq_dec : EqDecision FeeType.
Proof. solve_decision. Defined.

(** The schema's fields that the code reads or writes. *)
Record Fee := mkFee {
  _id : nat;
  student : nat;
  feeType : FeeType;
  amount : Z;
  dueDate : Z;
  paymentDate : option Z;
  status : FeeStatus;
  paidAmount : Z;
  remainingAmount : Z;
  arrears : Z;
  recordedBy : nat
}.

(** Paths whose modification the document tracks. *)
Inductive FeePath :=
  p_amount | p_dueDate | p_paymentDate | p_status | p_paidAmount
| p_remainingAmount | p_other.

#[global] Instance FeePath_eq_dec : EqDecision FeePath.
Proof. solve_decision. Defined.

(** A document being saved: its current field values and the paths set
    since it was loaded. *)
Record FeeDoc := mkDoc {
  fields : Fee;
  modifiedPaths : list FeePath
}.

Definition isModified (p : FeePath) (d : FeeDoc) : bool :=
  bool_decide (p ∈ modifiedPaths d).

Definition markModified (p : FeePath) (d : FeeDoc) : FeeDoc :=
  mkDoc (fields d) (p :: modifiedPaths d).

(** Assignments [this.path = v]: the document marks the path as modified
    when the value assigned differs from the one it holds. *)
Definition set_paidAmount (v : Z) (d : FeeDoc) : FeeDoc :=
  let f := fields d in
  if bool_decide (paidAmount f = v) then d
  else markModified p_paidAmount
         (mkDoc (mkFee (_id f) (student f) (feeType f) (amount f) (dueDate f)
                       (paymentDate f) (status f) v (remainingAmount f)
                       (arrears f) (recordedBy f)) (modifiedPaths d)).

Definition set_remainingAmount (v : Z) (d : FeeDoc) : FeeDoc :=
  let f := fields d in
  if bool_decide (remainingAmount f = v) then d
  else markModified p_remainingAmount
         (mkDoc (mkFee (_id f) (student f) (feeType f) (amount f) (dueDate f)
                       (paymentDate f) (status f) (paidAmount f) v
                       (arrears f) (recordedBy f)) (modifiedPaths d)).

Definition set_paymentDate (v : option Z) (d : FeeDoc) : FeeDoc :=
  let f := fields d in
  if bool_decide (paymentDate f = v) then d
  else markModified p_paymentDate
         (mkDoc (mkFee (_id f) (student f) (feeType f) (amount f) (dueDate f)
                       v (status f) (paidAmount f) (remainingAmount f)
                       (arrears f) (recordedBy f)) (modifiedPaths d)).

Definition set_status (v : FeeStatus) (d : FeeDoc) : FeeDoc :=
  let f := fields d in
  if bool_decide (status f = v) then d
  else markModified p_status
         (mkDoc (mkFee (_id f) (student f) (feeType f) (amount f) (dueDate f)
                       (paymentDate f) v (paidAmount f) (remainingAmount f)
                       (arrears f) (recordedBy f)) (modifiedPaths d)).

(** [this.paymentDate || Date.now()]: a Date object is truthy. *)
Definition paymentDate_or_now (now : Z) (d : FeeDoc) : option Z :=
  Some (default now (paymentDate (fields d))).

(** First block of the hook: [if (this.isModified('status') &&
    this.status === 'paid')]. *)
Definition explicit_paid_block (now : Z) (d : FeeDoc) : FeeDoc :=
  if isModified p_status d && bool_decide (status (fields d) = paid) then
    let d1 := set_paidAmount (amount (fields d)) d in
    let d2 := set_remainingAmount 0 d1 in
    set_paymentDate (paymentDate_or_now now d2) d2
  else d.

(** Second block: [if (this.isModified('paidAmount'))]. *)
Definition paid_amount_block (now : Z) (d : FeeDoc) : FeeDoc :=
  if isModified p_paidAmount d then
    let d1 :=
      set_remainingAmount (amount (fields d) - paidAmount (fields d)) d in
    if paidAmount (fields d1) =? 0 then set_status unpaid d1
    else if paidAmount (fields d1) <? amount (fields d1) then
      set_status partial d1
    else if paidAmount (fields d1) >=? amount (fields d1) then
      let d2 := set_status paid d1 in
      set_paymentDate (paymentDate_or_now now d2) d2
    else d1
  else d.

(** Third block: the overdue check. *)
Definition overdue_block (now : Z) (d : FeeDoc) : FeeDoc :=
  if negb (bool_decide (status (fields d) = paid))
     && (dueDate (fields d) <? now)
     && negb (bool_decide (status (fields d) = overdue))
  then set_status overdue d
  else d.

(** [FeeSchema.pre('save', ...)], at clock reading [now]. *)
Definition pre_save (now : Z) (d : FeeDoc) : FeeDoc :=
  overdue_block now (paid_amount_block now (explicit_paid_block now d)).

End FeeModel.

(** ** The host's [Date]: proleptic Gregorian calendar, UTC *)

Module Calendar.

Definition msPerDay : Z := 86400000.

(** Day number (days since 1970-01-01) of the civil date [y]-[m]-[d],
    [m] in 1..12. *)
Definition days_from_civil (y m d : Z) : Z :=
  let y' := if m <=? 2 then y - 1 else y in
  let era := y' / 400 in
  let yoe := y' - era * 400 in
  let doy := (153 * (if 2 <? m then m - 3 else m + 9) + 2) / 5 + d - 1 in
  let doe := yoe * 365 + yoe / 4 - yoe / 100 + doy in
  era * 146097 + doe - 719468.

(** Civil date (year, month in 1..12, day) of a day number. *)
Definition civil_from_days (z : Z) : Z * Z * Z :=
  let z' := z + 719468 in
  let era := z' / 146097 in
  let doe := z' - era * 146097 in
  let yoe := (doe - doe / 1460 + doe / 36524 - doe / 146096) / 365 in
  let doy := doe - (365 * yoe + yoe / 4 - yoe / 100) in
  let mp := (5 * doy + 2) / 153 in
  let d := doy - (153 * mp + 2) / 5 + 1 in
  let m := if mp <? 10 then mp + 3 else mp - 9 in
  (yoe + era * 400 + (if m <=? 2 then 1 else 0), m, d).

Definition Day (t : Z) : Z := t / msPerDay.

Definition getFullYear (t : Z) : Z := (civil_from_days (Day t)).1.1.

(** [getMonth] is zero-based. *)
Definition getMonth (t : Z) : Z := (civil_from_days (Day t)).1.2 - 1.

(** [MakeDay]: a month outside 0..11 carries into the year, a day outside
    the month carries into the neighbouring months. *)
Definition MakeDay (year month date : Z) : Z :=
  let ym := year + month / 12 in
  let mn := month mod 12 in
  days_from_civil ym (mn + 1) 1 + date - 1.

(** [new Date(year, monthIndex, day)]: midnight of that day; a year in
    0..99 is taken as 1900 + year. *)
Definition Date_ymd (year month date : Z) : Z :=
  let yr := if (0 <=? year) && (year <=? 99) then 1900 + year else year in
  MakeDay yr month date * msPerDay.

End Calendar.

(** ** controllers/fee.controller.js *)

Module FeeController.
Import FeeModel Calendar.

(** The [Fee] collection. *)
Definition FeeStore := list Fee.

(** The query of [calculateStudentArrears]:
    [{student, dueDate: {$lt: startOfCurrentMonth},
      status: {$in: ['unpaid', 'partial', 'overdue']}}]. *)
Definition previous_fees_query (sid : nat) (startOfCurrentMonth : Z)
    (fee : Fee) : Prop :=
  student fee = sid ∧ dueDate fee < startOfCurrentMonth
  ∧ status fee ∈ [unpaid; partial; overdue].

#[global] Instance previous_fees_query_dec sid start fee :
  Decision (previous_fees_query sid start fee).
Proof. unfold previous_fees_query. apply _. Defined.

(** The body of the [forEach] over the fees found. *)
Definition add_arrears (totalArrears : Z) (fee : Fee) : Z :=
  if bool_decide (status fee = partial)
  then totalArrears + remainingAmount fee
  else totalArrears + amount fee.

Definition calculateStudentArrears (now : Z) (fees : FeeStore)
    (studentId : option nat) : Z :=
  match studentId with
  | None => 0
  | Some sid =>
      let currentMonth := getMonth now in
      let currentYear := getFullYear now in
      if (currentMonth =? 4) && (currentYear =? 2025) then 0
      else
        let startOfCurrentMonth := Date_ymd currentYear currentMonth 1 in
        let previousFees :=
          filter (previous_fees_query sid startOfCurrentMonth) fees in
        fold_left add_arrears previousFees 0
  end.

(** The object [feeData] of [createInitialFeeRecord]; its [description]
    is not a path of the schema and is not stored. *)
Record FeeData := mkFeeData {
  fd_student : nat;
  fd_feeType : FeeType;
  fd_amount : Z;
  fd_dueDate : Z;
  fd_status : FeeStatus;
  fd_recordedBy : nat;
  fd_arrears : Z
}.

(** An identifier no document of the collection has. *)
Definition fresh_id (fees : FeeStore) : nat :=
  S (foldr Nat.max 0%nat (_id <$> fees)).

(** The query of the existence check:
    [{student, feeType: 'tuition',
      dueDate: {$gte: startOfMonth, $lte: endOfMonth}}]. *)
Definition month_fee_query (sid : nat) (ft : FeeType)
    (startOfMonth endOfMonth : Z) (fee : Fee) : Prop :=
  student fee = sid ∧ feeType fee = ft
  ∧ startOfMonth <= dueDate fee ∧ dueDate fee <= endOfMonth.

#[global] Instance month_fee_query_dec sid ft s e fee :
  Decision (month_fee_query sid ft s e fee).
Proof. unfold month_fee_query. apply _. Defined.

(** [Fee.findOne(query)]: the first document that matches. *)
Definition Fee_findOne (query : Fee → Prop) `{∀ f, Decision (query f)}
    (fees : FeeStore) : option Fee :=
  head (filter query fees).

(** [$set] of the fields of [feeData] on one document. *)
Definition apply_feeData (data : FeeData) (f : Fee) : Fee :=
  mkFee (_id f) (fd_student data) (fd_feeType data) (fd_amount data)
        (fd_dueDate data) (paymentDate f) (fd_status data) (paidAmount f)
        (remainingAmount f) (fd_arrears data) (fd_recordedBy data).

(** [Fee.findByIdAndUpdate(id, feeData, {new: true})]: updates the
    document in place and returns it as updated; a query update runs no
    save hook. *)
Definition Fee_findByIdAndUpdate (id : nat) (data : FeeData)
    (fees : FeeStore) : option Fee * FeeStore :=
  (apply_feeData data <$> head (filter (λ f, _id f = id) fees),
   (λ f, if bool_decide (_id f = id) then apply_feeData data f else f)
     <$> fees).

(** [Fee.create(feeData)]: a new document with the schema's defaults
    ([paidAmount] 0, [remainingAmount] the amount), the paths of
    [feeData] marked as set, saved through the hook. *)
Definition Fee_create (now : Z) (data : FeeData) (fees : FeeStore)
    : Fee * FeeStore :=
  let doc :=
    mkDoc (mkFee (fresh_id fees) (fd_student data) (fd_feeType data)
                 (fd_amount data) (fd_dueDate data) None (fd_status data)
                 0 (fd_amount data) (fd_arrears data) (fd_recordedBy data))
          [p_other; p_amount; p_dueDate; p_status] in
  let saved := fields (pre_save now doc) in
  (saved, fees ++ [saved]).

(** [createInitialFeeRecord(studentId, recordedById, monthlyFeeAmount)]:
    the record returned ([None] for [null]) and the collection
    afterwards.  [monthlyFeeAmount || 0] takes an absent amount as 0. *)
Definition createInitialFeeRecord (now : Z) (fees : FeeStore)
    (studentId recordedById : option nat) (monthlyFeeAmount : option Z)
    : option Fee * FeeStore :=
  match studentId, recordedById with
  | Some sid, Some rid =>
      let amount := default 0 monthlyFeeAmount in
      let dueDate := Date_ymd (getFullYear now) (getMonth now + 1) 0 in
      let arrears := calculateStudentArrears now fees (Some sid) in
      let feeData := mkFeeData sid tuition amount dueDate unpaid rid arrears in
      let startOfMonth := Date_ymd (getFullYear now) (getMonth now) 1 in
      let endOfMonth := Date_ymd (getFullYear now) (getMonth now + 1) 0 in
      match Fee_findOne (month_fee_query sid tuition startOfMonth endOfMonth)
                        fees with
      | Some existingFee =>
          Fee_findByIdAndUpdate (_id existingFee) feeData fees
      | None =>
          let '(fee, fees') := Fee_create now feeData fees in
          (Some fee, fees')
      end
  | _, _ => (None, fees)
  end.

End FeeController.


(** ** JavaScript strings *)

Module JsString.

Definition code (c : ascii) : nat := nat_of_ascii c.

Definition between (lo hi : nat) (c : ascii) : bool :=
  (lo <=? code c)%nat && (code c <=? hi)%nat.

(** The bytes [c1 c2], or [c1 c2 c3], are the given ones. *)
Definition bytes2 (c1 c2 : ascii) (a b : nat) : bool :=
  (code c1 =? a)%nat && (code c2 =? b)%nat.

Definition bytes3 (c1 c2 c3 : ascii) (a b c : nat) : bool :=
  (code c1 =? a)%nat && (code c2 =? b)%nat && (code c3 =? c)%nat.

(** White space removed by [trim]: the characters of one byte (tab, line
    feed, vertical tab, form feed, carriage return, space), of two
    (U+00A0) and of three (U+1680, U+2000 to U+200A, U+2028, U+2029,
    U+202F, U+205F, U+3000, U+FEFF). *)
Definition is_whitespace (c : ascii) : bool :=
  between 9 13 c || (code c =? 32)%nat.

Definition is_whitespace2 (c1 c2 : ascii) : bool := bytes2 c1 c2 194 160.

Definition is_whitespace3 (c1 c2 c3 : ascii) : bool :=
  bytes3 c1 c2 c3 225 154 128
  || (bytes2 c1 c2 226 128
      && (between 128 138 c3 || between 168 169 c3 || (code c3 =? 175)%nat))
  || bytes3 c1 c2 c3 226 129 159
  || bytes3 c1 c2 c3 227 128 128
  || bytes3 c1 c2 c3 239 187 191.

(** Case mapping of the letters A-Z and a-z. *)
Definition lower_char (c : ascii) : ascii :=
  if between 65 90 c then ascii_of_nat (code c + 32) else c.

Definition upper_char (c : ascii) : ascii :=
  if between 97 122 c then ascii_of_nat (code c - 32) else c.

(** A letter followed by a character of two bytes. *)
Definition marked (letter : ascii) (b1 b2 : nat) : string :=
  String letter (String (ascii_of_nat b1) (String (ascii_of_nat b2) "")).

(** The characters outside ASCII whose lower case holds an ASCII letter:
    U+0130, which becomes i and U+0307, and U+212A, which becomes k. *)
Definition lower2 (c1 c2 : ascii) : option string :=
  if bytes2 c1 c2 196 176 then Some (marked "i" 204 135) else None.

Definition lower3 (c1 c2 c3 : ascii) : option string :=
  if bytes3 c1 c2 c3 226 132 170 then Some "k" else None.

(** The characters outside ASCII whose upper case holds an ASCII letter:
    U+00DF (SS), U+0131 (I), U+0149 (U+02BC and N), U+017F (S), U+01F0 (J
    and U+030C), U+1E96 to U+1E9A (H, T, W, Y, A, each with a mark) and
    the ligatures U+FB00 to U+FB06 (FF, FI, FL, FFI, FFL, ST, ST). *)
Definition upper2 (c1 c2 : ascii) : option string :=
  if bytes2 c1 c2 195 159 then Some "SS"
  else if bytes2 c1 c2 196 177 then Some "I"
  else if bytes2 c1 c2 197 137 then
    Some (String (ascii_of_nat 202) (String (ascii_of_nat 188) "N"))
  else if bytes2 c1 c2 197 191 then Some "S"
  else if bytes2 c1 c2 199 176 then Some (marked "J" 204 140)
  else None.

Definition upper3 (c1 c2 c3 : ascii) : option string :=
  if bytes3 c1 c2 c3 225 186 150 then Some (marked "H" 204 177)
  else if bytes3 c1 c2 c3 225 186 151 then Some (marked "T" 204 136)
  else if bytes3 c1 c2 c3 225 186 152 then Some (marked "W" 204 138)
  else if bytes3 c1 c2 c3 225 186 153 then Some (marked "Y" 204 138)
  else if bytes3 c1 c2 c3 225 186 154 then Some (marked "A" 202 190)
  else if bytes3 c1 c2 c3 239 172 128 then Some "FF"
  else if bytes3 c1 c2 c3 239 172 129 then Some "FI"
  else if bytes3 c1 c2 c3 239 172 130 then Some "FL"
  else if bytes3 c1 c2 c3 239 172 131 then Some "FFI"
  else if bytes3 c1 c2 c3 239 172 132 then Some "FFL"
  else if bytes3 c1 c2 c3 239 172 133 then Some "ST"
  else if bytes3 c1 c2 c3 239 172 134 then Some "ST"
  else None.

(** A case mapping: [two] and [three] give what replaces a sequence of
    two or three bytes, [one] maps every other byte.  The characters
    that [two] and [three] leave out keep their bytes: the code maps
    them to characters that are not ASCII either, so that what it does
    with the result (stripping all but [a-z0-9], looking for the words
    IMPORTANT, NOTE and INSTRUCTION, comparing with lowercase words of
    ASCII) comes out the same. *)
Fixpoint map_case (one : ascii → ascii) (two : ascii → ascii → option string)
    (three : ascii → ascii → ascii → option string) (s : string) : string :=
  match s with
  | EmptyString => EmptyString
  | String c1 s1 =>
      let plain := String (one c1) (map_case one two three s1) in
      match s1 with
      | String c2 s2 =>
          match two c1 c2 with
          | Some r => r +:+ map_case one two three s2
          | None =>
              match s2 with
              | String c3 s3 =>
                  match three c1 c2 c3 with
                  | Some r => r +:+ map_case one two three s3
                  | None => plain
                  end
              | EmptyString => plain
              end
          end
      | EmptyString => plain
      end
  end.

Fixpoint filter_chars (p : ascii → bool) (s : string) : string :=
  match s with
  | EmptyString => EmptyString
  | String c s' =>
      if p c then String c (filter_chars p s') else filter_chars p s'
  end.

Definition toLowerCase : string → string := map_case lower_char lower2 lower3.
Definition toUpperCase : string → string := map_case upper_char upper2 upper3.

(** [s] without the white space it starts with; [two] and [three] tell
    the white space of two and of three bytes. *)
Fixpoint trim_go (two : ascii → ascii → bool)
    (three : ascii → ascii → ascii → bool) (s : string) : string :=
  match s with
  | EmptyString => EmptyString
  | String c1 s1 =>
      if is_whitespace c1 then trim_go two three s1
      else
        match s1 with
        | String c2 s2 =>
            if two c1 c2 then trim_go two three s2
            else
              match s2 with
              | String c3 s3 =>
                  if three c1 c2 c3 then trim_go two three s3 else s
              | EmptyString => s
              end
        | EmptyString => s
        end
  end.

Definition trimStart : string → string :=
  trim_go is_whitespace2 is_whitespace3.

(** The end is trimmed on the reversed string, where the sequences read
    backwards. *)
Definition trim (s : string) : string :=
  String.rev
    (trim_go (λ c2 c1, is_whitespace2 c1 c2)
             (λ c3 c2 c1, is_whitespace3 c1 c2 c3)
             (String.rev (trimStart s))).

Definition startsWith (s p : string) : bool := String.prefix p s.

Definition endsWith (s p : string) : bool :=
  String.prefix (String.rev p) (String.rev s).

(** [hay.includes(needle)] *)
Fixpoint includes (hay needle : string) : bool :=
  String.prefix needle hay
  || match hay with
     | EmptyString => false
     | String _ hay' => includes hay' needle
     end.

(** [s.substring(1, s.length - 1)]; [substring] swaps its arguments when
    the first is the larger, which happens here for a one-character [s]. *)
Definition strip_first_last (s : string) : string :=
  let n := String.length s in
  if (1 <=? n - 1)%nat then String.substring 1 (n - 1 - 1) s
  else String.substring (n - 1) (1 - (n - 1)) s.

(** Longest prefix of [s] whose characters all satisfy [p]. *)
Fixpoint take_while (p : ascii → bool) (s : string) : string :=
  match s with
  | EmptyString => EmptyString
  | String c s' => if p c then String c (take_while p s') else EmptyString
  end.

(** [s.split(sep)] for a one-character separator. *)
Fixpoint split_go (sep : ascii) (cur : string) (s : string) : list string :=
  match s with
  | EmptyString => [String.rev cur]
  | String c s' =>
      if bool_decide (c = sep) then String.rev cur :: split_go sep "" s'
      else split_go sep (String c cur) s'
  end.

Definition split (sep : ascii) (s : string) : list string :=
  split_go sep "" s.

(** [!s] for a string, or for an absent value read as the empty
    string. *)
Definition falsy (s : string) : bool := bool_decide (s = "").

End JsString.

(** ** Regular expressions, as far as [isValidEmail] needs them *)

Module Regex.

Inductive re :=
| Never
| Eps
| Class (p : ascii → bool)
| Cat (r s : re)
| Alt (r s : re)
| Star (r : re).

Definition Plus (r : re) : re := Cat r (Star r).
Definition Opt (r : re) : re := Alt r Eps.
Definition Chr (c : ascii) : re := Class (λ x, bool_decide (x = c)).

Fixpoint nullable (r : re) : bool :=
  match r with
  | Never => false
  | Eps => true
  | Class _ => false
  | Cat r s => nullable r && nullable s
  | Alt r s => nullable r || nullable s
  | Star _ => true
  end.

(** Brzozowski derivative, with the empty language absorbed so that
    terms stay small. *)
Definition cat (r s : re) : re :=
  match r, s with
  | Never, _ | _, Never => Never
  | Eps, _ => s
  | _, _ => Cat r s
  end.

Definition alt (r s : re) : re :=
  match r, s with
  | Never, _ => s
  | _, Never => r
  | _, _ => Alt r s
  end.

Fixpoint deriv (c : ascii) (r : re) : re :=
  match r with
  | Never | Eps => Never
  | Class p => if p c then Eps else Never
  | Cat r s =>
      if nullable r then alt (cat (deriv c r) s) (deriv c s)
      else cat (deriv c r) s
  | Alt r s => alt (deriv c r) (deriv c s)
  | Star r => cat (deriv c r) (Star r)
  end.

(** [/^r$/.test(s)] *)
Fixpoint test (r : re) (s : string) : bool :=
  match s with
  | EmptyString => nullable r
  | String c s' => test (deriv c r) s'
  end.

(** [\w] *)
Definition word : re :=
  Class (λ c, JsString.between 97 122 c || JsString.between 65 90 c
              || JsString.between 48 57 c || bool_decide (c = "_"%char)).

End Regex.

(** ** controllers/dashboard.controller.js: parsing *)

Module Parse.
Import JsString.

(** An import row: the object built from the header names and the cells
    of one data row. *)
Abbreviation Row := (gmap string string).

(** [row[key]] read where the code only tests it for truthiness or falls
    back to [''] : an absent property reads as the empty string. *)
Definition cell (row : Row) (key : string) : string :=
  default "" (row !! key).

(** [fileContent.split(/\r?\n/)] *)
Fixpoint split_lines_go (cur : string) (s : string) : list string :=
  match s with
  | EmptyString => [String.rev cur]
  | String c s' =>
      if bool_decide (c = "010"%char) then
        String.rev cur :: split_lines_go "" s'
      else
        match s' with
        | String c' s'' =>
            if bool_decide (c = "013"%char) && bool_decide (c' = "010"%char)
            then String.rev cur :: split_lines_go "" s''
            else split_lines_go (String c cur) s'
        | EmptyString => split_lines_go (String c cur) s'
        end
  end.

Definition split_lines (fileContent : string) : list string :=
  split_lines_go "" fileContent.

(** The character loop over one line.  [prev] is [line[i-1]], absent at
    [i = 0]; [row], [inQuotes] and [currentValue] are the loop's
    variables; after the loop the last value is pushed. *)
Fixpoint split_line_go (prev : option ascii) (line : string)
    (row : list string) (inQuotes : bool) (currentValue : string)
    : list string :=
  match line with
  | EmptyString => row ++ [currentValue]
  | String char rest =>
      if bool_decide (char = "034"%char)
         && bool_decide (prev ≠ Some "\"%char) then
        split_line_go (Some char) rest row (negb inQuotes) currentValue
      else if bool_decide (char = ","%char) && negb inQuotes then
        split_line_go (Some char) rest (row ++ [currentValue]) inQuotes ""
      else
        split_line_go (Some char) rest row inQuotes
                      (currentValue +:+ String char "")
  end.

(** "Remove quotes from values". *)
Definition clean_value (value : string) : string :=
  if startsWith value (String "034" "")
     && endsWith value (String "034" "")
  then strip_first_last value
  else value.

(** One CSV line to its row of values. *)
Definition parse_csv_line (line : string) : list string :=
  clean_value <$> split_line_go None line [] false "".

(** The CSV branch: [rawData], one row per line that is not blank. *)
Definition csv_rawData (fileContent : string) : list (list string) :=
  parse_csv_line <$>
    filter (λ line, trim line ≠ "") (split_lines fileContent).

(** The key of a header cell: [''] for an empty cell, else the text
    matched by [/^([^(]+)/], trimmed, or the whole text trimmed when the
    expression does not match. *)
Definition header_key (header : string) : string :=
  if falsy header then ""
  else
    let m := take_while (λ c, negb (bool_decide (c = "("%char))) header in
    if bool_decide (m = "") then trim header else trim m.

(** A value that counts as real data: not empty and not an instruction. *)
Definition is_data_value (value : string) : bool :=
  negb (bool_decide (value = ""))
  && negb (includes (toUpperCase value) "IMPORTANT")
  && negb (includes (toUpperCase value) "NOTE")
  && negb (includes (toUpperCase value) "INSTRUCTION").

(** The [headers.forEach] over one row: the object and the flag
    [isEmpty].  A header beyond the row's length is skipped. *)
Fixpoint build_row (headers row : list string) (obj : Row) (isEmpty : bool)
    : Row * bool :=
  match headers, row with
  | header :: headers', value :: row' =>
      if falsy header then build_row headers' row' obj isEmpty
      else build_row headers' row' (<[header := value]> obj)
                     (if is_data_value value then false else isEmpty)
  | _, _ => (obj, isEmpty)
  end.

Definition key_fields : list string := ["firstName"; "lastName"; "email"].

(** [Object.keys(obj).filter(...).length] *)
Definition requiredFieldCount (obj : Row) : nat :=
  length (filter (λ key, cell obj key ≠ "" ∧ key ∈ key_fields)
                 (map_to_list obj).*1).

(** Whether a raw data row is emitted, and as which object. *)
Definition row_object (headers row : list string) : option Row :=
  let '(obj, isEmpty) := build_row headers row ∅ true in
  if negb isEmpty && (0 <? requiredFieldCount obj)%nat then Some obj
  else None.

(** The rows emitted for the data rows [rawData[1..]]. *)
Definition data_rows (headers : list string) (rows : list (list string))
    : list Row :=
  omap (row_object headers) rows.

(** [parseFile] from [rawData] on; [inl] is the message of the error
    thrown inside the [try] block. *)
Definition parse_rawData (rawData : list (list string))
    : string + list Row :=
  match rawData with
  | headerRow :: (_ :: _) as rows =>
      let headers := header_key <$> headerRow in
      if bool_decide (Exists (λ h, h = "") headers) then
        inl "Empty column headers found. Please ensure all columns have headers."
      else inr (data_rows headers rows)
  | _ =>
      inl "The uploaded file must contain a header row and at least one data row."
  end.

(** The [catch] of [parseFile] rethrows with the message wrapped. *)
Definition wrap_parse_error (message : string) : string :=
  if includes message "Unsupported file" then
    "Unsupported file format. Please upload a valid Excel (.xlsx, .xls) or CSV file."
  else "Error parsing file: " +:+ message +:+ ". Please check the file format.".

(** [parseFile] of an existing file whose path has the extension [.csv],
    from the content that [readFileSync] returns.  The test of the
    extension is in [Upload.parseFile_at]. *)
Definition parseFile (fileContent : string) : string + list Row :=
  match parse_rawData (csv_rawData fileContent) with
  | inl message => inl (wrap_parse_error message)
  | inr data => inr data
  end.

End Parse.


(** ** The document store and the host functions *)

Module Store.
Import FeeModel FeeController.

(** Modelled from the spec: [models/User.js] is not among the sources.
    An Account carries name fields, an email unique across accounts, a
    role tag and its approval status (section 3); the generated password
    is left out. *)
Record User := mkUser {
  user_id : nat;
  user_firstName : string;
  user_middleName : string;
  user_lastName : string;
  user_email : string;
  user_role : string;
  user_isApproved : bool;
  user_status : string;
  user_approvedBy : nat
}.

(** [models/Student.js], the paths the import writes. *)
Record Student := mkStudent {
  student_id : nat;
  student_user : nat;
  student_rollNumber : string;
  student_dateOfBirth : Z;
  student_gender : string;
  student_class : string;
  student_section : string;
  student_fatherName : string;
  student_motherName : string;
  student_contactNumber : string;
  student_admissionDate : Z;
  student_monthlyFee : Z
}.

(** Modelled from the spec: [models/Teacher.js], [models/AdminStaff.js]
    and [models/SupportStaff.js] are not among the sources.  A staff
    profile references its account and carries an employee ID unique
    among the staff of its type (section 3). *)
Record Staff := mkStaff {
  staff_id : nat;
  staff_user : nat;
  staff_employeeId : string;
  staff_gender : string;
  staff_position : string;
  staff_experience : option Z;
  staff_salary : option Z;
  staff_lists : list string
}.

(** A JavaScript value that is a number or [undefined]. *)
Inductive JsValue := JsUndefined | JsNumber (n : Z).

Record ErrorEntry := mkError { error_row : nat; error_message : string }.

Inductive ImportStatus := st_success | st_partial | st_failed.

(** Modelled from the spec: [models/UploadHistory.js] is not among the
    sources; the persisted shape is that of section 6. *)
Record UploadHistory := mkHistory {
  h_userType : string;
  h_filename : string;
  h_originalFilename : string;
  h_uploadedBy : nat;
  h_status : ImportStatus;
  h_totalRecords : JsValue;
  h_successCount : nat;
  h_errorCount : nat;
  h_errors : list ErrorEntry
}.

Record Db := mkDb {
  users : list User;
  students : list Student;
  teachers : list Staff;
  adminStaff : list Staff;
  supportStaff : list Staff;
  fees : FeeStore;
  uploadHistory : list UploadHistory
}.

Definition empty_db : Db := mkDb [] [] [] [] [] [] [].

(** Functions of the host that the import calls on cell text.  [None]
    stands for [NaN] and for an invalid [Date]; the clock does not advance
    within one request. *)
Record Host := mkHost {
  now : Z;
  parseFloat : string → option Z;
  parseInt : string → option Z;
  parseDate : string → option Z
}.

(** *** Computations over the store that may throw *)

(** A computation returns the store as it left it and either the message
    of the [Error] it threw or its value. *)
Definition M (A : Type) : Type := Db → Db * (string + A).

Definition ret {A} (a : A) : M A := λ db, (db, inr a).
Definition throw {A} (message : string) : M A := λ db, (db, inl message).
Definition bind {A B} (m : M A) (k : A → M B) : M B :=
  λ db, match m db with
        | (db', inl message) => (db', inl message)
        | (db', inr a) => k a db'
        end.
Definition gets {A} (f : Db → A) : M A := λ db, (db, inr (f db)).
Definition modify (f : Db → Db) : M unit := λ db, (f db, inr ()).

(** [if (c) throw new Error(message)] *)
Definition throw_if (c : bool) (message : string) : M unit :=
  if c then throw message else ret ().

Definition next_id {A} (l : list A) : nat := S (length l).

(** [User.findOne({email})] *)
Definition User_findOne (email : string) (db : Db) : option User :=
  head (filter (λ u, user_email u = email) (users db)).

(** Modelled from the spec: [User.create] of the absent User model stores
    the account as given. *)
Definition User_create (firstName middleName lastName email role : string)
    (approvedBy : nat) : M User :=
  λ db,
    let u := mkUser (next_id (users db)) firstName middleName lastName
                    email role true "active" approvedBy in
    (mkDb (users db ++ [u]) (students db) (teachers db) (adminStaff db)
          (supportStaff db) (fees db) (uploadHistory db), inr u).

(** [Student.findOne({rollNumber})] *)
Definition Student_findOne (rollNumber : string) (db : Db)
    : option Student :=
  head (filter (λ s, student_rollNumber s = JsString.trim rollNumber)
               (students db)).

Definition staff_findOne (employeeId : string) (l : list Staff)
    : option Staff :=
  head (filter (λ s, staff_employeeId s = employeeId) l).

Definition set_fees (fs : FeeStore) (db : Db) : Db :=
  mkDb (users db) (students db) (teachers db) (adminStaff db)
       (supportStaff db) fs (uploadHistory db).

Definition add_student (s : Student) (db : Db) : Db :=
  mkDb (users db) (students db ++ [s]) (teachers db) (adminStaff db)
       (supportStaff db) (fees db) (uploadHistory db).

Definition add_teacher (s : Staff) (db : Db) : Db :=
  mkDb (users db) (students db) (teachers db ++ [s]) (adminStaff db)
       (supportStaff db) (fees db) (uploadHistory db).

Definition add_adminStaff (s : Staff) (db : Db) : Db :=
  mkDb (users db) (students db) (teachers db) (adminStaff db ++ [s])
       (supportStaff db) (fees db) (uploadHistory db).

Definition add_supportStaff (s : Staff) (db : Db) : Db :=
  mkDb (users db) (students db) (teachers db) (adminStaff db)
       (supportStaff db ++ [s]) (fees db) (uploadHistory db).

Definition add_history (h : UploadHistory) (db : Db) : Db :=
  mkDb (users db) (students db) (teachers db) (adminStaff db)
       (supportStaff db) (fees db) (uploadHistory db ++ [h]).

(** [Student.create(studentData)] under the schema of
    [models/Student.js]: [rollNumber] is trimmed, required and unique,
    both dates must be valid, [gender] is one of the enumeration.  The
    text of the validation message is the store's and is abbreviated. *)
Definition Student_create (user : nat) (rollNumber : string)
    (dateOfBirth : option Z) (gender class section : string)
    (monthlyFee : Z) (fatherName motherName contactNumber : string)
    (admissionDate : option Z) : M Student :=
  λ db,
    match dateOfBirth, admissionDate with
    | Some dob, Some adm =>
        if bool_decide (JsString.trim rollNumber = "")
           || negb (bool_decide (gender ∈ ["male"; "female"; "other"]))
        then (db, inl "Student validation failed")
        else if bool_decide (is_Some (Student_findOne rollNumber db))
        then (db, inl "E11000 duplicate key error")
        else
          let s := mkStudent (next_id (students db)) user
                             (JsString.trim rollNumber) dob gender class
                             section fatherName motherName contactNumber
                             adm monthlyFee in
          (add_student s db, inr s)
    | _, _ => (db, inl "Student validation failed")
    end.

(** Modelled from the spec: [create] of an absent staff model stores the
    profile as given. *)
Definition staff_create (add : Staff → Db → Db) (count : Db → nat)
    (user : nat) (employeeId gender position : string)
    (experience salary : option Z) (lists : list string) : M Staff :=
  λ db,
    let s := mkStaff (S (count db)) user employeeId gender position
                     experience salary lists in
    (add s db, inr s).

End Store.

(** ** controllers/dashboard.controller.js: the importers *)

Module Upload.
Import JsString Parse FeeModel FeeController Store.

Notation "'do' x <- m 'in' k" := (bind m (λ x, k))
  (at level 10, x name, m at level 100, k at level 200, only parsing).
Notation "'check' m 'in' k" := (bind m (λ _, k))
  (at level 10, m at level 100, k at level 200, only parsing).

(** [/^\w+([\.-]?\w+)*@\w+([\.-]?\w+)*(\.\w{2,3})+$/] *)
Definition emailRegex : Regex.re :=
  let w := Regex.word in
  let dot_dash :=
    Regex.Class (λ c, bool_decide (c = "."%char) || bool_decide (c = "-"%char)) in
  let tail := Regex.Star (Regex.Cat (Regex.Opt dot_dash) (Regex.Plus w)) in
  Regex.Cat (Regex.Plus w)
    (Regex.Cat tail
       (Regex.Cat (Regex.Chr "@")
          (Regex.Cat (Regex.Plus w)
             (Regex.Cat tail
                (Regex.Plus
                   (Regex.Cat (Regex.Chr ".")
                      (Regex.Cat w (Regex.Cat w (Regex.Opt w))))))))).

Definition isValidEmail (email : string) : bool :=
  Regex.test emailRegex email.

(** [name.toLowerCase().replace(/[^a-z0-9]/g, '')] *)
Definition clean_name (name : string) : string :=
  filter_chars (λ c, between 97 122 c || between 48 57 c) (toLowerCase name).

(** The [while] loop that looks for a free address: [fuel] bounds the
    number of tests of its condition. *)
Fixpoint suffix_loop (fuel : nat) (db : Db) (basePart domainPart : string)
    (counter : nat) (newEmail : string) : option string :=
  match fuel with
  | O => None
  | S fuel' =>
      if bool_decide (is_Some (User_findOne newEmail db)) then
        suffix_loop fuel' db basePart domainPart (S counter)
                    (basePart +:+ pretty counter +:+ "@" +:+ domainPart)
      else Some newEmail
  end.

(** The address given to a row whose email is generated from the prefix
    ([std] or [tch]) and the cleaned names.  The parts are those of
    [generatedEmail.split('@')]; the loop is run with fuel that always
    suffices ([suffix_loop_total]). *)
Definition generate_email (pre firstName lastName : string) (db : Db)
    : string :=
  let generatedEmail :=
    pre +:+ clean_name firstName +:+ clean_name lastName +:+ "@schoolms.com" in
  if bool_decide (is_Some (User_findOne generatedEmail db)) then
    let emailParts := split "@" generatedEmail in
    let basePart := default "" (emailParts !! 0%nat) in
    let domainPart := default "" (emailParts !! 1%nat) in
    default generatedEmail
      (suffix_loop (length (users db) + 2) db basePart domainPart 1
                   generatedEmail)
  else generatedEmail.

Definition student_requiredFields : list string :=
  ["firstName"; "lastName"; "rollNumber"; "class"; "section"; "gender";
   "monthlyFee"; "fatherName"; "motherName"; "contactNumber"].

(** [missingFields.join(', ')] *)
Fixpoint join (sep : string) (l : list string) : string :=
  match l with
  | [] => ""
  | [x] => x
  | x :: l' => x +:+ sep +:+ join sep l'
  end.

(** Whether the row's email is replaced by a generated one. *)
Definition student_email_generated (email : string) : bool :=
  falsy email || negb (startsWith email "std")
  || negb (endsWith email "@schoolms.com").

(** [cell ? new Date(cell) : new Date()] *)
Definition date_or_now (host : Host) (text : string) : option Z :=
  if falsy text then Some (now host) else parseDate host text.

(** The [try] block of the loop of [uploadStudents] for one row;
    [uploader] is [req.user.id]. *)
Definition process_student (host : Host) (uploader : nat) (student : Row)
    : M unit :=
  let missingFields :=
    filter (λ field, falsy (cell student field) = true)
           student_requiredFields in
  check throw_if (0 <? length missingFields)%nat
          ("Missing required fields: " +:+ join ", " missingFields) in
  do student <-
    (if student_email_generated (cell student "email") then
       do generatedEmail <-
         gets (generate_email "std" (cell student "firstName")
                              (cell student "lastName")) in
       ret (<["email" := generatedEmail]> student)
     else
       check throw_if (negb (isValidEmail (cell student "email")))
                      "Invalid email format" in
       do existingUser <- gets (User_findOne (cell student "email")) in
       check throw_if (bool_decide (is_Some existingUser))
                      "Email already exists" in
       ret student) in
  do existingStudent <- gets (Student_findOne (cell student "rollNumber")) in
  check throw_if (bool_decide (is_Some existingStudent))
                 "Roll number already exists" in
  do user <- User_create (cell student "firstName")
                         (cell student "middleName")
                         (cell student "lastName") (cell student "email")
                         "student" uploader in
  do createdStudent <-
    Student_create (user_id user) (cell student "rollNumber")
      (date_or_now host (cell student "dateOfBirth"))
      (toLowerCase (cell student "gender")) (cell student "class")
      (cell student "section")
      (default 0 (parseFloat host (cell student "monthlyFee")))
      (cell student "fatherName") (cell student "motherName")
      (cell student "contactNumber")
      (date_or_now host (cell student "admissionDate")) in
  if 0 <? student_monthlyFee createdStudent then
    modify (λ db,
      set_fees (createInitialFeeRecord (now host) (fees db)
                  (Some (student_id createdStudent)) (Some uploader)
                  (Some (student_monthlyFee createdStudent))).2 db)
  else ret ().

(** The loop's variables besides the store. *)
Record Counters := mkCounters {
  successCount : nat;
  errorCount : nat;
  errors : list ErrorEntry
}.

(** One iteration: the [try] block for row [i], then [successCount++] or
    the [catch] with [rowNum = i + 2]. *)
Definition import_step (body : Row → M unit) (i : nat) (row : Row)
    (s : Db * Counters) : Db * Counters :=
  let '(db, c) := s in
  match body row db with
  | (db', inr _) =>
      (db', mkCounters (successCount c + 1) (errorCount c) (errors c))
  | (db', inl message) =>
      (db', mkCounters (successCount c) (errorCount c + 1)
                       (errors c ++ [mkError (i + 2) message]))
  end.

(** What the variable holding the result of [parseFile] is: the array,
    where the call is awaited, or the promise itself, where it is not. *)
Inductive Parsed :=
| Rows (data : list Row)
| PromiseOf (outcome : option (string + list Row)).

(** [list.length]: a promise has no such property. *)
Definition js_length (p : Parsed) : JsValue :=
  match p with
  | Rows data => JsNumber (Z.of_nat (length data))
  | PromiseOf _ => JsUndefined
  end.

(** [list[i]] *)
Definition js_index (p : Parsed) (i : nat) : option Row :=
  match p with
  | Rows data => data !! i
  | PromiseOf _ => None
  end.

(** [v === 0] *)
Definition js_is_zero (v : JsValue) : bool :=
  match v with
  | JsNumber n => n =? 0
  | JsUndefined => false
  end.

(** [i < v]: [undefined] converts to [NaN] and the comparison is false. *)
Definition js_lt (i : nat) (v : JsValue) : bool :=
  match v with
  | JsNumber n => Z.of_nat i <? n
  | JsUndefined => false
  end.

(** [for (let i = 0; i < list.length; i++) { const row = list[i]; ... }];
    [fuel] bounds the number of tests of the condition. *)
Fixpoint import_loop (fuel : nat) (body : Row → M unit) (list : Parsed)
    (i : nat) (s : Db * Counters) : option (Db * Counters) :=
  match fuel with
  | O => None
  | S fuel' =>
      if js_lt i (js_length list) then
        match js_index list i with
        | Some row =>
            import_loop fuel' body list (S i) (import_step body i row s)
        | None => None
        end
      else Some s
  end.

(** Fuel for a whole run of the loop. *)
Definition loop_fuel (list : Parsed) : nat :=
  match list with
  | Rows data => S (length data)
  | PromiseOf _ => 1
  end.

(** [errorCount === 0 ? 'success' : (successCount > 0 ? 'partial' : 'failed')] *)
Definition import_status (c : Counters) : ImportStatus :=
  if (errorCount c =? 0)%nat then st_success
  else if (0 <? successCount c)%nat then st_partial
  else st_failed.

(** [req.file]: the names, [path.extname(req.file.path)] and the content
    of the file at that path. *)
Record File := mkFile {
  file_filename : string;
  file_originalname : string;
  file_extname : string;
  file_content : string
}.

(** [parseFile(filePath)]: the extension, lowercased, chooses the reader.
    [None] stands for the workbook branch, taken for every other
    extension than [.csv]. *)
Definition parseFile_at (file : File) : option (string + list Row) :=
  if bool_decide (toLowerCase (file_extname file) = ".csv")
  then Some (parseFile (file_content file))
  else None.

Record Request := mkRequest {
  req_file : option File;
  req_user : nat
}.

(** The JSON body of a response. *)
Inductive Body :=
| Failure (message : string) (error : option string)
| ImportResult (totalRecords : JsValue) (successCount errorCount : nat)
               (errors : list ErrorEntry).

Record Response := mkResponse { statusCode : nat; body : Body }.

(** [createUploadHistory]: stores the record of the run. *)
Definition createUploadHistory (userType : string) (file : File)
    (userId : nat) (status : ImportStatus) (totalRecords : JsValue)
    (successCount errorCount : nat) (errors : list ErrorEntry) (db : Db)
    : Db :=
  add_history
    (mkHistory userType (file_filename file) (file_originalname file)
               userId status totalRecords successCount errorCount errors)
    db.

(** The part shared by the four importers after parsing: the test for an
    empty list, the loop, [createUploadHistory] and the response. *)
Definition run_import (userType : string) (body : Row → M unit)
    (file : File) (uploader : nat) (list : Parsed) (db : Db)
    : option (Db * Response) :=
  let totalRecords := js_length list in
  if js_is_zero totalRecords then
    Some (db, mkResponse 400
                (Failure "The uploaded file contains no data" None))
  else
    match import_loop (loop_fuel list) body list 0
                      (db, mkCounters 0 0 []) with
    | Some (db', c) =>
        Some (createUploadHistory userType file uploader (import_status c)
                totalRecords (successCount c) (errorCount c) (errors c)
                db',
              mkResponse 200
                (ImportResult totalRecords (successCount c) (errorCount c)
                              (errors c)))
    | None => None
    end.

Definition no_file : Response :=
  mkResponse 400 (Failure "Please upload a file" None).

(** [uploadStudents]: [parseFile] is awaited inside its own [try].  The
    result is [None] for a file read through the workbook branch. *)
Definition uploadStudents (host : Host) (req : Request) (db : Db)
    : option (Db * Response) :=
  match req_file req with
  | None => Some (db, no_file)
  | Some file =>
      match parseFile_at file with
      | None => None
      | Some (inl message) =>
          Some (db, mkResponse 400 (Failure message None))
      | Some (inr students) =>
          run_import "student" (process_student host (req_user req)) file
                     (req_user req) (Rows students) db
      end
  end.

(** [cell.split(',').map(s => s.trim())]; the cells are strings, never
    arrays. *)
Definition parse_list (text : string) : list string :=
  trim <$> split "," text.

(** [cell ? parse_list(cell) : []] *)
Definition parse_optional_list (text : string) : list string :=
  if falsy text then [] else parse_list text.

(** [s.padStart(4, '0')] *)
Definition padStart4 (s : string) : string :=
  String.substring 0 (4 - String.length s) "0000" +:+ s.

(** [new Date().getFullYear().toString().substr(-2)] *)
Definition year_suffix (host : Host) : string :=
  let y := pretty (Calendar.getFullYear (now host)) in
  String.substring (String.length y - 2) 2 y.

(** The [try] block of the loop of [uploadTeachers]. *)
Definition process_teacher (host : Host) (uploader : nat) (teacher : Row)
    : M unit :=
  check throw_if
    (existsb (λ field, falsy (cell teacher field))
       ["firstName"; "lastName"; "phoneNumber"; "qualification";
        "experience"; "subjects"; "gender"; "salary"])
    "Missing required fields" in
  do generatedEmail <-
    gets (generate_email "tch" (cell teacher "firstName")
                         (cell teacher "lastName")) in
  do teacherCount <- gets (λ db, length (teachers db)) in
  let employeeId :=
    "TCH" +:+ year_suffix host +:+ padStart4 (pretty (teacherCount + 1)%nat) in
  do user <- User_create (cell teacher "firstName")
                         (cell teacher "middleName")
                         (cell teacher "lastName") generatedEmail
                         "teacher" uploader in
  do _ <- staff_create add_teacher (λ db, length (teachers db))
            (user_id user) employeeId (toLowerCase (cell teacher "gender"))
            "" (parseInt host (cell teacher "experience"))
            (parseFloat host (cell teacher "salary"))
            (parse_list (cell teacher "subjects")
             ++ parse_optional_list (cell teacher "classes")) in
  ret ().

(** The [try] block of the loop of [uploadAdminStaff]. *)
Definition process_adminStaff (host : Host) (uploader : nat) (staff : Row)
    : M unit :=
  check throw_if
    (existsb (λ field, falsy (cell staff field))
       ["firstName"; "lastName"; "email"; "employeeId"; "phoneNumber";
        "qualification"; "experience"; "position"; "department"; "gender";
        "salary"])
    "Missing required fields" in
  check throw_if (negb (isValidEmail (cell staff "email")))
                 "Invalid email format" in
  do existingUser <- gets (User_findOne (cell staff "email")) in
  check throw_if (bool_decide (is_Some existingUser))
                 "Email already exists" in
  do existingStaff <-
    gets (λ db, staff_findOne (cell staff "employeeId") (adminStaff db)) in
  check throw_if (bool_decide (is_Some existingStaff))
                 "Employee ID already exists" in
  do user <- User_create (cell staff "firstName") (cell staff "middleName")
                         (cell staff "lastName") (cell staff "email")
                         (if falsy (cell staff "role") then "admin"
                          else cell staff "role")
                         uploader in
  do _ <- staff_create add_adminStaff (λ db, length (adminStaff db))
            (user_id user) (cell staff "employeeId")
            (toLowerCase (cell staff "gender")) (cell staff "position")
            (parseInt host (cell staff "experience"))
            (parseFloat host (cell staff "salary"))
            (parse_optional_list (cell staff "responsibilities")) in
  ret ().

(** The [try] block of the loop of [uploadSupportStaff]. *)
Definition process_supportStaff (host : Host) (uploader : nat) (staff : Row)
    : M unit :=
  check throw_if
    (existsb (λ field, falsy (cell staff field))
       ["firstName"; "lastName"; "email"; "employeeId"; "phoneNumber";
        "position"; "experience"; "gender"; "salary"])
    "Missing required fields" in
  check throw_if (negb (isValidEmail (cell staff "email")))
                 "Invalid email format" in
  do existingUser <- gets (User_findOne (cell staff "email")) in
  check throw_if (bool_decide (is_Some existingUser))
                 "Email already exists" in
  do existingStaff <-
    gets (λ db, staff_findOne (cell staff "employeeId") (supportStaff db)) in
  check throw_if (bool_decide (is_Some existingStaff))
                 "Employee ID already exists" in
  do user <- User_create (cell staff "firstName") (cell staff "middleName")
                         (cell staff "lastName") (cell staff "email")
                         "support-staff" uploader in
  do _ <- staff_create add_supportStaff (λ db, length (supportStaff db))
            (user_id user) (cell staff "employeeId")
            (toLowerCase (cell staff "gender"))
            (toLowerCase (cell staff "position"))
            (parseInt host (cell staff "experience"))
            (parseFloat host (cell staff "salary"))
            (parse_optional_list (cell staff "daysOfWeek")) in
  ret ().

(** [uploadTeachers]: [parseFile] is awaited; its error reaches the outer
    [catch]. *)
Definition uploadTeachers (host : Host) (req : Request) (db : Db)
    : option (Db * Response) :=
  match req_file req with
  | None => Some (db, no_file)
  | Some file =>
      match parseFile_at file with
      | None => None
      | Some (inl message) =>
          Some (db, mkResponse 500
                      (Failure "Error processing file" (Some message)))
      | Some (inr teachers) =>
          run_import "teacher" (process_teacher host (req_user req)) file
                     (req_user req) (Rows teachers) db
      end
  end.

(** [uploadAdminStaff]: [const adminStaffList = parseFile(filePath)],
    with no [await]: the variable holds the promise. *)
Definition uploadAdminStaff (host : Host) (req : Request) (db : Db)
    : option (Db * Response) :=
  match req_file req with
  | None => Some (db, no_file)
  | Some file =>
      let adminStaffList := PromiseOf (parseFile_at file) in
      run_import "admin-staff" (process_adminStaff host (req_user req))
                 file (req_user req) adminStaffList db
  end.

(** [uploadSupportStaff]: [const supportStaffList = parseFile(filePath)],
    with no [await] either. *)
Definition uploadSupportStaff (host : Host) (req : Request) (db : Db)
    : option (Db * Response) :=
  match req_file req with
  | None => Some (db, no_file)
  | Some file =>
      let supportStaffList := PromiseOf (parseFile_at file) in
      run_import "support-staff" (process_supportStaff host (req_user req))
                 file (req_user req) supportStaffList db
  end.

End Upload.

Module FeeSpec.
Import FeeModel.

(** The status derived from a payment, as the table of the
    specification words it, read from its first line down: [unpaid] if
    [paidAmount == 0], [partial] if [0 < paidAmount < amount], [paid] if
    [paidAmount >= amount]; [None] where no line applies. *)
Definition stated_status (paidAmount amount : Z) : option FeeStatus :=
  if paidAmount =? 0 then Some unpaid
  else if (0 <? paidAmount) && (paidAmount <? amount) then Some partial
  else if amount <=? paidAmount then Some paid
  else None.

(** The overdue rule applied to a derived status. *)
Definition after_overdue_check (now dueDate : Z) (s : FeeStatus)
    : FeeStatus :=
  if bool_decide (s ≠ paid ∧ dueDate < now ∧ s ≠ overdue) then overdue
  else s.

(** "An explicit paid always wins over the overdue check." *)
Definition explicit_paid_wins (now : Z) (d : FeeDoc) : Prop :=
  isModified p_status d = true → status (fields d) = paid →
  status (fields (pre_save now d)) = paid.

(** "A record already overdue is not reclassified unless paidAmount
    changes too." *)
Definition overdue_kept (now : Z) (d : FeeDoc) : Prop :=
  status (fields d) = overdue → isModified p_paidAmount d = false →
  status (fields (pre_save now d)) = overdue.

(** The hook keeps what the month query reads, and the identifier. *)
Definition same_key (d d' : FeeDoc) : Prop :=
  _id (fields d') = _id (fields d)
  ∧ student (fields d') = student (fields d)
  ∧ feeType (fields d') = feeType (fields d)
  ∧ dueDate (fields d') = dueDate (fields d).

(** Documents used as concrete inputs: a stored fee and the paths a
    request has set on it. *)
Definition fee_doc (amount dueDate : Z) (status : FeeStatus)
    (paidAmount remainingAmount : Z) (modified : list FeePath) : FeeDoc :=
  mkDoc (mkFee 1 1 tuition amount dueDate None status paidAmount
               remainingAmount 0 1) modified.

End FeeSpec.


(** ** Arrears and the initial fee record, as the specification words them *)

Module ArrearsSpec.
Import FeeModel Calendar FeeController.

Definition first_day_of_month (now : Z) : Z :=
  Date_ymd (getFullYear now) (getMonth now) 1.

(** The cutover month, May 2025. *)
Definition cutover_month (now : Z) : Prop :=
  getMonth now = 4 ∧ getFullYear now = 2025.

(** A fee record of the student due strictly before the first day of the
    current month, with status unpaid, partial or overdue. *)
Definition qualifying (now : Z) (studentId : option nat) (fee : Fee)
    : Prop :=
  Some (student fee) = studentId
  ∧ dueDate fee < first_day_of_month now
  ∧ (status fee = unpaid ∨ status fee = partial ∨ status fee = overdue).

#[global] Instance qualifying_dec now sid fee :
  Decision (qualifying now sid fee).
Proof. unfold qualifying. apply _. Defined.

(** What one qualifying record contributes. *)
Definition owed (fee : Fee) : Z :=
  match status fee with
  | partial => remainingAmount fee
  | _ => amount fee
  end.

Definition stated_arrears (now : Z) (fees : FeeStore)
    (studentId : option nat) : Z :=
  foldr Z.add 0 (owed <$> filter (qualifying now studentId) fees).

(** Clock readings and a store for concrete inputs: 2 November 2026 and
    15 May 2025, noon; student 1 owes 500 (unpaid, due in September 2026)
    and 200 (the rest of a partial payment, due in October 2026) and has an
    unpaid fee due inside November 2026. *)
Definition nov_2026 : Z := 1793620800000.
Definition may_2025 : Z := 1747310400000.

Definition sample_fees : FeeStore :=
  [ mkFee 1 1 tuition 500 (Date_ymd 2026 8 30) None unpaid 0 500 0 9;
    mkFee 2 1 tuition 900 (Date_ymd 2026 9 31) None partial 700 200 500 9;
    mkFee 3 1 tuition 500 (Date_ymd 2026 10 30) None unpaid 0 500 700 9;
    mkFee 4 2 tuition 300 (Date_ymd 2026 9 31) None overdue 0 300 0 9;
    mkFee 5 1 exam 100 (Date_ymd 2026 9 31) (Some 5) paid 100 0 0 9 ].

End ArrearsSpec.

(** ** CSV lines, as the specification words them *)

Module CsvSpec.
Import JsString Parse.

(** A value of a line and whether it is written between double quotes. *)
Record Field := mkField { quoted : bool; content : string }.

Fixpoint has_char (c : ascii) (s : string) : bool :=
  match s with
  | EmptyString => false
  | String x s' => bool_decide (x = c) || has_char c s'
  end.

(** A value holds neither a double quote nor a backslash, and a value
    written without quotes holds no comma. *)
Definition well_formed (f : Field) : Prop :=
  has_char "034" (content f) = false
  ∧ has_char "\" (content f) = false
  ∧ (quoted f = false → has_char "," (content f) = false).

Definition render_field (f : Field) : string :=
  if quoted f then String "034" (content f +:+ String "034" "") else content f.

(** The values joined by commas. *)
Fixpoint render_line (fs : list Field) : string :=
  match fs with
  | [] => ""
  | [f] => render_field f
  | f :: fs' => render_field f +:+ String "," (render_line fs')
  end.

End CsvSpec.

(** ** Headers and row filtering, as the specification words them *)

Module ParseSpec.
Import JsString Parse CsvSpec.

(** "Each header cell's key is the substring of its display text before
    the first parenthesis, trimmed": whenever the text is [a], then an
    opening parenthesis, then [b], with no parenthesis in [a]. *)
Definition key_is_text_before_parenthesis (header : string) : Prop :=
  ∀ a b, has_char "(" a = false → header = a +:+ String "(" b →
         header_key header = trim a.

(** The cells of a data row that fall under a header, in column order. *)
Definition row_cells (headers row : list string)
    : list (string * string) :=
  filter (λ hv, hv.1 ≠ "") (zip headers row).

(** The object of a data row: each header with the value of its last
    column. *)
Definition row_obj (headers row : list string) : Row :=
  list_to_map (reverse (row_cells headers row)).

(** "Contains the word", whatever the case of its letters. *)
Definition holds_word (word value : string) : Prop :=
  ∃ before after, toUpperCase value = before +:+ word +:+ after.

(** A value that is not empty and holds none of the words IMPORTANT,
    NOTE, INSTRUCTION. *)
Definition real_value (value : string) : Prop :=
  value ≠ ""
  ∧ ¬ holds_word "IMPORTANT" value
  ∧ ¬ holds_word "NOTE" value
  ∧ ¬ holds_word "INSTRUCTION" value.

(** A raw data row is dropped when each of its values is empty or holds
    one of the words IMPORTANT, NOTE, INSTRUCTION, or when none of
    firstName, lastName, email is set. *)
Definition dropped (headers row : list string) : Prop :=
  Forall (λ hv, ¬ real_value hv.2) (row_cells headers row)
  ∨ Forall (λ key, cell (row_obj headers row) key = "") key_fields.



End ParseSpec.

(** ** The import loop, as the specification words it *)

Module ImportSpec.
Import Parse Store Upload.

(** The loop over an array of rows, unrolled: row [i] is the head of the
    rows still to process. *)
Fixpoint run_rows (body : Row → M unit) (i : nat) (rows : list Row)
    (s : Db * Counters) : Db * Counters :=
  match rows with
  | [] => s
  | row :: rest => run_rows body (S i) rest (import_step body i row s)
  end.

(** The store as the rows before row [i] have left it. *)
Definition db_before (body : Row → M unit) (data : list Row) (db : Db)
    (i : nat) : Db :=
  foldl (λ db row, (body row db).1) db (take i data).

(** Row [i] of the parsed rows fails with [message]. *)
Definition fails_at (body : Row → M unit) (data : list Row) (db : Db)
    (i : nat) (message : string) : Prop :=
  ∃ row, data !! i = Some row
         ∧ (body row (db_before body data db i)).2 = inl message.

(** The counts add up and the status follows the rule of section 3. *)
Definition result_consistent (totalRecords : JsValue)
    (successCount errorCount : nat) (status : ImportStatus) : Prop :=
  totalRecords = JsNumber (Z.of_nat (successCount + errorCount))
  ∧ (status = st_success ↔ errorCount = 0%nat)
  ∧ (status = st_failed ↔ successCount = 0%nat ∧ (0 < errorCount)%nat)
  ∧ (status = st_partial ↔ (0 < successCount)%nat ∧ (0 < errorCount)%nat).




End ImportSpec.

(** ** Inputs for the importers *)

Module ImportExamples.
Import JsString Parse Store Upload.

(** Leading decimal digits of a text as a number; [None] when there is
    none. *)
Fixpoint digits_go (acc : option Z) (s : string) : option Z :=
  match s with
  | EmptyString => acc
  | String c s' =>
      if between 48 57 c then
        digits_go (Some (default 0 acc * 10 + Z.of_nat (code c - 48))) s'
      else acc
  end.

(** A host whose number parsers read leading digits, for which every
    date text is invalid, on 2 November 2026. *)
Definition sample_host : Host :=
  mkHost 1793620800000 (digits_go None) (digits_go None) (λ _, None).

Definition newline : string := String "010" "".

Definition lines (l : list string) : string :=
  foldr (λ line rest, line +:+ newline +:+ rest) "" l.

Definition student_header : string :=
  "firstName,lastName,rollNumber (REQUIRED),class,section,gender,monthlyFee,fatherName,motherName,contactNumber,email".

(** Two students with the same cleaned name. *)
Definition two_obriens : File :=
  mkFile "students.csv" "students.csv" ".csv"
    (lines [student_header;
            "O'Brien,Smith,R1,5,A,Male,500,F,M,123,";
            "O'Brien,Smith,R2,5,A,Male,500,F,M,123,"]).

(** A student whose email has the prefix and the domain but not the
    names. *)
Definition odd_email : File :=
  mkFile "students.csv" "students.csv" ".csv"
    (lines [student_header;
            "John,Smith,R1,5,A,Male,500,F,M,123,stdxyz@schoolms.com"]).

(** An instruction row before a row that lacks its last name. *)
Definition with_instructions : File :=
  mkFile "students.csv" "students.csv" ".csv"
    (lines [student_header;
            "IMPORTANT: fill every column,,,,,,,,,,";
            "Ann,Lee,R1,5,A,Female,500,F,M,123,";
            "Al,,R3,5,A,Male,500,F,M,123,"]).

Definition staff_header : string :=
  "firstName,lastName,email,employeeId,phoneNumber,qualification,experience,position,department,gender,salary".

(** One admin-staff row whose email is that of an existing account. *)
Definition colliding_staff : File :=
  mkFile "staff.csv" "staff.csv" ".csv"
    (lines [staff_header;
            "Ann,Lee,ann@school.org,E7,123,MSc,3,clerk,office,female,900"]).

(** The row of the sample staff file. *)
Definition ann_row : gmap string string :=
  list_to_map
    [("firstName", "Ann"); ("lastName", "Lee"); ("email", "ann@school.org");
     ("employeeId", "E7"); ("phoneNumber", "123"); ("qualification", "MSc");
     ("experience", "3"); ("position", "clerk"); ("department", "office");
     ("gender", "female"); ("salary", "900")].

(** The first row of [two_obriens]. *)
Definition obrien_row : gmap string string :=
  list_to_map
    [("firstName", "O'Brien"); ("lastName", "Smith"); ("rollNumber", "R1");
     ("class", "5"); ("section", "A"); ("gender", "Male");
     ("monthlyFee", "500"); ("fatherName", "F"); ("motherName", "M");
     ("contactNumber", "123"); ("email", "")].

Definition db_with_ann : Db :=
  mkDb [mkUser 1 "Ann" "" "Lee" "ann@school.org" "admin" true "active" 1]
       [] [] [] [] [] [].

End ImportExamples.

(** ** Generated student addresses, as the specification words them *)

Module EmailSpec.
Import JsString Parse Store Upload.

(** An account with this address exists. *)
Definition taken (db : Db) (email : string) : Prop :=
  is_Some (User_findOne email db).

#[global] Instance taken_dec db email : Decision (taken db email).
Proof. unfold taken. apply _. Defined.

(** "Cleaned (alphanumeric-only, lowercased)": the letters and the
    digits of the name in their order, the letters in lower case, and
    nothing else.  The letters and digits are those of ASCII; of the
    other characters U+0130 and U+212A count as i and k, the letters
    their lower case holds. *)
Fixpoint cleaned (name : string) : string :=
  match name with
  | EmptyString => EmptyString
  | String c1 s1 =>
      if between 65 90 c1 then
        String (ascii_of_nat (code c1 + 32)) (cleaned s1)
      else if between 97 122 c1 || between 48 57 c1 then
        String c1 (cleaned s1)
      else
        match s1 with
        | String c2 s2 =>
            if bytes2 c1 c2 196 176 then String "i" (cleaned s2)
            else
              match s2 with
              | String c3 s3 =>
                  if bytes3 c1 c2 c3 226 132 170
                  then String "k" (cleaned s3)
                  else cleaned s1
              | EmptyString => cleaned s1
              end
        | EmptyString => EmptyString
        end
  end.

(** The local part before any suffix: the prefix and the cleaned names. *)
Definition local_part (pre firstName lastName : string) : string :=
  pre +:+ clean_name firstName +:+ clean_name lastName.

(** The addresses tried in turn: without suffix, then with the suffixes
    1, 2, ... *)
Definition candidate (loc : string) (k : nat) : string :=
  match k with
  | O => loc +:+ "@schoolms.com"
  | S _ => loc +:+ pretty k +:+ "@" +:+ "schoolms.com"
  end.

(** Candidate [k] is free and all the candidates before it are taken. *)
Definition first_free (db : Db) (loc : string) (k : nat) : Prop :=
  ¬ taken db (candidate loc k)
  ∧ ∀ j, (j < k)%nat → taken db (candidate loc j).

(** "The given email matches the synthetic pattern
    std<lowercasedFirst><lowercasedLast>@<domain>". *)
Definition matches_synthetic_pattern (firstName lastName email : string)
    : Prop :=
  ∃ domain,
    email = "std" +:+ toLowerCase firstName +:+ toLowerCase lastName
            +:+ "@" +:+ domain.

(** "For every row whose given email is absent or does not match the
    pattern, an email is auto-generated." *)
Definition generated_unless_pattern (firstName lastName email : string)
    : Prop :=
  email = "" ∨ ¬ matches_synthetic_pattern firstName lastName email →
  student_email_generated email = true.

(** What the code tests instead. *)
Definition lacks_prefix_or_domain (email : string) : Prop :=
  email = "" ∨ startsWith email "std" = false
  ∨ endsWith email "@schoolms.com" = false.

End EmailSpec.

(** ** controllers/fee.controller.js: the route handlers *)

Module FeeRoutes.
Import FeeModel Calendar FeeController.

(** The paths of a Student document ([models/Student.js]) that the fee
    routes read. *)
Record StudentDoc := mkStudentDoc {
  sd_id : nat;
  sd_user : nat;
  sd_isActive : bool
}.

(** The two collections the handlers work on. *)
Record Collections := mkCollections {
  fee_docs : FeeStore;
  student_docs : list StudentDoc
}.

(** [req.user], as the authentication middleware leaves it. *)
Record ReqUser := mkReqUser { ru_id : nat; ru_role : string }.

(** The JSON of a response.  [Thrown] is [{success: false, message:
    err.message}] for an error raised by the store or the host, whose
    text is theirs. *)
Inductive Json :=
| Failed (message : string)
| Thrown
| OneFee (data : Fee)
| ManyFees (message : string) (data : list Fee)
| NoData
| Cleaned (message : string) (deletedCount : nat) (orphanedFeeIds : list nat).

Record Reply := mkReply { reply_code : nat; reply_json : Json }.

(** [Fee.findById(id)] *)
Definition Fee_findById (id : nat) (fees : FeeStore) : option Fee :=
  head (filter (λ f, _id f = id) fees).

(** [Student.findById(id)], which is also what [populate('student')]
    puts in place of the reference: the document, or [null]. *)
Definition Student_findById (id : nat) (l : list StudentDoc)
    : option StudentDoc :=
  head (filter (λ s, sd_id s = id) l).

(** [Student.findOne({user})] *)
Definition Student_findByUser (user : nat) (l : list StudentDoc)
    : option StudentDoc :=
  head (filter (λ s, sd_user s = user) l).

(** *** cleanupOrphanedFees *)

(** [!fee.student || fee.student.isActive === false] on a populated
    fee. *)
Definition is_orphaned (l : list StudentDoc) (fee : Fee) : bool :=
  match Student_findById (student fee) l with
  | None => true
  | Some s => negb (sd_isActive s)
  end.

(** [Fee.deleteMany({_id: {$in: ids}})]: what is left, and
    [deletedCount]. *)
Definition Fee_deleteMany (ids : list nat) (fees : FeeStore)
    : FeeStore * nat :=
  (filter (λ f, _id f ∉ ids) fees,
   length (filter (λ f, _id f ∈ ids) fees)).

Definition cleanupOrphanedFees (user : ReqUser) (c : Collections)
    : Collections * Reply :=
  if bool_decide (ru_role user ≠ "admin")
     && bool_decide (ru_role user ≠ "principal")
  then (c, mkReply 403 (Failed "Not authorized to perform this action"))
  else
    let allFees := fee_docs c in
    let orphanedFees :=
      filter (λ fee, is_orphaned (student_docs c) fee = true) allFees in
    let orphanedFeeIds := _id <$> orphanedFees in
    if (0 <? length orphanedFeeIds)%nat then
      let '(rest, deletedCount) := Fee_deleteMany orphanedFeeIds allFees in
      (mkCollections rest (student_docs c),
       mkReply 200
         (Cleaned ("Successfully cleaned up " +:+ pretty deletedCount
                   +:+ " orphaned fee records")
                  deletedCount orphanedFeeIds))
    else
      (c, mkReply 200 (Cleaned "No orphaned fee records found" 0 [])).

(** *** getFeeRecord *)

(** [getFeeRecord]: the response carries the fee; the names that
    [populate] adds to it are left out.  For a student the fee's
    populated [student] is dereferenced: when that document is gone the
    access throws and the [catch] answers 400. *)
Definition getFeeRecord (user : ReqUser) (id : nat) (c : Collections)
    : Reply :=
  match Fee_findById id (fee_docs c) with
  | None =>
      mkReply 404 (Failed ("No fee record found with id " +:+ pretty id))
  | Some fee =>
      if bool_decide (ru_role user = "student") then
        match Student_findByUser (ru_id user) (student_docs c) with
        | None =>
            mkReply 403
              (Failed "Access denied. You can only view your own fee records.")
        | Some student =>
            match Student_findById (FeeModel.student fee) (student_docs c) with
            | None => mkReply 400 Thrown
            | Some populated =>
                if bool_decide (sd_id populated ≠ sd_id student) then
                  mkReply 403
                    (Failed "Access denied. You can only view your own fee records.")
                else mkReply 200 (OneFee fee)
            end
        end
      else mkReply 200 (OneFee fee)
  end.

(** *** Request bodies *)

(** The [feeType] of a body: one of the enumeration, the word [all], or
    any other text. *)
Inductive TypeArg := ft_one (t : FeeType) | ft_all | ft_unknown.

(** [req.body] of the create and update routes: the paths of the schema
    it may carry, each absent or holding a value of the path's type (a
    number, a date as its time value, a status of the enumeration). *)
Record Body := mkBody {
  b_student : option nat;
  b_feeType : option TypeArg;
  b_amount : option Z;
  b_dueDate : option Z;
  b_paymentDate : option Z;
  b_status : option FeeStatus;
  b_paidAmount : option Z;
  b_remainingAmount : option Z;
  b_arrears : option Z;
  b_recordedBy : option nat
}.

(** *** The save hook on a new or a loaded document *)

(** [this.path = v]: a new document marks every path assigned, a loaded
    one the paths whose value changes. *)
Definition write_paidAmount (isNew : bool) (v : Z) (d : FeeDoc)
    : FeeDoc :=
  let d' := set_paidAmount v d in
  if isNew then markModified p_paidAmount d' else d'.

Definition write_remainingAmount (isNew : bool) (v : Z) (d : FeeDoc)
    : FeeDoc :=
  let d' := set_remainingAmount v d in
  if isNew then markModified p_remainingAmount d' else d'.

Definition write_paymentDate (isNew : bool) (v : option Z) (d : FeeDoc)
    : FeeDoc :=
  let d' := set_paymentDate v d in
  if isNew then markModified p_paymentDate d' else d'.

Definition write_status (isNew : bool) (v : FeeStatus) (d : FeeDoc)
    : FeeDoc :=
  let d' := set_status v d in
  if isNew then markModified p_status d' else d'.

(** [FeeSchema.pre('save', ...)] with the document's [isNew] made
    explicit; on a loaded document this is [pre_save]
    ([save_hook_loaded]). *)
Definition save_hook (isNew : bool) (now : Z) (d : FeeDoc) : FeeDoc :=
  let d :=
    if isModified p_status d && bool_decide (status (fields d) = paid) then
      let d1 := write_paidAmount isNew (amount (fields d)) d in
      let d2 := write_remainingAmount isNew 0 d1 in
      write_paymentDate isNew (paymentDate_or_now now d2) d2
    else d in
  let d :=
    if isModified p_paidAmount d then
      let d1 :=
        write_remainingAmount isNew
          (amount (fields d) - paidAmount (fields d)) d in
      if paidAmount (fields d1) =? 0 then write_status isNew unpaid d1
      else if paidAmount (fields d1) <? amount (fields d1) then
        write_status isNew partial d1
      else if paidAmount (fields d1) >=? amount (fields d1) then
        let d2 := write_status isNew paid d1 in
        write_paymentDate isNew (paymentDate_or_now now d2) d2
      else d1
    else d in
  if negb (bool_decide (status (fields d) = paid))
     && (dueDate (fields d) <? now)
     && negb (bool_decide (status (fields d) = overdue))
  then write_status isNew overdue d
  else d.

(** *** updateFeeRecord, deleteFeeRecord *)

(** Assignments to the paths the hook does not write. *)
Definition set_student (v : nat) (d : FeeDoc) : FeeDoc :=
  let f := fields d in
  if bool_decide (student f = v) then d
  else markModified p_other
         (mkDoc (mkFee (_id f) v (feeType f) (amount f) (dueDate f)
                       (paymentDate f) (status f) (paidAmount f)
                       (remainingAmount f) (arrears f) (recordedBy f))
                (modifiedPaths d)).

Definition set_feeType (v : FeeType) (d : FeeDoc) : FeeDoc :=
  let f := fields d in
  if bool_decide (feeType f = v) then d
  else markModified p_other
         (mkDoc (mkFee (_id f) (student f) v (amount f) (dueDate f)
                       (paymentDate f) (status f) (paidAmount f)
                       (remainingAmount f) (arrears f) (recordedBy f))
                (modifiedPaths d)).

Definition set_amount (v : Z) (d : FeeDoc) : FeeDoc :=
  let f := fields d in
  if bool_decide (amount f = v) then d
  else markModified p_amount
         (mkDoc (mkFee (_id f) (student f) (feeType f) v (dueDate f)
                       (paymentDate f) (status f) (paidAmount f)
                       (remainingAmount f) (arrears f) (recordedBy f))
                (modifiedPaths d)).

Definition set_dueDate (v : Z) (d : FeeDoc) : FeeDoc :=
  let f := fields d in
  if bool_decide (dueDate f = v) then d
  else markModified p_dueDate
         (mkDoc (mkFee (_id f) (student f) (feeType f) (amount f) v
                       (paymentDate f) (status f) (paidAmount f)
                       (remainingAmount f) (arrears f) (recordedBy f))
                (modifiedPaths d)).

Definition set_arrears (v : Z) (d : FeeDoc) : FeeDoc :=
  let f := fields d in
  if bool_decide (arrears f = v) then d
  else markModified p_other
         (mkDoc (mkFee (_id f) (student f) (feeType f) (amount f) (dueDate f)
                       (paymentDate f) (status f) (paidAmount f)
                       (remainingAmount f) v (recordedBy f))
                (modifiedPaths d)).

Definition set_recordedBy (v : nat) (d : FeeDoc) : FeeDoc :=
  let f := fields d in
  if bool_decide (recordedBy f = v) then d
  else markModified p_other
         (mkDoc (mkFee (_id f) (student f) (feeType f) (amount f) (dueDate f)
                       (paymentDate f) (status f) (paidAmount f)
                       (remainingAmount f) (arrears f) v)
                (modifiedPaths d)).

(** [fee[key] = req.body[key]] for a key that may be absent. *)
Definition assign {A} (set : A → FeeDoc → FeeDoc) (v : option A)
    (d : FeeDoc) : FeeDoc :=
  match v with
  | Some a => set a d
  | None => d
  end.

(** A fee type outside the enumeration is assigned as it is and fails
    the validation of the save. *)
Definition type_of_enum (v : option TypeArg) : bool :=
  match v with
  | Some ft_all | Some ft_unknown => false
  | _ => true
  end.

Definition assign_feeType (v : option TypeArg) (d : FeeDoc) : FeeDoc :=
  match v with
  | Some (ft_one t) => set_feeType t d
  | _ => d
  end.

(** [Object.keys(req.body).forEach(key => { fee[key] = req.body[key] })]:
    each assignment writes its own path, so the order of the keys does
    not show in the fields or in the set of modified paths. *)
Definition assign_body (b : Body) (d : FeeDoc) : FeeDoc :=
  assign set_recordedBy (b_recordedBy b)
    (assign set_arrears (b_arrears b)
       (assign set_remainingAmount (b_remainingAmount b)
          (assign set_paidAmount (b_paidAmount b)
             (assign set_status (b_status b)
                (assign (λ v, set_paymentDate (Some v)) (b_paymentDate b)
                   (assign set_dueDate (b_dueDate b)
                      (assign set_amount (b_amount b)
                         (assign_feeType (b_feeType b)
                            (assign set_student (b_student b) d))))))))).

(** The test that guards update and deletion: the recorder, an admin or
    a principal passes. *)
Definition may_change (user : ReqUser) (fee : Fee) : bool :=
  negb (bool_decide (recordedBy fee ≠ ru_id user)
        && bool_decide (ru_role user ≠ "admin")
        && bool_decide (ru_role user ≠ "principal")).

(** What [fee.save()] writes back: the document with the identifier of
    [f] becomes [f]. *)
Definition store_fee (f : Fee) (fees : FeeStore) : FeeStore :=
  (λ g, if bool_decide (_id g = _id f) then f else g) <$> fees.

Definition updateFeeRecord (now : Z) (user : ReqUser) (id : nat) (b : Body)
    (c : Collections) : Collections * Reply :=
  match Fee_findById id (fee_docs c) with
  | None =>
      (c, mkReply 404 (Failed ("No fee record found with id " +:+ pretty id)))
  | Some fee =>
      if negb (may_change user fee) then
        (c, mkReply 401
              (Failed ("User " +:+ pretty (ru_id user)
                       +:+ " is not authorized to update this fee record")))
      else
        let doc := assign_body b (mkDoc fee []) in
        if negb (type_of_enum (b_feeType b)) then (c, mkReply 400 Thrown)
        else
          let saved := fields (save_hook false now doc) in
          (mkCollections (store_fee saved (fee_docs c)) (student_docs c),
           mkReply 200 (OneFee saved))
  end.

Definition deleteFeeRecord (user : ReqUser) (id : nat) (c : Collections)
    : Collections * Reply :=
  match Fee_findById id (fee_docs c) with
  | None =>
      (c, mkReply 404 (Failed ("No fee record found with id " +:+ pretty id)))
  | Some fee =>
      if negb (may_change user fee) then
        (c, mkReply 401
              (Failed ("User " +:+ pretty (ru_id user)
                       +:+ " is not authorized to delete this fee record")))
      else
        (mkCollections (filter (λ g, _id g ≠ _id fee) (fee_docs c))
                       (student_docs c),
         mkReply 200 NoData)
  end.

(** *** createFeeRecord *)

(** [new Date(dueDate.getFullYear(), dueDate.getMonth(), 1)] and
    [new Date(dueDate.getFullYear(), dueDate.getMonth() + 1, 0)]. *)
Definition startOfMonth (dueDate : Z) : Z :=
  Date_ymd (getFullYear dueDate) (getMonth dueDate) 1.

Definition endOfMonth (dueDate : Z) : Z :=
  Date_ymd (getFullYear dueDate) (getMonth dueDate + 1) 0.

(** [$set] of the keys of [{...req.body, feeType}] on a stored document;
    a query update runs no save hook. *)
Definition apply_body (b : Body) (feeType : FeeType) (f : Fee) : Fee :=
  mkFee (_id f) (default (student f) (b_student b)) feeType
        (default (amount f) (b_amount b))
        (default (dueDate f) (b_dueDate b))
        (match b_paymentDate b with
         | Some v => Some v
         | None => paymentDate f
         end)
        (default (status f) (b_status b))
        (default (paidAmount f) (b_paidAmount b))
        (default (remainingAmount f) (b_remainingAmount b))
        (default (arrears f) (b_arrears b))
        (default (recordedBy f) (b_recordedBy b)).

(** [Fee.findByIdAndUpdate(id, {...req.body, feeType}, {new: true,
    runValidators: true})] *)
Definition Fee_updateById (id : nat) (b : Body) (feeType : FeeType)
    (fees : FeeStore) : option Fee * FeeStore :=
  (apply_body b feeType <$> Fee_findById id fees,
   (λ f, if bool_decide (_id f = id) then apply_body b feeType f else f)
     <$> fees).

(** The paths a new document has marked: those the body carries. *)
Definition path_if_given {A} (v : option A) (p : FeePath) : list FeePath :=
  match v with
  | Some _ => [p]
  | None => []
  end.

Definition given_paths (b : Body) : list FeePath :=
  [p_other; p_amount; p_dueDate]
  ++ path_if_given (b_paymentDate b) p_paymentDate
  ++ path_if_given (b_status b) p_status
  ++ path_if_given (b_paidAmount b) p_paidAmount
  ++ path_if_given (b_remainingAmount b) p_remainingAmount.

(** [Fee.create({...req.body, feeType})]: [None] when the validation
    fails, which for a body of typed values is when a required path is
    absent.  The defaults of the schema fill the absent paths, and the
    document is saved through the hook. *)
Definition Fee_create_body (now : Z) (b : Body) (feeType : FeeType)
    (fees : FeeStore) : option (Fee * FeeStore) :=
  match b_student b, b_amount b, b_dueDate b, b_recordedBy b with
  | Some sid, Some amount, Some dueDate, Some rid =>
      let doc :=
        mkDoc (mkFee (fresh_id fees) sid feeType amount dueDate
                     (b_paymentDate b) (default unpaid (b_status b))
                     (default 0 (b_paidAmount b))
                     (default amount (b_remainingAmount b))
                     (default 0 (b_arrears b)) rid)
              (given_paths b) in
      let saved := fields (save_hook true now doc) in
      Some (saved, fees ++ [saved])
  | _, _, _, _ => None
  end.

(** The existence check and what follows it, for one fee type: the fee
    of that type due in the month of the body's due date is updated, or
    a fee is created.  [None] when an error is thrown: the query cannot
    be built from an absent due date, or the new document is invalid. *)
Definition upsert (now : Z) (b : Body) (feeType : FeeType)
    (fees : FeeStore) : option (option Fee * FeeStore) :=
  match b_student b, b_dueDate b with
  | Some sid, Some dueDate =>
      match Fee_findOne
              (month_fee_query sid feeType (startOfMonth dueDate)
                               (endOfMonth dueDate)) fees with
      | Some existingFee =>
          Some (Fee_updateById (_id existingFee) b feeType fees)
      | None =>
          match Fee_create_body now b feeType fees with
          | Some (fee, fees') => Some (Some fee, fees')
          | None => None
          end
      end
  | _, _ => None
  end.

(** [`${req.body.student}`] *)
Definition show_student (v : option nat) : string :=
  match v with
  | Some id => pretty id
  | None => "undefined"
  end.

(** The body after [req.body.recordedBy = req.user.id] and after the
    arrears are filled in when the request gives none (a given 0 is
    kept). *)
Definition completed_body (now : Z) (user : ReqUser) (b : Body)
    (fees : FeeStore) : Body :=
  mkBody (b_student b) (b_feeType b) (b_amount b) (b_dueDate b)
         (b_paymentDate b) (b_status b) (b_paidAmount b)
         (b_remainingAmount b)
         (match b_arrears b with
          | Some v => Some v
          | None => Some (calculateStudentArrears now fees (b_student b))
          end)
         (Some (ru_id user)).

(** A fee that the response lists: [null] cannot occur, the update is
    by the identifier of a document just found. *)
Definition listed (fee : option Fee) : list Fee :=
  match fee with
  | Some f => [f]
  | None => []
  end.

Definition createFeeRecord (now : Z) (user : ReqUser) (b : Body)
    (c : Collections) : Collections * Reply :=
  match
    match b_student b with
    | Some sid => Student_findById sid (student_docs c)
    | None => None
    end
  with
  | None =>
      (c, mkReply 404
            (Failed ("No student found with id "
                     +:+ show_student (b_student b))))
  | Some _ =>
      let b := completed_body now user b (fee_docs c) in
      match b_feeType b with
      | Some ft_all =>
          match upsert now b tuition (fee_docs c) with
          | None => (c, mkReply 400 Thrown)
          | Some (fee1, fees1) =>
              match upsert now b exam fees1 with
              | None =>
                  (mkCollections fees1 (student_docs c), mkReply 400 Thrown)
              | Some (fee2, fees2) =>
                  let createdFees := listed fee1 ++ listed fee2 in
                  (mkCollections fees2 (student_docs c),
                   mkReply 201
                     (ManyFees ("Created/Updated "
                                +:+ pretty (length createdFees)
                                +:+ " fee records") createdFees))
              end
          end
      | Some (ft_one feeType) =>
          match upsert now b feeType (fee_docs c) with
          | Some (Some fee, fees') =>
              (mkCollections fees' (student_docs c),
               mkReply 201 (OneFee fee))
          | Some (None, fees') =>
              (mkCollections fees' (student_docs c), mkReply 201 NoData)
          | None => (c, mkReply 400 Thrown)
          end
      | _ => (c, mkReply 400 Thrown)
      end
  end.

End FeeRoutes.

(** ** The save hook in one expression *)

Module HookSummary.
Import FeeModel.

(** The fee [f] with its four payment fields replaced. *)
Definition put_payment (f : Fee) (paymentDate : option Z)
    (status : FeeStatus) (paidAmount remainingAmount : Z) : Fee :=
  mkFee (_id f) (student f) (feeType f) (amount f) (dueDate f) paymentDate
        status paidAmount remainingAmount (arrears f) (recordedBy f).

(** The status the second block of the hook derives. *)
Definition status_of_payment (paidAmount amount : Z) : FeeStatus :=
  if paidAmount =? 0 then unpaid
  else if paidAmount <? amount then partial
  else paid.

(** The fields a save leaves, from the fields before it and the three
    facts the hook reads about the document: whether it is new, whether
    [status] is modified and whether [paidAmount] is
    ([save_hook_fields]). *)
Definition hook_fields (isNew statusModified paidAmountModified : bool)
    (now : Z) (f : Fee) : Fee :=
  let explicit := statusModified && bool_decide (status f = paid) in
  let paid1 := if explicit then amount f else paidAmount f in
  let rem1 := if explicit then 0 else remainingAmount f in
  let date1 :=
    if explicit then Some (default now (paymentDate f)) else paymentDate f in
  let derive :=
    paidAmountModified
    || (explicit && (isNew || negb (bool_decide (paidAmount f = amount f)))) in
  let status2 :=
    if derive then status_of_payment paid1 (amount f) else status f in
  let rem2 := if derive then amount f - paid1 else rem1 in
  let date2 :=
    if derive && bool_decide (status2 = paid)
    then Some (default now date1) else date1 in
  let status3 :=
    if negb (bool_decide (status2 = paid)) && (dueDate f <? now)
       && negb (bool_decide (status2 = overdue))
    then overdue else status2 in
  put_payment f date2 status3 paid1 rem2.

(** The fee type an update leaves: the body's, when it is one of the
    enumeration. *)
Definition type_after (b : FeeRoutes.Body) (f : Fee) : FeeType :=
  match FeeRoutes.b_feeType b with
  | Some (FeeRoutes.ft_one t) => t
  | _ => feeType f
  end.

End HookSummary.

(** ** Requests and collections used as concrete inputs *)

Module RouteExamples.
Import FeeModel Calendar FeeController FeeRoutes ArrearsSpec.

(** Student 1 is active, student 2 is marked inactive, and no student 3
    exists; the fees are those of [sample_fees] and one of student 3. *)
Definition school : Collections :=
  mkCollections
    (sample_fees
     ++ [mkFee 6 3 tuition 400 (Date_ymd 2026 9 31) None unpaid 0 400 0 9])
    [mkStudentDoc 1 11 true; mkStudentDoc 2 12 false].

Definition an_admin : ReqUser := mkReqUser 9 "admin".
Definition a_principal : ReqUser := mkReqUser 8 "principal".
Definition a_teacher : ReqUser := mkReqUser 5 "teacher".
(** The account of student 1, and that of student 2. *)
Definition student_one : ReqUser := mkReqUser 11 "student".
Definition student_two : ReqUser := mkReqUser 12 "student".

(** The body [{}], and bodies with a single key. *)
Definition no_keys : Body :=
  mkBody None None None None None None None None None None.

Definition only_paidAmount (v : Z) : Body :=
  mkBody None None None None None None (Some v) None None None.

Definition only_amount (v : Z) : Body :=
  mkBody None None (Some v) None None None None None None None.

(** A body of the create route: student, fee type, amount and due
    date. *)
Definition new_fee (student : nat) (feeType : TypeArg) (amount dueDate : Z)
    : Body :=
  mkBody (Some student) (Some feeType) (Some amount) (Some dueDate) None
         None None None None None.

(** 15 January 2025, noon; 31 January 2025 at midnight and at 10:00. *)
Definition jan_15 : Z := 1736942400000.
Definition jan_31 : Z := 1738281600000.
Definition jan_31_10h : Z := 1738317600000.

End RouteExamples.

(** ** What an import row leaves in the store *)

Module ImportSummary.
Import Parse Store Upload EmailSpec.


End ImportSummary.

(** ** Student imports used as concrete inputs *)

Module StudentImports.
Import JsString Parse Store Upload ImportExamples.




(** The second row of the file. *)
Definition bad_gender_row : gmap string string :=
  list_to_map
    [("firstName", "O'Brien"); ("lastName", "Smith"); ("rollNumber", "R2");
     ("class", "5"); ("section", "A"); ("gender", "boy");
     ("monthlyFee", "500"); ("fatherName", "F"); ("motherName", "M");
     ("contactNumber", "123"); ("email", "")].

End StudentImports.

(** ** The words a regular expression matches *)

Module RegexSpec.
Import Regex.

(** [matches r s]: the whole of [s] is a word of [r]. *)
Inductive matches : re → string → Prop :=
| matches_eps : matches Eps ""
| matches_class p c : p c = true → matches (Class p) (String c "")
| matches_cat r1 r2 s1 s2 :
    matches r1 s1 → matches r2 s2 → matches (Cat r1 r2) (s1 +:+ s2)
| matches_alt_l r1 r2 s : matches r1 s → matches (Alt r1 r2) s
| matches_alt_r r1 r2 s : matches r2 s → matches (Alt r1 r2) s
| matches_star_nil r : matches (Star r) ""
| matches_star_cons r s1 s2 :
    matches r s1 → matches (Star r) s2 → matches (Star r) (s1 +:+ s2).

(** A character of [\w]. *)
Definition word_char (c : ascii) : bool :=
  JsString.between 97 122 c || JsString.between 65 90 c
  || JsString.between 48 57 c || bool_decide (c = "_"%char).

(** Every character of [s] satisfies [p]. *)
Fixpoint all_chars (p : ascii → bool) (s : string) : bool :=
  match s with
  | EmptyString => true
  | String c s' => p c && all_chars p s'
  end.

(** No character class of [r] accepts [c]. *)
Fixpoint avoids (c : ascii) (r : re) : bool :=
  match r with
  | Never | Eps => true
  | Class p => negb (p c)
  | Cat r s | Alt r s => avoids c r && avoids c s
  | Star r => avoids c r
  end.

End RegexSpec.
(** * Proofs *)

(** ** The save hook *)

Section FeeProofs.
Import FeeModel FeeSpec.

(** Each assignment writes its own field, keeps the others and keeps
    every path already marked. *)
Local Ltac setter :=
  intros;
  unfold set_paidAmount, set_remainingAmount, set_paymentDate, set_status,
    markModified, isModified in *;
  case_bool_decide; simpl in *; congruence.

Local Ltac keeps_marks :=
  let H := fresh in
  intros H%bool_decide_eq_true;
  unfold set_paidAmount, set_remainingAmount, set_paymentDate, set_status,
    markModified, isModified;
  match goal with
  | |- context [if bool_decide ?P then _ else _] => destruct (bool_decide P)
  end; simpl; apply bool_decide_eq_true; set_solver.

Lemma set_paidAmount_fields v d :
  let f := fields d in let f' := fields (set_paidAmount v d) in
  paidAmount f' = v ∧ amount f' = amount f ∧ dueDate f' = dueDate f
  ∧ status f' = status f ∧ remainingAmount f' = remainingAmount f
  ∧ paymentDate f' = paymentDate f.
Proof. repeat split; setter. Qed.

Lemma set_remainingAmount_fields v d :
  let f := fields d in let f' := fields (set_remainingAmount v d) in
  remainingAmount f' = v ∧ amount f' = amount f ∧ dueDate f' = dueDate f
  ∧ status f' = status f ∧ paidAmount f' = paidAmount f
  ∧ paymentDate f' = paymentDate f.
Proof. repeat split; setter. Qed.

Lemma set_paymentDate_fields v d :
  let f := fields d in let f' := fields (set_paymentDate v d) in
  paymentDate f' = v ∧ amount f' = amount f ∧ dueDate f' = dueDate f
  ∧ status f' = status f ∧ paidAmount f' = paidAmount f
  ∧ remainingAmount f' = remainingAmount f.
Proof. repeat split; setter. Qed.

Lemma set_status_fields v d :
  let f := fields d in let f' := fields (set_status v d) in
  status f' = v ∧ amount f' = amount f ∧ dueDate f' = dueDate f
  ∧ paymentDate f' = paymentDate f ∧ paidAmount f' = paidAmount f
  ∧ remainingAmount f' = remainingAmount f.
Proof. repeat split; setter. Qed.

Lemma set_paidAmount_modified p v d :
  isModified p d = true → isModified p (set_paidAmount v d) = true.
Proof. unfold isModified at 1. keeps_marks. Qed.

Lemma set_remainingAmount_modified p v d :
  isModified p d = true → isModified p (set_remainingAmount v d) = true.
Proof. unfold isModified at 1. keeps_marks. Qed.

Lemma set_paymentDate_modified p v d :
  isModified p d = true → isModified p (set_paymentDate v d) = true.
Proof. unfold isModified at 1. keeps_marks. Qed.

Lemma set_paidAmount_unmodified v d :
  paidAmount (fields d) = v → set_paidAmount v d = d.
Proof. setter. Qed.

(** The first block leaves amount, due date and status as they are. *)
Lemma explicit_paid_block_fields now d :
  let d1 := explicit_paid_block now d in
  amount (fields d1) = amount (fields d)
  ∧ dueDate (fields d1) = dueDate (fields d)
  ∧ status (fields d1) = status (fields d)
  ∧ (isModified p_paidAmount d = true → isModified p_paidAmount d1 = true)
  ∧ (isModified p_status d = true → status (fields d) = paid →
     paidAmount (fields d1) = amount (fields d)
     ∧ remainingAmount (fields d1) = 0
     ∧ paymentDate (fields d1) = Some (default now (paymentDate (fields d))))
  ∧ (isModified p_status d && bool_decide (status (fields d) = paid) = false →
     d1 = d).
Proof.
  unfold explicit_paid_block.
  destruct (isModified p_status d && bool_decide (status (fields d) = paid))
    eqn:E; simpl.
  - apply andb_prop in E as [E1 E2%bool_decide_eq_true].
    set (da := set_paidAmount _ d).
    set (db := set_remainingAmount 0 da).
    destruct (set_paidAmount_fields (amount (fields d)) d)
      as (A1 & A2 & A3 & A4 & A5 & A6).
    destruct (set_remainingAmount_fields 0 da) as (B1 & B2 & B3 & B4 & B5 & B6).
    destruct (set_paymentDate_fields (paymentDate_or_now now db) db)
      as (C1 & C2 & C3 & C4 & C5 & C6).
    fold da in A1, A2, A3, A4, A5, A6. fold db in B1, B2, B3, B4, B5, B6.
    unfold paymentDate_or_now in *.
    repeat split; try congruence.
    + intros Hm. apply set_paymentDate_modified, set_remainingAmount_modified,
                   set_paidAmount_modified, Hm.
  - repeat split; try done; exfalso;
      match goal with
      | H1 : isModified _ _ = true |- _ =>
          rewrite H1 in E; simpl in E; apply bool_decide_eq_false in E; done
      end.
Qed.

(** The second block, when it runs. *)
Lemma paid_amount_block_fields now d :
  isModified p_paidAmount d = true →
  let d2 := paid_amount_block now d in
  amount (fields d2) = amount (fields d)
  ∧ dueDate (fields d2) = dueDate (fields d)
  ∧ paidAmount (fields d2) = paidAmount (fields d)
  ∧ remainingAmount (fields d2) = amount (fields d) - paidAmount (fields d)
  ∧ status (fields d2) =
      (if paidAmount (fields d) =? 0 then unpaid
       else if paidAmount (fields d) <? amount (fields d) then partial
       else paid)
  ∧ paymentDate (fields d2) =
      (if ((paidAmount (fields d) =? 0)
           || (paidAmount (fields d) <? amount (fields d)))
       then paymentDate (fields d)
       else Some (default now (paymentDate (fields d)))).
Proof.
  intros Hm. unfold paid_amount_block. rewrite Hm.
  set (d1 := set_remainingAmount _ d).
  destruct (set_remainingAmount_fields
              (amount (fields d) - paidAmount (fields d)) d)
    as (B1 & B2 & B3 & B4 & B5 & B6).
  fold d1 in B1, B2, B3, B4, B5, B6. simpl.
  rewrite B5, B2.
  destruct (paidAmount (fields d) =? 0) eqn:E0; simpl.
  { destruct (set_status_fields unpaid d1) as (S1 & S2 & S3 & S4 & S5 & S6).
    repeat split; congruence. }
  destruct (paidAmount (fields d) <? amount (fields d)) eqn:E1; simpl.
  { destruct (set_status_fields partial d1) as (S1 & S2 & S3 & S4 & S5 & S6).
    repeat split; congruence. }
  assert (Hge : (paidAmount (fields d) >=? amount (fields d)) = true) by lia.
  rewrite Hge.
  set (d2 := set_status paid d1).
  destruct (set_status_fields paid d1) as (S1 & S2 & S3 & S4 & S5 & S6).
  fold d2 in S1, S2, S3, S4, S5, S6.
  destruct (set_paymentDate_fields (paymentDate_or_now now d2) d2)
    as (C1 & C2 & C3 & C4 & C5 & C6).
  unfold paymentDate_or_now in *.
  repeat split; congruence.
Qed.

(** The third block writes the status only. *)
Lemma overdue_block_fields now d :
  let d3 := overdue_block now d in
  amount (fields d3) = amount (fields d)
  ∧ paidAmount (fields d3) = paidAmount (fields d)
  ∧ remainingAmount (fields d3) = remainingAmount (fields d)
  ∧ paymentDate (fields d3) = paymentDate (fields d)
  ∧ status (fields d3) =
      after_overdue_check now (dueDate (fields d)) (status (fields d)).
Proof.
  unfold overdue_block, after_overdue_check.
  destruct (set_status_fields overdue d) as (S1 & S2 & S3 & S4 & S5 & S6).
  destruct (Z.ltb_spec (dueDate (fields d)) now);
    repeat case_bool_decide; simpl; repeat split;
    try congruence; try lia; try tauto.
Qed.

(** The three cases of the specification's example. *)
Example fee_paid_in_full :
  let f := fields (pre_save 100 (fee_doc 1000 50 unpaid 1000 1000 [p_paidAmount])) in
  status f = paid ∧ remainingAmount f = 0 ∧ paymentDate f = Some 100.
Proof. vm_compute. done. Qed.

Example fee_paid_in_part :
  let f := fields (pre_save 100 (fee_doc 1000 200 unpaid 400 1000 [p_paidAmount])) in
  status f = partial ∧ remainingAmount f = 600.
Proof. vm_compute. done. Qed.

Example fee_unpaid_past_due :
  let f := fields (pre_save 100 (fee_doc 1000 50 unpaid 0 1000 [p_paidAmount])) in
  status f = overdue.
Proof. vm_compute. done. Qed.

Lemma paid_amount_block_skipped now d :
  isModified p_paidAmount d = false → paid_amount_block now d = d.
Proof. intros H. unfold paid_amount_block. by rewrite H. Qed.

Lemma overdue_block_paid now d :
  status (fields d) = paid → overdue_block now d = d.
Proof.
  intros H. unfold overdue_block. rewrite H.
  by rewrite (bool_decide_eq_true_2 _ eq_refl).
Qed.

Lemma overdue_block_overdue now d :
  status (fields d) = overdue → overdue_block now d = d.
Proof.
  intros H. unfold overdue_block. rewrite H.
  rewrite (bool_decide_eq_true_2 (overdue = overdue) eq_refl).
  by rewrite andb_false_r.
Qed.

(** C7 (as amended).  The overdue check leaves a [paid] record alone; a
    status explicitly set to [paid] is the status stored whenever the
    amount is not 0; and a record that is [overdue] stays [overdue] on
    any save that does not modify [paidAmount]. *)
Theorem fee_paid_precedence now d :
  (status (fields d) = paid → overdue_block now d = d)
  ∧ (amount (fields d) ≠ 0 → explicit_paid_wins now d)
  ∧ overdue_kept now d.
Proof.
  split; [apply overdue_block_paid|]. split.
  - intros Ha Hs Hp. unfold pre_save.
    destruct (explicit_paid_block_fields now d) as (A1 & A2 & A3 & A4 & A5 & A6).
    set (d1 := explicit_paid_block now d) in *.
    destruct (A5 Hs Hp) as (P1 & P2 & P3).
    assert (status (fields (paid_amount_block now d1)) = paid) as Hd2.
    { destruct (isModified p_paidAmount d1) eqn:Em.
      - destruct (paid_amount_block_fields now d1 Em) as (_ & _ & _ & _ & B5 & _).
        rewrite B5, P1, A1.
        destruct (Z.eqb_spec (amount (fields d)) 0); [done|].
        by rewrite Z.ltb_irrefl.
      - rewrite paid_amount_block_skipped by done. congruence. }
    by rewrite overdue_block_paid.
  - intros Ho Hm. unfold pre_save, explicit_paid_block.
    rewrite Ho. rewrite (bool_decide_eq_false_2 (overdue = paid)) by done.
    rewrite andb_false_r, paid_amount_block_skipped by done.
    by rewrite overdue_block_overdue.
Qed.

Lemma fee_paid_precedence_witness :
  status (fields (pre_save 100
    (fee_doc 1000 50 paid 400 600 [p_status]))) = paid
  ∧ status (fields (pre_save 100
      (fee_doc 2000 500 overdue 0 1000 [p_amount; p_dueDate]))) = overdue.
Proof.
  split.
  - apply (proj1 (proj2 (fee_paid_precedence 100
             (fee_doc 1000 50 paid 400 600 [p_status]))));
      [discriminate | reflexivity | reflexivity].
  - apply (proj2 (proj2 (fee_paid_precedence 100
             (fee_doc 2000 500 overdue 0 1000 [p_amount; p_dueDate]))));
      reflexivity.
Defined.

(** C7 as stated fails: on a fee whose amount is (set to) 0, a status
    explicitly set to [paid] is re-derived as [unpaid] and, past the due
    date, stored as [overdue]. *)
Lemma explicit_paid_loses_on_zero_amount :
  status (fields (pre_save 100 (fee_doc 0 50 paid 400 600 [p_status; p_amount])))
  = overdue
  ∧ ¬ explicit_paid_wins 100 (fee_doc 0 50 paid 400 600 [p_status; p_amount]).
Proof.
  split; [reflexivity|].
  intros H. specialize (H eq_refl eq_refl). vm_compute in H. discriminate.
Qed.

End FeeProofs.

Section CalendarProofs.
Import Calendar.

(** The first day of a month comes before the first day of the next. *)
Lemma days_from_civil_next_month y m :
  1 <= m <= 11 → days_from_civil y m 1 < days_from_civil y (m + 1) 1.
Proof.
  intros Hm.
  assert (m = 1 ∨ m = 2 ∨ m = 3 ∨ m = 4 ∨ m = 5 ∨ m = 6 ∨ m = 7 ∨ m = 8
          ∨ m = 9 ∨ m = 10 ∨ m = 11) as Hcases by lia.
  unfold days_from_civil.
  destruct (Z.leb_spec m 2), (Z.ltb_spec 2 m), (Z.leb_spec (m + 1) 2),
    (Z.ltb_spec 2 (m + 1)); try lia;
    destruct Hcases
      as [-> | [-> | [-> | [-> | [-> | [-> | [-> | [-> | [-> | [-> | ->]]]]]]]]]];
    try lia; Z.div_mod_to_equations; lia.
Qed.

Lemma days_from_civil_next_year y :
  days_from_civil y 12 1 < days_from_civil (y + 1) 1 1.
Proof.
  unfold days_from_civil.
  destruct (Z.leb_spec 12 2), (Z.ltb_spec 2 12), (Z.leb_spec 1 2),
    (Z.ltb_spec 2 1); try lia.
  replace (y + 1 - 1) with y by lia.
  Z.div_mod_to_equations; lia.
Qed.

Lemma MakeDay_month_start_before_end year month :
  MakeDay year month 1 <= MakeDay year (month + 1) 0.
Proof.
  unfold MakeDay.
  destruct (Z.eq_dec (month mod 12) 11) as [E | E].
  - assert ((month + 1) mod 12 = 0) as -> by (Z.div_mod_to_equations; lia).
    assert ((month + 1) / 12 = month / 12 + 1) as -> by (Z.div_mod_to_equations; lia).
    rewrite E. pose proof (days_from_civil_next_year (year + month / 12)).
    replace (year + (month / 12 + 1)) with (year + month / 12 + 1) by lia.
    change (11 + 1) with 12. change (0 + 1) with 1. lia.
  - assert ((month + 1) mod 12 = month mod 12 + 1) as -> by (Z.div_mod_to_equations; lia).
    assert ((month + 1) / 12 = month / 12) as -> by (Z.div_mod_to_equations; lia).
    pose proof (days_from_civil_next_month (year + month / 12) (month mod 12 + 1)).
    assert (0 <= month mod 12 < 12) by (apply Z.mod_pos_bound; lia).
    lia.
Qed.

Lemma Date_ymd_month_start_before_end year month :
  Date_ymd year month 1 <= Date_ymd year (month + 1) 0.
Proof.
  unfold Date_ymd, msPerDay.
  pose proof (MakeDay_month_start_before_end
                (if (0 <=? year) && (year <=? 99) then 1900 + year else year)
                month).
  lia.
Qed.
End CalendarProofs.

(** ** Arrears *)

Section ArrearsProofs.
Import FeeModel Calendar FeeController ArrearsSpec.

Lemma filter_none {A} (P : A → Prop) `{∀ x, Decision (P x)} (l : list A) :
  (∀ x, ¬ P x) → filter P l = [].
Proof.
  intros HP. induction l as [|x l IH]; [reflexivity|].
  rewrite filter_cons_False by apply HP. exact IH.
Qed.

Lemma fold_left_add_arrears (l : list Fee) (acc : Z) :
  fold_left add_arrears l acc = acc + foldr Z.add 0 (owed <$> l).
Proof.
  revert acc. induction l as [|fee l IH]; intros acc; csimpl; [lia|].
  rewrite IH. unfold add_arrears, owed.
  destruct (status fee); case_bool_decide; try done; lia.
Qed.

Lemma previous_fees_query_iff sid start fee :
  previous_fees_query sid start fee
  ↔ Some (student fee) = Some sid ∧ dueDate fee < start
    ∧ (status fee = unpaid ∨ status fee = partial ∨ status fee = overdue).
Proof.
  unfold previous_fees_query.
  rewrite !elem_of_cons, elem_of_nil.
  split; intros (H1 & H2 & H3); (split; [congruence|]); (split; [done|]);
    tauto.
Qed.

(** C3.  Outside the cutover month [calculateStudentArrears] returns the
    sum, over the student's fee records due strictly before the first day
    of the current month with status unpaid, partial or overdue, of the
    remaining amount of the partial records and the full amount of the
    others; it returns 0 when no record qualifies; and in May 2025 it
    returns 0 whatever the records. *)
Theorem calculateStudentArrears_sum now fees studentId :
  (¬ cutover_month now →
   calculateStudentArrears now fees studentId
   = stated_arrears now fees studentId)
  ∧ (filter (qualifying now studentId) fees = [] →
     calculateStudentArrears now fees studentId = 0)
  ∧ (cutover_month now → calculateStudentArrears now fees studentId = 0).
Proof.
  assert (Hcut : cutover_month now →
                 calculateStudentArrears now fees studentId = 0).
  { intros [E4 Ey]. unfold calculateStudentArrears.
    destruct studentId; [|reflexivity].
    rewrite E4, Ey. reflexivity. }
  assert (Hmain : ¬ cutover_month now →
                  calculateStudentArrears now fees studentId
                  = stated_arrears now fees studentId).
  { intros Hc. unfold calculateStudentArrears, stated_arrears.
    destruct studentId as [sid|].
    - destruct ((getMonth now =? 4) && (getFullYear now =? 2025)) eqn:E.
      + exfalso. apply andb_prop in E as [E4%Z.eqb_eq Ey%Z.eqb_eq].
        apply Hc. split; assumption.
      + cbv zeta. rewrite fold_left_add_arrears, Z.add_0_l.
        rewrite (list_filter_iff _ (qualifying now (Some sid)));
          [reflexivity|].
        intros fee. unfold qualifying, first_day_of_month.
        apply previous_fees_query_iff.
    - rewrite (filter_none (qualifying now None)); [reflexivity|].
      intros fee [H _]. discriminate H. }
  split; [exact Hmain|]. split; [|exact Hcut].
  intros Hnil. destruct (decide (cutover_month now)) as [Hc|Hc].
  - apply Hcut, Hc.
  - rewrite Hmain by exact Hc. unfold stated_arrears. rewrite Hnil.
    reflexivity.
Qed.

Lemma calculateStudentArrears_sum_witness :
  calculateStudentArrears nov_2026 sample_fees (Some 1%nat) = 700
  ∧ calculateStudentArrears nov_2026 sample_fees (Some 3%nat) = 0
  ∧ calculateStudentArrears may_2025 sample_fees (Some 1%nat) = 0.
Proof.
  split; [|split].
  - rewrite (proj1 (calculateStudentArrears_sum nov_2026 sample_fees
                      (Some 1%nat))); [vm_compute; reflexivity|].
    intros [H _]. vm_compute in H. discriminate.
  - apply (proj1 (proj2 (calculateStudentArrears_sum nov_2026 sample_fees
                           (Some 3%nat)))). vm_compute. reflexivity.
  - apply (proj2 (proj2 (calculateStudentArrears_sum may_2025 sample_fees
                           (Some 1%nat)))). split; vm_compute; reflexivity.
Defined.
End ArrearsProofs.

(** ** The initial fee record *)

Section InitialFeeProofs.
Import FeeModel Calendar FeeController FeeSpec ArrearsSpec.

Lemma same_key_refl d : same_key d d.
Proof. by repeat split. Qed.

Lemma same_key_trans d1 d2 d3 :
  same_key d1 d2 → same_key d2 d3 → same_key d1 d3.
Proof.
  intros (A1 & A2 & A3 & A4) (B1 & B2 & B3 & B4).
  repeat split; congruence.
Qed.

Lemma key_set_paidAmount v d : same_key d (set_paidAmount v d).
Proof. unfold set_paidAmount. case_bool_decide; by repeat split. Qed.

Lemma key_set_remainingAmount v d : same_key d (set_remainingAmount v d).
Proof. unfold set_remainingAmount. case_bool_decide; by repeat split. Qed.

Lemma key_set_paymentDate v d : same_key d (set_paymentDate v d).
Proof. unfold set_paymentDate. case_bool_decide; by repeat split. Qed.

Lemma key_set_status v d : same_key d (set_status v d).
Proof. unfold set_status. case_bool_decide; by repeat split. Qed.

Lemma key_explicit_paid_block now d : same_key d (explicit_paid_block now d).
Proof.
  unfold explicit_paid_block. case_match; [|apply same_key_refl].
  eapply same_key_trans; [apply key_set_paidAmount|].
  eapply same_key_trans; [apply key_set_remainingAmount|].
  apply key_set_paymentDate.
Qed.

Lemma key_paid_amount_block now d : same_key d (paid_amount_block now d).
Proof.
  unfold paid_amount_block. case_match; [|apply same_key_refl].
  eapply same_key_trans; [apply key_set_remainingAmount|].
  repeat case_match; try apply key_set_status; try apply same_key_refl.
  eapply same_key_trans; [apply key_set_status|apply key_set_paymentDate].
Qed.

Lemma key_overdue_block now d : same_key d (overdue_block now d).
Proof.
  unfold overdue_block. case_match; [apply key_set_status|apply same_key_refl].
Qed.

Lemma key_pre_save now d : same_key d (pre_save now d).
Proof.
  unfold pre_save.
  eapply same_key_trans; [apply key_explicit_paid_block|].
  eapply same_key_trans; [apply key_paid_amount_block|].
  apply key_overdue_block.
Qed.

Lemma apply_feeData_id data f : _id (apply_feeData data f) = _id f.
Proof. reflexivity. Qed.

(** An update by identifier keeps the identifiers, in order. *)
Lemma Fee_findByIdAndUpdate_ids id data fees :
  _id <$> (Fee_findByIdAndUpdate id data fees).2 = _id <$> fees.
Proof.
  unfold Fee_findByIdAndUpdate. cbn [snd].
  rewrite <- list_fmap_compose. apply list_fmap_ext.
  intros i f _. cbn. by case_bool_decide.
Qed.

(** An update by the identifier of a stored record returns that record as
    updated, and the record is in the store afterwards. *)
Lemma Fee_findByIdAndUpdate_found data fees e :
  e ∈ fees →
  ∃ f, (Fee_findByIdAndUpdate (_id e) data fees).1 = Some f
       ∧ _id f = _id e
       ∧ f ∈ (Fee_findByIdAndUpdate (_id e) data fees).2.
Proof.
  intros He. unfold Fee_findByIdAndUpdate. cbn [fst snd].
  destruct (head (filter (λ f, _id f = _id e) fees)) as [h|] eqn:Eh.
  - apply head_Some_elem_of in Eh.
    apply list_elem_of_filter in Eh as [Hid Hh].
    exists (apply_feeData data h). split; [reflexivity|]. split; [exact Hid|].
    apply list_elem_of_fmap. exists h. split; [|exact Hh].
    by rewrite bool_decide_eq_true_2.
  - apply head_None in Eh.
    exfalso. eapply (filter_nil_not_elem_of _ _ e Eh); [reflexivity|exact He].
Qed.

(** After an update of the first record matching a query, with data that
    satisfy the query, the first match has the same identifier. *)
Lemma head_filter_update (Q : Fee → Prop) `{∀ f, Decision (Q f)} data fees e :
  (∀ f, Q (apply_feeData data f)) →
  head (filter Q fees) = Some e →
  ∃ g, head (filter Q (Fee_findByIdAndUpdate (_id e) data fees).2) = Some g
       ∧ _id g = _id e.
Proof.
  intros Hdata. unfold Fee_findByIdAndUpdate. cbn [snd].
  induction fees as [|x l IH]; intros Hhead; [discriminate|].
  rewrite fmap_cons. destruct (decide (Q x)) as [Hx|Hx].
  - rewrite (filter_cons_True Q) in Hhead by done. injection Hhead as ->.
    rewrite bool_decide_eq_true_2 by done. cbv iota.
    exists (apply_feeData data e). split; [|reflexivity].
    rewrite (filter_cons_True Q); [reflexivity|apply Hdata].
  - rewrite (filter_cons_False Q) in Hhead by done.
    case_bool_decide as Hid; cbv iota.
    + exists (apply_feeData data x). split; [|exact Hid].
      rewrite (filter_cons_True Q); [reflexivity|apply Hdata].
    + destruct (IH Hhead) as (g & Hg & Hgid). exists g. split; [|exact Hgid].
      rewrite (filter_cons_False Q); [exact Hg|exact Hx].
Qed.

Lemma head_filter_snoc (Q : Fee → Prop) `{∀ f, Decision (Q f)} l x :
  filter Q l = [] → Q x → head (filter Q (l ++ [x])) = Some x.
Proof.
  intros Hl Hx. rewrite (filter_app Q), Hl, app_nil_l.
  rewrite (filter_cons_True Q); [reflexivity|exact Hx].
Qed.

(** The data written for a month satisfy that month's query. *)
Lemma feeData_in_month now sid amount rid arrears f :
  month_fee_query sid tuition
    (Date_ymd (getFullYear now) (getMonth now) 1)
    (Date_ymd (getFullYear now) (getMonth now + 1) 0)
    (apply_feeData
       (mkFeeData sid tuition amount
          (Date_ymd (getFullYear now) (getMonth now + 1) 0) unpaid rid
          arrears) f).
Proof.
  unfold month_fee_query, apply_feeData. cbn [student feeType dueDate
    fd_student fd_feeType fd_dueDate].
  split; [reflexivity|]. split; [reflexivity|]. split; [|reflexivity].
  apply Date_ymd_month_start_before_end.
Qed.

(** After a call for a student the store holds a tuition record of the
    month for that student, and the first such record is the one the call
    returned. *)
Lemma createInitialFeeRecord_first_match now fees sid rid amt :
  let r := createInitialFeeRecord now fees (Some sid) (Some rid) amt in
  ∃ f g,
    r.1 = Some f
    ∧ head (filter (month_fee_query sid tuition
                      (Date_ymd (getFullYear now) (getMonth now) 1)
                      (Date_ymd (getFullYear now) (getMonth now + 1) 0))
                   r.2) = Some g
    ∧ _id g = _id f ∧ f ∈ r.2.
Proof.
  cbv zeta. unfold createInitialFeeRecord.
  set (S := Date_ymd (getFullYear now) (getMonth now) 1).
  set (E := Date_ymd (getFullYear now) (getMonth now + 1) 0).
  set (data := mkFeeData sid tuition _ E unpaid rid _).
  set (Q := month_fee_query sid tuition S E).
  assert (Hdata : ∀ f, Q (apply_feeData data f)).
  { intros f. apply feeData_in_month. }
  unfold Fee_findOne.
  destruct (head (filter Q fees)) as [e|] eqn:Ef.
  - destruct (head_filter_update Q data fees e Hdata Ef) as (g & Hg & Hgid).
    assert (He : e ∈ fees).
    { apply head_Some_elem_of in Ef.
      by apply (list_elem_of_filter Q) in Ef as [_ ?]. }
    destruct (Fee_findByIdAndUpdate_found data fees e He)
      as (f & Hf & Hfid & Hfin).
    exists f, g. split; [exact Hf|]. split; [exact Hg|].
    split; [congruence|]. exact Hfin.
  - unfold Fee_create. cbv beta iota zeta.
    set (doc := mkDoc _ _).
    exists (fields (pre_save now doc)), (fields (pre_save now doc)).
    cbn [fst snd].
    split; [reflexivity|].
    split; [|split; [reflexivity|apply elem_of_app; right; constructor]].
    apply head_None in Ef.
    apply head_filter_snoc; [exact Ef|].
    destruct (key_pre_save now doc) as (_ & Hst & Hft & Hdue).
    unfold Q, month_fee_query. rewrite Hst, Hft, Hdue.
    apply (Hdata (fields doc)).
Qed.

(** On the sample store the two calls leave one tuition record of
    November 2026 for student 2, carrying the second call's data. *)
Example createInitialFeeRecord_twice :
  let r1 := createInitialFeeRecord nov_2026 sample_fees (Some 2%nat)
              (Some 9%nat) (Some 300) in
  let r2 := createInitialFeeRecord (nov_2026 + 86400000) r1.2 (Some 2%nat)
              (Some 8%nat) (Some 350) in
  r1.2 = sample_fees
         ++ [mkFee 6 2 tuition 300 (Date_ymd 2026 11 0) None unpaid 0 300 300 9]
  ∧ r2.2 = sample_fees
           ++ [mkFee 6 2 tuition 350 (Date_ymd 2026 11 0) None unpaid 0 300 300 8].
Proof. vm_compute. split; reflexivity. Qed.
End InitialFeeProofs.

(** ** The CSV line parser *)

Section CsvProofs.
Import JsString Parse CsvSpec.

Lemma append_cons (x : ascii) (a b : string) :
  String x a +:+ b = String x (a +:+ b).
Proof. reflexivity. Qed.

Lemma append_nil_l (b : string) : "" +:+ b = b.
Proof. reflexivity. Qed.

Lemma append_assoc (a b c : string) : (a +:+ b) +:+ c = a +:+ (b +:+ c).
Proof.
  induction a as [|x a IH]; [reflexivity|].
  rewrite !append_cons. f_equal. exact IH.
Qed.

Lemma append_nil_r (a : string) : a +:+ "" = a.
Proof.
  induction a as [|x a IH]; [reflexivity|].
  rewrite append_cons. f_equal. exact IH.
Qed.

Lemma append_snoc (a : string) (x : ascii) (b : string) :
  (a +:+ String x "") +:+ b = a +:+ String x b.
Proof. rewrite append_assoc. reflexivity. Qed.

(** Characters that are neither quotes nor, outside quotes, commas are
    appended to the current value; when none is a backslash the character
    before the next one is not a backslash either. *)
Lemma split_line_go_chars s :
  ∀ prev rest row inQuotes cur,
    has_char "034" s = false → has_char "\" s = false →
    (inQuotes = false → has_char "," s = false) →
    prev ≠ Some "\"%char →
    ∃ prev', prev' ≠ Some "\"%char
      ∧ split_line_go prev (s +:+ rest) row inQuotes cur
        = split_line_go prev' rest row inQuotes (cur +:+ s).
Proof.
  induction s as [|x s IH]; intros prev rest row inQuotes cur Hq Hb Hc Hp.
  - exists prev. by rewrite append_nil_r.
  - cbn in Hq, Hb. apply orb_false_elim in Hq as [Hq1 Hq2].
    apply orb_false_elim in Hb as [Hb1 Hb2].
    apply bool_decide_eq_false in Hq1, Hb1.
    destruct (IH (Some x) rest row inQuotes (cur +:+ String x "") Hq2 Hb2)
      as (prev' & Hp' & Heq).
    { intros Hi. specialize (Hc Hi). cbn in Hc.
      by apply orb_false_elim in Hc as [_ ?]. }
    { congruence. }
    exists prev'. split; [exact Hp'|].
    rewrite append_snoc in Heq. rewrite <- Heq. rewrite append_cons. cbn [split_line_go].
    rewrite (bool_decide_eq_false_2 (x = "034"%char)) by done.
    cbn [andb].
    destruct inQuotes; cbn [negb andb].
    + by rewrite andb_false_r.
    + specialize (Hc eq_refl). cbn in Hc.
      apply orb_false_elim in Hc as [Hc1%bool_decide_eq_false _].
      by rewrite (bool_decide_eq_false_2 (x = ","%char)).
Qed.

(** One rendered value is read back as its content. *)
Lemma split_line_go_field f rest row prev :
  well_formed f → prev ≠ Some "\"%char →
  ∃ prev', prev' ≠ Some "\"%char
    ∧ split_line_go prev (render_field f +:+ rest) row false ""
      = split_line_go prev' rest row false (content f).
Proof.
  intros (Hq & Hb & Hc) Hp. unfold render_field.
  destruct (quoted f) eqn:Equoted.
  - rewrite append_cons. cbn [split_line_go].
    rewrite (bool_decide_eq_true_2 ("034"%char = "034"%char)) by done.
    rewrite (bool_decide_eq_true_2 (prev ≠ Some "\"%char)) by done.
    cbn [andb negb]. rewrite append_assoc, append_cons, append_nil_l.
    destruct (split_line_go_chars (content f) (Some "034"%char)
                (String "034" rest) row true "" Hq Hb)
      as (prev' & Hp' & Heq); [done|done|].
    rewrite Heq. cbn [split_line_go].
    rewrite (bool_decide_eq_true_2 ("034"%char = "034"%char)) by done.
    rewrite (bool_decide_eq_true_2 (prev' ≠ Some "\"%char)) by done.
    cbn [andb negb]. exists (Some "034"%char). split; [done|reflexivity].
  - destruct (split_line_go_chars (content f) prev rest row false "" Hq Hb)
      as (prev' & Hp' & Heq); [auto|done|].
    exists prev'. split; [exact Hp'|exact Heq].
Qed.

Lemma split_line_go_line fs :
  ∀ row prev, fs ≠ [] → Forall well_formed fs → prev ≠ Some "\"%char →
    split_line_go prev (render_line fs) row false ""
    = row ++ (content <$> fs).
Proof.
  induction fs as [|f fs IH]; intros row prev Hne Hwf Hp; [done|].
  apply Forall_cons in Hwf as [Hf Hfs].
  destruct fs as [|f' fs'].
  - cbn [render_line].
    destruct (split_line_go_field f "" row prev Hf Hp) as (prev' & _ & Heq).
    rewrite append_nil_r in Heq. rewrite Heq. reflexivity.
  - change (render_line (f :: f' :: fs'))
      with (render_field f +:+ String "," (render_line (f' :: fs'))).
    destruct (split_line_go_field f (String "," (render_line (f' :: fs')))
                row prev Hf Hp) as (prev' & _ & Heq).
    rewrite Heq. cbn [split_line_go].
    rewrite (bool_decide_eq_false_2 (","%char = "034"%char)) by done.
    rewrite (bool_decide_eq_true_2 (","%char = ","%char)) by done.
    cbn [andb negb].
    rewrite (IH (row ++ [content f]) (Some ","%char)); [|done|done|done].
    by rewrite <- app_assoc.
Qed.

Lemma clean_value_plain s : has_char "034" s = false → clean_value s = s.
Proof.
  intros Hq. unfold clean_value, startsWith.
  destruct s as [|x s]; [reflexivity|].
  cbn in Hq. apply orb_false_elim in Hq as [Hx%bool_decide_eq_false _].
  cbn [String.prefix]. destruct (ascii_dec "034" x) as [E|_]; [congruence|].
  reflexivity.
Qed.

(** C9.  A line made of values joined by commas, a value being written
    either as it is (then it holds no comma) or between double quotes
    (then it may hold commas), parses to exactly those values: the line
    is split on the commas outside the quoted regions and the commas
    inside them are kept. *)
Theorem parse_csv_line_fields fs :
  fs ≠ [] → Forall well_formed fs →
  parse_csv_line (render_line fs) = content <$> fs.
Proof.
  intros Hne Hwf. unfold parse_csv_line.
  rewrite (split_line_go_line fs [] None) by done.
  rewrite app_nil_l.
  induction Hwf as [|f fs' (Hq & _ & _) _ IH]; [done|].
  rewrite !fmap_cons. rewrite clean_value_plain by exact Hq.
  f_equal. destruct fs'; [reflexivity|]. by apply IH.
Qed.

(** The specification's example: [John,"Doe, Jr.",30]. *)
Lemma parse_csv_line_fields_witness :
  parse_csv_line ("John," +:+ String "034" ("Doe, Jr." +:+ String "034" ",30"))
  = ["John"; "Doe, Jr."; "30"].
Proof.
  apply (parse_csv_line_fields
           [mkField false "John"; mkField true "Doe, Jr."; mkField false "30"]).
  - discriminate.
  - repeat constructor; intros; discriminate.
Defined.

Example parse_csv_line_escaped_quote :
  parse_csv_line ("a\" +:+ String "034" "b,c")
  = ["a\" +:+ String "034" "b"; "c"].
Proof. reflexivity. Qed.
End CsvProofs.

(** ** Header keys *)

Section HeaderProofs.
Import JsString Parse CsvSpec ParseSpec.

Lemma take_while_before (c : ascii) (a b : string) :
  has_char c a = false →
  take_while (λ x, negb (bool_decide (x = c))) (a +:+ String c b) = a.
Proof.
  intros Ha. induction a as [|x a IH].
  - rewrite append_nil_l. cbn [take_while].
    by rewrite bool_decide_eq_true_2.
  - cbn in Ha. apply orb_false_elim in Ha as [Hx Ha].
    rewrite append_cons. cbn [take_while]. rewrite Hx. cbn [negb].
    f_equal. auto.
Qed.

Lemma take_while_all (c : ascii) (a : string) :
  has_char c a = false →
  take_while (λ x, negb (bool_decide (x = c))) a = a.
Proof.
  intros Ha. induction a as [|x a IH]; [reflexivity|].
  cbn in Ha. apply orb_false_elim in Ha as [Hx Ha].
  cbn [take_while]. rewrite Hx. cbn [negb]. f_equal. auto.
Qed.

Lemma header_key_before a b :
  has_char "(" a = false → a ≠ "" →
  header_key (a +:+ String "(" b) = trim a.
Proof.
  intros Ha Hne. unfold header_key, falsy.
  rewrite take_while_before by exact Ha.
  destruct a as [|x a]; [done|].
  rewrite append_cons.
  rewrite (bool_decide_eq_false_2 (String x (a +:+ String "(" b) = "")) by done.
  by rewrite (bool_decide_eq_false_2 (String x a = "")).
Qed.

Lemma header_key_no_parenthesis a :
  has_char "(" a = false → header_key a = trim a.
Proof.
  intros Ha. unfold header_key, falsy.
  rewrite take_while_all by exact Ha.
  destruct a as [|x a]; [reflexivity|].
  by rewrite (bool_decide_eq_false_2 (String x a = "")).
Qed.

Lemma header_key_leading_parenthesis b :
  header_key (String "(" b) = trim (String "(" b).
Proof. reflexivity. Qed.

Lemma parse_rawData_empty_header headerRow rows h :
  h ∈ headerRow → header_key h = "" →
  ∃ message, parse_rawData (headerRow :: rows) = inl message.
Proof.
  intros Hin Hh. unfold parse_rawData.
  destruct rows as [|row rows]; [eauto|].
  rewrite bool_decide_eq_true_2; [eauto|].
  apply Exists_exists. exists (header_key h). split; [|exact Hh].
  apply list_elem_of_fmap. eauto.
Qed.

(** C8 (as amended).  For a header text [a(b] with no parenthesis in [a]
    the key is [a] trimmed, provided [a] is not empty; a text without
    parenthesis is its own key, trimmed; a text that starts with a
    parenthesis is kept whole, trimmed; and when the key of any header
    cell is empty, parsing fails with an error and yields no row. *)
Theorem header_key_extraction a b :
  has_char "(" a = false →
  (a ≠ "" → header_key (a +:+ String "(" b) = trim a)
  ∧ header_key a = trim a
  ∧ header_key (String "(" b) = trim (String "(" b)
  ∧ (∀ headerRow rows h, h ∈ headerRow → header_key h = "" →
       ∃ message, parse_rawData (headerRow :: rows) = inl message)
  ∧ (∀ fileContent headerRow rows h,
       csv_rawData fileContent = headerRow :: rows →
       h ∈ headerRow → header_key h = "" →
       ∃ message, parseFile fileContent = inl message).
Proof.
  intros Ha. split; [by apply header_key_before|].
  split; [by apply header_key_no_parenthesis|].
  split; [apply header_key_leading_parenthesis|].
  split; [apply parse_rawData_empty_header|].
  intros fileContent headerRow rows h Hraw Hin Hh. unfold parseFile.
  rewrite Hraw.
  destruct (parse_rawData_empty_header headerRow rows h Hin Hh) as [m ->].
  eauto.
Qed.

Lemma header_key_extraction_witness :
  header_key "rollNumber (REQUIRED, unique)" = "rollNumber"
  ∧ (∃ message,
       parse_rawData [["firstName"; "   (Optional)"]; ["John"; "x"]]
       = inl message).
Proof.
  split.
  - apply (proj1 (header_key_extraction "rollNumber " "REQUIRED, unique)"
                    eq_refl)).
    discriminate.
  - apply (proj1 (proj2 (proj2 (proj2
             (header_key_extraction "" "" eq_refl))))
             ["firstName"; "   (Optional)"] [["John"; "x"]] "   (Optional)").
    + apply list_elem_of_In. right. left. reflexivity.
    + reflexivity.
Defined.

(** C8 as stated fails: a header that starts with a parenthesis has
    nothing before it, yet its key is the whole text, and parsing goes
    on. *)
Lemma header_key_leading_parenthesis_kept :
  header_key "(Optional) email" = "(Optional) email"
  ∧ ¬ key_is_text_before_parenthesis "(Optional) email"
  ∧ ∃ data,
      parse_rawData [["firstName"; "(Optional) email"]; ["John"; "j@x.org"]]
      = inr data.
Proof.
  split; [reflexivity|]. split.
  - intros H. specialize (H "" "Optional) email" eq_refl eq_refl).
    vm_compute in H. discriminate.
  - eexists. vm_compute. reflexivity.
Qed.
End HeaderProofs.

(** ** The import loop *)

Section LoopProofs.
Import Parse Store Upload ImportSpec.

Context (body : Row → M unit).

Local Open Scope nat_scope.

(** With the fuel of [loop_fuel] the loop over an array runs to its end. *)
Lemma import_loop_rows data :
  ∀ i s, i ≤ length data →
    import_loop (S (length data - i)) body (Rows data) i s
    = Some (run_rows body i (drop i data) s).
Proof.
  intros i s Hi. remember (length data - i)%nat as n eqn:Hn.
  revert i s Hi Hn. induction n as [|n IH]; intros i s Hi Hn.
  - assert (i = length data) as -> by lia.
    rewrite drop_all. cbn [import_loop js_length js_lt run_rows].
    by rewrite Z.ltb_irrefl.
  - assert (Hlt : i < length data) by lia.
    destruct (lookup_lt_is_Some_2 data i Hlt) as [row Hrow].
    rewrite (drop_S data row i Hrow).
    cbn [import_loop js_length js_lt js_index run_rows].
    assert (Hz : (Z.of_nat i <? Z.of_nat (length data))%Z = true) by lia.
    rewrite Hz.
    rewrite Hrow. apply IH; lia.
Qed.

Lemma import_step_counts i row s :
  let s' := import_step body i row s in
  (successCount s'.2 + errorCount s'.2
   = S (successCount s.2 + errorCount s.2))%nat.
Proof.
  destruct s as [db c]. unfold import_step. cbn [fst snd].
  destruct (body row db) as [db' [m|[]]]; cbn; lia.
Qed.

Lemma import_step_db i row s :
  (import_step body i row s).1 = (body row s.1).1.
Proof.
  destruct s as [db c]. unfold import_step. cbn [fst snd].
  by destruct (body row db) as [db' [m|[]]].
Qed.

Lemma import_step_errors i row s e :
  e ∈ errors (import_step body i row s).2
  ↔ e ∈ errors s.2
    ∨ ∃ m, (body row s.1).2 = inl m ∧ e = mkError (i + 2) m.
Proof.
  destruct s as [db c]. unfold import_step. cbn [fst snd].
  destruct (body row db) as [db' [m|[]]]; cbn [errors fst snd].
  - rewrite elem_of_app, list_elem_of_singleton. split.
    + intros [?| ->]; [by left|right; eauto].
    + intros [?|(m' & [= ->] & ->)]; [by left|by right].
  - split; [by left|]. intros [?|(m' & ? & _)]; done.
Qed.

(** Each row counts once, as a success or as an error. *)
Lemma run_rows_counts rows :
  ∀ i s,
    (successCount (run_rows body i rows s).2
     + errorCount (run_rows body i rows s).2
     = successCount s.2 + errorCount s.2 + length rows)%nat.
Proof.
  induction rows as [|row rest IH]; intros i s; cbn [run_rows length].
  - lia.
  - rewrite IH. pose proof (import_step_counts i row s) as H.
    cbv zeta in H. lia.
Qed.

Lemma run_rows_db rows :
  ∀ i s, (run_rows body i rows s).1
         = foldl (λ db row, (body row db).1) s.1 rows.
Proof.
  induction rows as [|row rest IH]; intros i s; cbn [run_rows foldl].
  - reflexivity.
  - by rewrite IH, import_step_db.
Qed.

(** The errors recorded: those already there, and one entry [k + 2] for
    each row [k] that fails. *)
Lemma run_rows_errors rows :
  ∀ i s e,
    e ∈ errors (run_rows body i rows s).2
    ↔ e ∈ errors s.2
      ∨ ∃ k m, fails_at body rows s.1 k m ∧ e = mkError (i + k + 2) m.
Proof.
  induction rows as [|row rest IH]; intros i s e; cbn [run_rows].
  - split; [by left|]. intros [?|(k & m & (r & Hr & _) & _)]; [done|].
    by rewrite lookup_nil in Hr.
  - rewrite IH, import_step_errors, import_step_db. split.
    + intros [[?|(m & Hm & ->)]|(k & m & (r & Hr & Hb) & ->)].
      * by left.
      * right. exists 0%nat, m. split; [|f_equal; lia].
        exists row. split; [reflexivity|exact Hm].
      * right. exists (S k), m. split; [|f_equal; lia].
        exists r. split; [exact Hr|exact Hb].
    + intros [?|(k & m & (r & Hr & Hb) & ->)]; [by left; left|].
      destruct k as [|k].
      * left. right. exists m. injection Hr as ->.
        split; [exact Hb|f_equal; lia].
      * right. exists k, m. split; [|f_equal; lia].
        exists r. split; [exact Hr|exact Hb].
Qed.
End LoopProofs.

(** ** The importers *)

Section UploadProofs.
Import JsString Parse Store Upload ImportSpec ImportExamples.

Local Open Scope nat_scope.

Lemma import_status_consistent c :
  result_consistent
    (JsNumber (Z.of_nat (successCount c + errorCount c)))
    (successCount c) (errorCount c) (import_status c).
Proof.
  unfold result_consistent, import_status.
  split; [reflexivity|].
  destruct (errorCount c =? 0) eqn:E0; [apply Nat.eqb_eq in E0|apply Nat.eqb_neq in E0];
    [|destruct (0 <? successCount c) eqn:E1;
      [apply Nat.ltb_lt in E1|apply Nat.ltb_ge in E1]];
    repeat split; intros; destruct_and?; try done; try lia.
Qed.

(** An import whose rows were awaited: the loop runs over all of them,
    the history is stored and the counts are returned. *)
Lemma run_import_rows userType body file uploader data db :
  data ≠ [] →
  let s := run_rows body 0 data (db, mkCounters 0 0 []) in
  run_import userType body file uploader (Rows data) db
  = Some (add_history
            (mkHistory userType (file_filename file)
               (file_originalname file) uploader (import_status s.2)
               (JsNumber (Z.of_nat (length data))) (successCount s.2)
               (errorCount s.2) (errors s.2)) s.1,
          mkResponse 200
            (ImportResult (JsNumber (Z.of_nat (length data)))
               (successCount s.2) (errorCount s.2) (errors s.2))).
Proof.
  intros Hne. cbv zeta. unfold run_import.
  cbn [js_length js_is_zero loop_fuel].
  assert (Hz : (Z.of_nat (length data) =? 0)%Z = false).
  { apply Z.eqb_neq. destruct data; [done|]. cbn [length]. lia. }
  rewrite Hz.
  pose proof (import_loop_rows body data 0 (db, mkCounters 0 0 [])) as Hl.
  rewrite Nat.sub_0_r, drop_0 in Hl. rewrite Hl by lia.
  by destruct (run_rows body 0 data (db, mkCounters 0 0 [])) as [db' c].
Qed.

(** For rows that were awaited the counts add up to the number of rows
    and the stored status follows the rule. *)
Lemma run_import_rows_consistent userType body file uploader data db :
  data ≠ [] →
  ∃ db' h total sc ec errs,
    run_import userType body file uploader (Rows data) db
    = Some (add_history h db',
            mkResponse 200 (ImportResult total sc ec errs))
    ∧ total = JsNumber (Z.of_nat (length data))
    ∧ h_totalRecords h = total ∧ h_successCount h = sc
    ∧ h_errorCount h = ec
    ∧ result_consistent total sc ec (h_status h).
Proof.
  intros Hne. rewrite run_import_rows by exact Hne. cbv zeta.
  set (s := run_rows body 0 data (db, mkCounters 0 0 [])).
  eexists _, _, _, _, _, _. split; [reflexivity|].
  split; [reflexivity|]. split; [reflexivity|]. split; [reflexivity|].
  split; [reflexivity|]. cbn [h_status].
  pose proof (run_rows_counts body data 0 (db, mkCounters 0 0 [])) as Hc.
  fold s in Hc. cbn [fst snd successCount errorCount] in Hc.
  replace (length data) with (successCount s.2 + errorCount s.2) by lia.
  apply import_status_consistent.
Qed.

(** An import whose rows were not awaited: no row is processed. *)
Lemma run_import_promise userType body file uploader outcome db :
  run_import userType body file uploader (PromiseOf outcome) db
  = Some (add_history
            (mkHistory userType (file_filename file)
               (file_originalname file) uploader st_success JsUndefined
               0 0 []) db,
          mkResponse 200 (ImportResult JsUndefined 0 0 [])).
Proof. reflexivity. Qed.

(** The student and teacher imports keep the invariant of C2. *)
Lemma uploadStudents_consistent host file uploader db data :
  parseFile_at file = Some (inr data) → data ≠ [] →
  ∃ db' h total sc ec errs,
    uploadStudents host (mkRequest (Some file) uploader) db
    = Some (add_history h db',
            mkResponse 200 (ImportResult total sc ec errs))
    ∧ total = JsNumber (Z.of_nat (length data))
    ∧ h_totalRecords h = total ∧ h_successCount h = sc
    ∧ h_errorCount h = ec
    ∧ result_consistent total sc ec (h_status h).
Proof.
  intros Hp Hne. unfold uploadStudents. cbn [req_file req_user].
  rewrite Hp. by apply run_import_rows_consistent.
Qed.

Lemma uploadTeachers_consistent host file uploader db data :
  parseFile_at file = Some (inr data) → data ≠ [] →
  ∃ db' h total sc ec errs,
    uploadTeachers host (mkRequest (Some file) uploader) db
    = Some (add_history h db',
            mkResponse 200 (ImportResult total sc ec errs))
    ∧ total = JsNumber (Z.of_nat (length data))
    ∧ h_totalRecords h = total ∧ h_successCount h = sc
    ∧ h_errorCount h = ec
    ∧ result_consistent total sc ec (h_status h).
Proof.
  intros Hp Hne. unfold uploadTeachers. cbn [req_file req_user].
  rewrite Hp. by apply run_import_rows_consistent.
Qed.

(** C2, where the code departs from it.  [uploadAdminStaff] and
    [uploadSupportStaff] do not await [parseFile]: whatever the file, the
    result has [totalRecords] undefined with both counts 0, so the
    counts do not add up to the number of records, and the history is
    stored as a success. *)
Theorem staff_import_counts_undefined host file uploader db :
  uploadAdminStaff host (mkRequest (Some file) uploader) db
  = Some (add_history
            (mkHistory "admin-staff" (file_filename file)
               (file_originalname file) uploader st_success JsUndefined
               0 0 []) db,
          mkResponse 200 (ImportResult JsUndefined 0 0 []))
  ∧ uploadSupportStaff host (mkRequest (Some file) uploader) db
    = Some (add_history
              (mkHistory "support-staff" (file_filename file)
                 (file_originalname file) uploader st_success JsUndefined
                 0 0 []) db,
            mkResponse 200 (ImportResult JsUndefined 0 0 []))
  ∧ ¬ result_consistent JsUndefined 0 0 st_success.
Proof.
  split; [reflexivity|]. split; [reflexivity|].
  intros [H _]. discriminate H.
Qed.
End UploadProofs.

(** ** Row filtering *)

Section FilterProofs.
Import JsString Parse CsvSpec ParseSpec.

Local Open Scope nat_scope.

Lemma filter_nil_Forall {A} (P : A → Prop) `{∀ x, Decision (P x)}
    (l : list A) :
  filter P l = [] ↔ Forall (λ x, ¬ P x) l.
Proof.
  induction l as [|x l IH].
  - split; [constructor|reflexivity].
  - destruct (decide (P x)) as [Hx|Hx].
    + rewrite (filter_cons_True P) by done. split; [done|].
      intros [? _]%Forall_cons. done.
    + rewrite (filter_cons_False P) by done. rewrite IH, Forall_cons.
      tauto.
Qed.

Lemma row_cells_cons header value headers row :
  row_cells (header :: headers) (value :: row)
  = if decide (header ≠ "") then (header, value) :: row_cells headers row
    else row_cells headers row.
Proof.
  unfold row_cells. cbn [zip zip_with].
  rewrite (filter_cons (λ hv : string * string, hv.1 ≠ "")).
  reflexivity.
Qed.

Lemma build_row_cells headers :
  ∀ row obj isEmpty,
    build_row headers row obj isEmpty
    = (foldl (λ m hv, <[hv.1 := hv.2]> m) obj (row_cells headers row),
       isEmpty && forallb (λ hv, negb (is_data_value hv.2))
                          (row_cells headers row)).
Proof.
  induction headers as [|header headers IH]; intros row obj isEmpty.
  - cbn. by rewrite andb_true_r.
  - destruct row as [|value row].
    + cbn. by rewrite andb_true_r.
    + cbn [build_row]. rewrite row_cells_cons. unfold falsy.
      destruct (decide (header ≠ "")) as [Hh|Hh].
      * rewrite bool_decide_eq_false_2 by done. rewrite IH.
        cbn [foldl forallb fst snd]. f_equal.
        destruct (is_data_value value), isEmpty; reflexivity.
      * rewrite bool_decide_eq_true_2 by (by apply dec_stable).
        apply IH.
Qed.

Lemma foldl_insert_list_to_map (l : list (string * string)) :
  ∀ m : gmap string string,
    foldl (λ m hv, <[hv.1 := hv.2]> m) m l = list_to_map (reverse l) ∪ m.
Proof.
  induction l as [|[k v] l IH]; intros m.
  - cbn. by rewrite (left_id_L ∅ (∪)).
  - cbn [foldl fst snd]. rewrite IH, reverse_cons, list_to_map_app.
    cbn [list_to_map foldr fst snd].
    rewrite <- (assoc_L (∪)). f_equal.
    rewrite insert_empty. by rewrite <- insert_union_singleton_l.
Qed.

Lemma build_row_obj headers row :
  build_row headers row ∅ true
  = (row_obj headers row,
     forallb (λ hv, negb (is_data_value hv.2)) (row_cells headers row)).
Proof.
  rewrite build_row_cells, foldl_insert_list_to_map.
  unfold row_obj. by rewrite (right_id_L ∅ (∪)).
Qed.

Lemma requiredFieldCount_zero (obj : gmap string string) :
  requiredFieldCount obj = 0
  ↔ Forall (λ key, cell obj key = "") key_fields.
Proof.
  unfold requiredFieldCount.
  rewrite length_zero_iff_nil.
  rewrite (filter_nil_Forall (λ key, cell obj key ≠ "" ∧ key ∈ key_fields)).
  rewrite !Forall_forall. split.
  - intros H key Hkey. destruct (decide (cell obj key = "")) as [|Hc]; [done|].
    exfalso. apply (H key); [|done].
    unfold cell in Hc. destruct (obj !! key) as [v|] eqn:Ev; [|done].
    apply list_elem_of_fmap. exists (key, v). split; [done|].
    by apply elem_of_map_to_list.
  - intros H key _ [Hc Hkey]. by apply Hc, H.
Qed.

Lemma prefix_iff p s : String.prefix p s = true ↔ ∃ b, s = p +:+ b.
Proof.
  revert s. induction p as [|c p IH]; intros s.
  - split; [intros _; exists s; by rewrite append_nil_l|by destruct s].
  - destruct s as [|c' s]; cbn [String.prefix].
    + split; [done|]. intros [b Hb]. by rewrite append_cons in Hb.
    + destruct (ascii_dec c c') as [->|Hc].
      * rewrite IH. split; intros [b Hb]; exists b.
        -- by rewrite append_cons, Hb.
        -- rewrite append_cons in Hb. by injection Hb.
      * split; [done|]. intros [b Hb]. rewrite append_cons in Hb.
        injection Hb as Hcc _. by destruct Hc.
Qed.

(** [includes] finds the needle exactly when the text is some text, the
    needle, and some text. *)
Lemma includes_iff hay needle :
  includes hay needle = true ↔ ∃ a b, hay = a +:+ needle +:+ b.
Proof.
  induction hay as [|c hay IH]; cbn [includes];
    rewrite orb_true_iff, prefix_iff.
  - split.
    + intros [[b Hb]|?]; [|done]. exists "", b. by rewrite append_nil_l.
    + intros (a & b & Hab). left. destruct a as [|x a].
      * exists b. by rewrite append_nil_l in Hab.
      * by rewrite append_cons in Hab.
  - rewrite IH. split.
    + intros [[b Hb]|(a & b & Hab)].
      * exists "", b. by rewrite append_nil_l.
      * exists (String c a), b. by rewrite append_cons, Hab.
    + intros (a & b & Hab). destruct a as [|x a].
      * left. exists b. by rewrite append_nil_l in Hab.
      * right. rewrite append_cons in Hab. injection Hab as _ Hab.
        by exists a, b.
Qed.

Lemma holds_word_iff word value :
  holds_word word value ↔ includes (toUpperCase value) word = true.
Proof. unfold holds_word. by rewrite includes_iff. Qed.

(** The test of the loop over the headers holds of the values that are
    not empty and hold none of the three words. *)
Lemma is_data_value_iff value :
  is_data_value value = true ↔ real_value value.
Proof.
  unfold is_data_value, real_value.
  rewrite !andb_true_iff, !negb_true_iff, bool_decide_eq_false.
  rewrite !holds_word_iff, !not_true_iff_false. tauto.
Qed.

Lemma is_data_value_false value :
  is_data_value value = false ↔ ¬ real_value value.
Proof. rewrite <- is_data_value_iff. by destruct (is_data_value value). Qed.

(** The rows that [parseFile] does not emit are the dropped ones. *)
Lemma row_object_dropped headers row :
  row_object headers row = None ↔ dropped headers row.
Proof.
  unfold row_object, dropped. rewrite build_row_obj.
  rewrite <- requiredFieldCount_zero.
  set (cells := row_cells headers row).
  assert (Hall : forallb (λ hv, negb (is_data_value hv.2)) cells = true
                 ↔ Forall (λ hv, ¬ real_value hv.2) cells).
  { rewrite forallb_forall, Forall_forall. split; intros H hv Hhv.
    - apply list_elem_of_In in Hhv. apply H in Hhv.
      by apply is_data_value_false, negb_true_iff.
    - apply list_elem_of_In in Hhv. apply H in Hhv.
      apply is_data_value_false in Hhv. by rewrite Hhv. }
  rewrite <- Hall.
  destruct (forallb _ cells); cbn [negb andb].
  - split; [by left|done].
  - destruct (requiredFieldCount (row_obj headers row)) as [|n] eqn:En.
    + split; [by right|done].
    + cbn. split; [done|]. intros [?|?]; done.
Qed.

Lemma row_object_obj headers row obj :
  row_object headers row = Some obj → obj = row_obj headers row.
Proof.
  unfold row_object. rewrite build_row_obj.
  case_match; [|done]. congruence.
Qed.

Lemma length_omap_le {A B} (f : A → option B) (l : list A) :
  length (omap f l) ≤ length l.
Proof.
  induction l as [|x l IH]; [reflexivity|].
  cbn. destruct (f x); cbn; lia.
Qed.

Lemma length_omap_lt {A B} (f : A → option B) (l : list A) k x :
  l !! k = Some x → f x = None → length (omap f l) < length l.
Proof.
  revert k. induction l as [|y l IH]; intros k Hk Hx; [done|].
  destruct k as [|k].
  - injection Hk as ->. cbn. rewrite Hx.
    pose proof (length_omap_le f l). lia.
  - cbn in Hk. specialize (IH k Hk Hx). cbn. destruct (f y); cbn; lia.
Qed.

(** Where an emitted row lands: raw data row [j] is row
    [length (data_rows headers (take j rows))] of the parsed rows, an
    index that is smaller than [j] as soon as an earlier row was
    dropped. *)
Lemma data_rows_index headers rows j raw obj :
  rows !! j = Some raw → row_object headers raw = Some obj →
  let i := length (data_rows headers (take j rows)) in
  data_rows headers rows !! i = Some obj
  ∧ i ≤ j
  ∧ ((∃ k raw', k < j ∧ rows !! k = Some raw' ∧ dropped headers raw') →
     i < j).
Proof.
  intros Hj Hobj. cbv zeta. unfold data_rows.
  assert (Hlen : length (take j rows) = j).
  { apply length_take_le. apply lookup_lt_Some in Hj. lia. }
  split; [|split].
  - rewrite <- (take_drop_middle rows j raw Hj) at 2.
    rewrite omap_app. cbn [omap list_omap]. rewrite Hobj.
    by rewrite list_lookup_middle.
  - pose proof (length_omap_le (row_object headers) (take j rows)). lia.
  - intros (k & raw' & Hk & Hraw' & Hd).
    apply row_object_dropped in Hd.
    assert (Ht : take j rows !! k = Some raw') by (by rewrite lookup_take_lt).
    pose proof (length_omap_lt (row_object headers) (take j rows) k raw'
                  Ht Hd).
    lia.
Qed.
End FilterProofs.

(** ** Reported row numbers *)

Section RowNumberProofs.
Import JsString Parse ParseSpec Store Upload ImportSpec ImportExamples.

Local Open Scope nat_scope.

Lemma parse_rawData_rows headerRow rows data :
  parse_rawData (headerRow :: rows) = inr data →
  data = data_rows (header_key <$> headerRow) rows.
Proof.
  unfold parse_rawData. destruct rows as [|row rows]; [done|].
  case_bool_decide; [done|]. congruence.
Qed.

Lemma parseFile_rows fileContent headerRow rows data :
  csv_rawData fileContent = headerRow :: rows →
  parseFile fileContent = inr data →
  data = data_rows (header_key <$> headerRow) rows.
Proof.
  intros Hraw. unfold parseFile. rewrite Hraw.
  destruct (parse_rawData (headerRow :: rows)) as [m|d] eqn:E; [done|].
  intros [= <-]. by apply parse_rawData_rows.
Qed.

(** The errors of a student import: one entry [i + 2] for each parsed
    row [i] that fails. *)
Lemma uploadStudents_errors host file uploader db data :
  parseFile_at file = Some (inr data) → data ≠ [] →
  ∃ db' total sc ec errs,
    uploadStudents host (mkRequest (Some file) uploader) db
    = Some (db', mkResponse 200 (ImportResult total sc ec errs))
    ∧ ∀ e, e ∈ errs
           ↔ ∃ i m, fails_at (process_student host uploader) data db i m
                    ∧ e = mkError (i + 2) m.
Proof.
  intros Hp Hne. unfold uploadStudents. cbn [req_file req_user].
  rewrite Hp, run_import_rows by exact Hne. cbv zeta.
  eexists _, _, _, _, _. split; [reflexivity|].
  intros e. rewrite run_rows_errors. cbn [fst snd errors]. split.
  - intros [Hnil|H]; [by apply elem_of_nil in Hnil|exact H].
  - intros H. right. exact H.
Qed.

Lemma parseFile_data_rows fileContent headerRow rows :
  csv_rawData fileContent = headerRow :: rows →
  "" ∉ (header_key <$> headerRow) →
  0 < length (data_rows (header_key <$> headerRow) rows) →
  parseFile fileContent = inr (data_rows (header_key <$> headerRow) rows).
Proof.
  intros Hraw Hh Hlen. unfold parseFile, parse_rawData. rewrite Hraw.
  destruct rows as [|row rows]; [cbn in Hlen; lia|].
  rewrite bool_decide_eq_false_2; [reflexivity|].
  intros (h & Hin & ->)%Exists_exists. done.
Qed.

(** In the sample file the row after the instruction row and a good row
    is line 4; it is reported as row 3. *)
Example instruction_row_shifts_numbers :
  snd <$> uploadStudents sample_host (mkRequest (Some with_instructions) 1)
                         empty_db
  = Some (mkResponse 200
            (ImportResult (JsNumber 2) 1 1
               [mkError 3 "Missing required fields: lastName"])).
Proof. vm_compute. reflexivity. Qed.
End RowNumberProofs.

(** ** Staff imports *)

Section StaffProofs.
Import JsString Parse Store Upload ImportSpec ImportExamples.

Local Ltac decide_by_computation :=
  match goal with
  | |- ?P => apply (bool_decide_eq_true_1 P); vm_compute; reflexivity
  end.

(** C5, where the code departs from it.  The body of the loop does
    reject a row whose email or employee ID is taken, but
    [uploadAdminStaff] and [uploadSupportStaff] never run it, because
    they do not await [parseFile]: whatever the file, no row is
    validated, no error is reported and no account is created.  On the
    sample file, whose only row carries the email of an existing
    account, the import answers with no error. *)
Theorem staff_import_skips_rows host file uploader db :
  (∃ db', uploadAdminStaff host (mkRequest (Some file) uploader) db
          = Some (db', mkResponse 200 (ImportResult JsUndefined 0 0 []))
          ∧ users db' = users db ∧ adminStaff db' = adminStaff db)
  ∧ (∃ db', uploadSupportStaff host (mkRequest (Some file) uploader) db
            = Some (db', mkResponse 200 (ImportResult JsUndefined 0 0 []))
            ∧ users db' = users db ∧ supportStaff db' = supportStaff db)
  ∧ parseFile (file_content colliding_staff) = inr [ann_row]
  ∧ process_adminStaff sample_host 1 ann_row db_with_ann
    = (db_with_ann, inl "Email already exists")
  ∧ process_supportStaff sample_host 1 ann_row db_with_ann
    = (db_with_ann, inl "Email already exists")
  ∧ snd <$> uploadAdminStaff sample_host
              (mkRequest (Some colliding_staff) 1) db_with_ann
    = Some (mkResponse 200 (ImportResult JsUndefined 0 0 [])).
Proof.
  split; [eexists; split; [reflexivity|split; reflexivity]|].
  split; [eexists; split; [reflexivity|split; reflexivity]|].
  split; [decide_by_computation|].
  split; [vm_compute; reflexivity|].
  split; [vm_compute; reflexivity|].
  vm_compute; reflexivity.
Qed.

(** Awaited, the same file would yield one error. *)
Example staff_row_rejected_when_awaited :
  snd <$> run_import "admin-staff" (process_adminStaff sample_host 1)
            colliding_staff 1 (Rows [ann_row]) db_with_ann
  = Some (mkResponse 200
            (ImportResult (JsNumber 1) 0 1
               [mkError 2 "Email already exists"])).
Proof. vm_compute. reflexivity. Qed.

Example staff_employee_id_rejected_when_awaited :
  (process_adminStaff sample_host 1 ann_row
     (mkDb [] [] [] [mkStaff 1 1 "E7" "female" "clerk" None None []] [] []
           [])).2
  = inl "Employee ID already exists".
Proof. vm_compute. reflexivity. Qed.
End StaffProofs.

(** ** Generated addresses *)

Section EmailProofs.
Import JsString Parse CsvSpec Store Upload ImportExamples EmailSpec.

Local Open Scope nat_scope.

Lemma length_append (a b : string) :
  String.length (a +:+ b) = String.length a + String.length b.
Proof.
  induction a as [|x a IH]; [reflexivity|].
  rewrite append_cons. cbn [String.length]. by rewrite IH.
Qed.

Lemma append_inj_length (a b s t : string) :
  String.length a = String.length b → a +:+ s = b +:+ t → a = b.
Proof.
  revert b. induction a as [|x a IH]; intros [|y b] Hlen Heq; try done.
  rewrite !append_cons in Heq. injection Heq as -> Heq.
  f_equal. apply IH; [by injection Hlen|exact Heq].
Qed.

Lemma append_inj_r (a b t : string) : a +:+ t = b +:+ t → a = b.
Proof.
  intros Heq. apply (append_inj_length a b t t); [|exact Heq].
  apply (f_equal String.length) in Heq. rewrite !length_append in Heq. lia.
Qed.

Lemma candidate_suffix_inj loc j k :
  candidate loc (S j) = candidate loc (S k) → j = k.
Proof.
  unfold candidate. intros Heq.
  apply (inj (String.append loc)) in Heq.
  apply append_inj_r in Heq. apply (inj pretty) in Heq. lia.
Qed.

Lemma taken_elem_of db email :
  taken db email ↔ email ∈ user_email <$> users db.
Proof.
  unfold taken, User_findOne. rewrite list_elem_of_fmap. split.
  - intros [u Hu]. apply head_Some_elem_of in Hu.
    apply (list_elem_of_filter (λ u, user_email u = email)) in Hu as [? ?].
    eauto.
  - intros (u & -> & Hu).
    destruct (head (filter (λ u0, user_email u0 = user_email u) (users db)))
      as [v|] eqn:E; [eauto|].
    apply head_None in E.
    exfalso. by eapply (filter_nil_not_elem_of _ _ u E).
Qed.

(** Among the suffixes 1 .. n + 1, n the number of accounts, one is
    free. *)
Lemma free_suffix_exists db loc :
  ∃ k, k < S (length (users db)) ∧ ¬ taken db (candidate loc (S k)).
Proof.
  set (n := length (users db)).
  set (cands := (λ k, candidate loc (S k)) <$> seq 0 (S n)).
  destruct (decide (Forall (taken db) cands)) as [Hall|Hex].
  - exfalso.
    assert (Hnd : NoDup cands).
    { assert (Inj (=) (=) (λ k, candidate loc (S k)))
        by (intros j k; apply candidate_suffix_inj).
      apply (NoDup_fmap_2 (λ k, candidate loc (S k))), NoDup_seq. }
    assert (Hsub : cands ⊆+ user_email <$> users db).
    { apply NoDup_submseteq; [exact Hnd|].
      intros e He. apply taken_elem_of.
      rewrite Forall_forall in Hall. by apply Hall. }
    apply submseteq_length in Hsub.
    unfold cands in Hsub. rewrite !length_fmap, List.length_seq in Hsub.
    fold n in Hsub. lia.
  - apply not_Forall_Exists in Hex; [|apply _].
    apply Exists_exists in Hex as (e & He & Hfree).
    apply list_elem_of_fmap in He as (k & -> & Hk).
    apply elem_of_seq in Hk. exists k. split; [lia|exact Hfree].
Qed.

Lemma least_witness (P : nat → Prop) `{∀ k, Decision (P k)} N :
  (∃ k, k < N ∧ P k) → ∃ k, k < N ∧ P k ∧ ∀ j, j < k → ¬ P j.
Proof.
  induction N as [|N IH]; intros (k & Hk & HP); [lia|].
  assert (Hdec : (∃ j, j < N ∧ P j) ∨ ¬ (∃ j, j < N ∧ P j)).
  { destruct (decide (Exists P (seq 0 N))) as [Hex|Hno].
    - left. apply Exists_exists in Hex as (j & Hj%elem_of_seq & HPj).
      exists j. split; [lia|exact HPj].
    - right. intros (j & Hj & HPj). apply Hno, Exists_exists.
      exists j. split; [apply elem_of_seq; lia|exact HPj]. }
  destruct Hdec as [Hex|Hno].
  - destruct (IH Hex) as (m & Hm & HPm & Hleast).
    exists m. split; [lia|]. split; [exact HPm|exact Hleast].
  - assert (k = N) as ->.
    { destruct (decide (k < N)); [|lia]. exfalso. apply Hno. eauto. }
    exists N. split; [lia|]. split; [exact HP|].
    intros j Hj HPj. apply Hno. eauto.
Qed.

(** The loop, started on a taken address with the suffixes from
    [counter] to [counter + d - 1] taken and [counter + d] free, returns
    the address with suffix [counter + d]. *)
Lemma suffix_loop_finds db loc d :
  ∀ counter newEmail fuel,
    0 < counter → d + 2 ≤ fuel →
    taken db newEmail →
    (∀ j, counter ≤ j < counter + d → taken db (candidate loc j)) →
    ¬ taken db (candidate loc (counter + d)) →
    suffix_loop fuel db loc "schoolms.com" counter newEmail
    = Some (candidate loc (counter + d)).
Proof.
  induction d as [|d IH]; intros counter newEmail fuel Hc Hfuel Ht Hall Hfree.
  - destruct fuel as [|[|fuel]]; [lia|lia|].
    cbn [suffix_loop]. rewrite (bool_decide_eq_true_2 _ Ht).
    rewrite Nat.add_0_r in Hfree.
    destruct counter as [|c]; [lia|].
    change (loc +:+ pretty (S c) +:+ "@" +:+ "schoolms.com")
      with (candidate loc (S c)).
    rewrite (bool_decide_eq_false_2 _ Hfree). by rewrite Nat.add_0_r.
  - destruct fuel as [|fuel]; [lia|].
    cbn [suffix_loop]. rewrite (bool_decide_eq_true_2 _ Ht).
    destruct counter as [|c]; [lia|].
    change (loc +:+ pretty (S c) +:+ "@" +:+ "schoolms.com")
      with (candidate loc (S c)).
    rewrite (IH (S (S c)) (candidate loc (S c)) fuel); [|lia|lia| | |].
    + f_equal. f_equal. lia.
    + apply Hall. lia.
    + intros j Hj. apply Hall. lia.
    + replace (S (S c) + d) with (S c + S d) by lia. exact Hfree.
Qed.

Lemma rev_app_rev_app (a b c : string) :
  String.rev_app (String.rev_app a b) c = String.rev_app b (a +:+ c).
Proof.
  revert b c. induction a as [|x a IH]; intros b c; [reflexivity|].
  cbn [String.rev_app]. rewrite IH. reflexivity.
Qed.

Lemma rev_rev_app (a : string) : String.rev (String.rev_app a "") = a.
Proof.
  unfold String.rev. rewrite rev_app_rev_app. cbn [String.rev_app].
  apply append_nil_r.
Qed.

Lemma split_go_last sep a :
  ∀ cur, has_char sep a = false →
         split_go sep cur a = [String.rev (String.rev_app a cur)].
Proof.
  induction a as [|x a IH]; intros cur Ha; [reflexivity|].
  cbn in Ha. apply orb_false_elim in Ha as [Hx%bool_decide_eq_false Ha].
  cbn [split_go String.rev_app].
  rewrite (bool_decide_eq_false_2 _ Hx). by apply IH.
Qed.

Lemma split_go_sep sep a b :
  ∀ cur, has_char sep a = false →
         split_go sep cur (a +:+ String sep b)
         = String.rev (String.rev_app a cur) :: split_go sep "" b.
Proof.
  induction a as [|x a IH]; intros cur Ha.
  - rewrite append_nil_l. cbn [split_go String.rev_app].
    by rewrite bool_decide_eq_true_2.
  - cbn in Ha. apply orb_false_elim in Ha as [Hx%bool_decide_eq_false Ha].
    rewrite append_cons. cbn [split_go String.rev_app].
    rewrite (bool_decide_eq_false_2 _ Hx). by apply IH.
Qed.

Lemma split_at_sign loc :
  has_char "@" loc = false →
  split "@" (loc +:+ "@schoolms.com") = [loc; "schoolms.com"].
Proof.
  intros Hloc. unfold split.
  change "@schoolms.com" with (String "@" "schoolms.com").
  rewrite split_go_sep by exact Hloc. rewrite rev_rev_app.
  reflexivity.
Qed.

Lemma has_char_append c a b :
  has_char c (a +:+ b) = has_char c a || has_char c b.
Proof.
  induction a as [|x a IH]; [reflexivity|].
  rewrite append_cons. cbn [has_char]. by rewrite IH, orb_assoc.
Qed.

Lemma has_char_filter_chars c p s :
  p c = false → has_char c (filter_chars p s) = false.
Proof.
  intros Hc. induction s as [|x s IH]; [reflexivity|].
  cbn [filter_chars]. destruct (p x) eqn:Ex; [|exact IH].
  cbn [has_char]. rewrite IH, orb_false_r.
  apply bool_decide_eq_false. congruence.
Qed.

Lemma local_part_no_at pre firstName lastName :
  has_char "@" pre = false →
  has_char "@" (local_part pre firstName lastName) = false.
Proof.
  intros Hpre. unfold local_part, clean_name.
  rewrite !has_char_append, Hpre.
  by rewrite !has_char_filter_chars.
Qed.

(** The loop of [generate_email] ends within its fuel, on the least free
    suffix. *)
Lemma suffix_loop_total db loc newEmail :
  taken db newEmail →
  ∃ k, suffix_loop (length (users db) + 2) db loc "schoolms.com" 1 newEmail
       = Some (candidate loc (S k))
       ∧ ¬ taken db (candidate loc (S k))
       ∧ ∀ j, j < k → taken db (candidate loc (S j)).
Proof.
  intros Htaken.
  destruct (free_suffix_exists db loc) as (k0 & Hk0 & Hfree0).
  destruct (least_witness (λ k, ¬ taken db (candidate loc (S k)))
              (S (length (users db))))
    as (k & Hk & Hfree & Hleast); [eauto|].
  assert (Hbelow : ∀ j, j < k → taken db (candidate loc (S j))).
  { intros j Hj.
    destruct (decide (taken db (candidate loc (S j)))) as [|Hn]; [done|].
    exfalso. apply (Hleast j); [lia|exact Hn]. }
  exists k. split; [|split; [exact Hfree|exact Hbelow]].
  apply (suffix_loop_finds db loc k 1); [lia|lia|exact Htaken| |exact Hfree].
  intros [|j] Hj; [lia|]. apply Hbelow. lia.
Qed.

(** The address generated is the first free candidate: the local part
    without suffix when no account has it, else with the least suffix
    1, 2, ... that no account has. *)
Lemma generate_email_first_free pre firstName lastName db :
  has_char "@" pre = false →
  ∃ k, generate_email pre firstName lastName db
       = candidate (local_part pre firstName lastName) k
       ∧ first_free db (local_part pre firstName lastName) k.
Proof.
  intros Hpre. set (loc := local_part pre firstName lastName).
  assert (Hgen : pre +:+ clean_name firstName +:+ clean_name lastName
                 +:+ "@schoolms.com" = loc +:+ "@schoolms.com").
  { unfold loc, local_part. by rewrite !append_assoc. }
  unfold generate_email. cbv zeta. rewrite Hgen.
  case_bool_decide as Htaken.
  - rewrite split_at_sign by (by apply local_part_no_at).
    cbn [lookup list_lookup default id].
    destruct (suffix_loop_total db loc (loc +:+ "@schoolms.com") Htaken)
      as (k & Hloop & Hfree & Hbelow).
    exists (S k). rewrite Hloop. cbn [default id]. split; [reflexivity|].
    split; [exact Hfree|].
    intros [|j] Hj; [exact Htaken|]. apply Hbelow. lia.
  - exists 0. split; [reflexivity|]. split; [exact Htaken|]. lia.
Qed.

(** A row that takes the generating branch and succeeds adds one
    account, with the generated address. *)
Lemma process_student_generated host uploader (row : gmap string string)
    db db' :
  student_email_generated (cell row "email") = true →
  process_student host uploader row db = (db', inr ()) →
  ∃ u, users db' = users db ++ [u]
       ∧ user_email u
         = generate_email "std" (cell row "firstName")
                          (cell row "lastName") db.
Proof.
  intros Hgen. unfold process_student. rewrite Hgen.
  unfold bind, throw_if, gets, ret, throw, modify.
  set (g := generate_email _ _ _ db).
  destruct (0 <? length _); [cbv beta iota; intros [=]|].
  assert (Hemail : cell (<["email" := g]> row) "email" = g).
  { unfold cell. by rewrite lookup_insert_eq. }
  fold g. rewrite Hemail.
  destruct (bool_decide (is_Some (Student_findOne _ db)));
    [cbv beta iota; intros [=]|].
  unfold User_create. cbv beta iota. cbn [user_id].
  set (u := mkUser _ _ _ _ g _ _ _ _).
  set (db1 := mkDb (users db ++ [u]) _ _ _ _ _ _).
  unfold Student_create.
  destruct (date_or_now host _) as [dob|]; [|cbv beta iota; intros [=]].
  destruct (date_or_now host _) as [adm|]; [|cbv beta iota; intros [=]].
  destruct (_ || _); [cbv beta iota; intros [=]|].
  destruct (bool_decide (is_Some (Student_findOne _ db1)));
    [cbv beta iota; intros [=]|].
  cbv beta iota. cbn [student_monthlyFee student_id].
  destruct (0 <? _)%Z; intros H; apply (f_equal fst) in H;
    cbn [fst] in H; subst db'; exists u; split; reflexivity.
Qed.

Lemma student_email_generated_iff email :
  student_email_generated email = true ↔ lacks_prefix_or_domain email.
Proof.
  unfold student_email_generated, lacks_prefix_or_domain, falsy.
  rewrite !orb_true_iff, !negb_true_iff, bool_decide_eq_true. tauto.
Qed.

(** The specification's example: the cleaned names and the two
    addresses. *)
Example obrien_smith_local_part :
  clean_name "O'Brien" +:+ clean_name "Smith" = "obriensmith"
  ∧ local_part "std" "O'Brien" "Smith" = "stdobriensmith".
Proof. vm_compute. split; reflexivity. Qed.

Example second_obrien_gets_suffix_1 :
  (λ r, user_email <$> users r.1)
    <$> uploadStudents sample_host (mkRequest (Some two_obriens) 1) empty_db
  = Some ["stdobriensmith@schoolms.com"; "stdobriensmith1@schoolms.com"].
Proof. vm_compute. reflexivity. Qed.

(** C4 as stated fails: an email that starts with [std] and ends with
    [@schoolms.com] is kept although it does not spell the names. *)
Lemma email_with_prefix_and_domain_kept :
  ¬ matches_synthetic_pattern "John" "Smith" "stdxyz@schoolms.com"
  ∧ student_email_generated "stdxyz@schoolms.com" = false
  ∧ ¬ generated_unless_pattern "John" "Smith" "stdxyz@schoolms.com"
  ∧ (λ r, user_email <$> users r.1)
      <$> uploadStudents sample_host (mkRequest (Some odd_email) 1) empty_db
    = Some ["stdxyz@schoolms.com"].
Proof.
  assert (Hno : ¬ matches_synthetic_pattern "John" "Smith"
                    "stdxyz@schoolms.com").
  { intros [domain Hd]. vm_compute in Hd. discriminate Hd. }
  split; [exact Hno|]. split; [reflexivity|]. split.
  - intros H. specialize (H (or_intror Hno)). vm_compute in H.
    discriminate H.
  - vm_compute. reflexivity.
Qed.
End EmailProofs.

(** * Further properties of the code *)

(** ** The save hook as a function of the fields *)

Section HookProofs.
Import FeeModel FeeController FeeRoutes HookSummary FeeSpec.

Lemma fee_eta (f : Fee) :
  mkFee (_id f) (student f) (feeType f) (amount f) (dueDate f)
        (paymentDate f) (status f) (paidAmount f) (remainingAmount f)
        (arrears f) (recordedBy f) = f.
Proof. by destruct f. Qed.

Lemma fields_set_paidAmount v d :
  fields (set_paidAmount v d)
  = put_payment (fields d) (paymentDate (fields d)) (status (fields d)) v
                (remainingAmount (fields d)).
Proof.
  unfold set_paidAmount, put_payment, markModified.
  case_bool_decide as E; cbn [fields]; [|reflexivity].
  rewrite <- E. symmetry. apply fee_eta.
Qed.

Lemma fields_set_remainingAmount v d :
  fields (set_remainingAmount v d)
  = put_payment (fields d) (paymentDate (fields d)) (status (fields d))
                (paidAmount (fields d)) v.
Proof.
  unfold set_remainingAmount, put_payment, markModified.
  case_bool_decide as E; cbn [fields]; [|reflexivity].
  rewrite <- E. symmetry. apply fee_eta.
Qed.

Lemma fields_set_paymentDate v d :
  fields (set_paymentDate v d)
  = put_payment (fields d) v (status (fields d)) (paidAmount (fields d))
                (remainingAmount (fields d)).
Proof.
  unfold set_paymentDate, put_payment, markModified.
  case_bool_decide as E; cbn [fields]; [|reflexivity].
  rewrite <- E. symmetry. apply fee_eta.
Qed.

Lemma fields_set_status v d :
  fields (set_status v d)
  = put_payment (fields d) (paymentDate (fields d)) v
                (paidAmount (fields d)) (remainingAmount (fields d)).
Proof.
  unfold set_status, put_payment, markModified.
  case_bool_decide as E; cbn [fields]; [|reflexivity].
  rewrite <- E. symmetry. apply fee_eta.
Qed.

Lemma isModified_mark p q d :
  isModified p (markModified q d)
  = bool_decide (p = q) || isModified p d.
Proof.
  unfold isModified, markModified. cbn [modifiedPaths].
  rewrite <- bool_decide_or. apply bool_decide_ext, elem_of_cons.
Qed.

(** Whether [paidAmount] counts as modified after each assignment of the
    hook. *)
Lemma paid_mark_write_paidAmount isNew v d :
  isModified p_paidAmount (write_paidAmount isNew v d)
  = isModified p_paidAmount d
    || isNew || negb (bool_decide (paidAmount (fields d) = v)).
Proof.
  unfold write_paidAmount, set_paidAmount.
  case_bool_decide; destruct isNew; cbn [negb];
    rewrite ?isModified_mark, ?isModified_mark;
    cbn; rewrite ?orb_true_r, ?orb_false_r; try reflexivity.
  all: unfold isModified, markModified; cbn [modifiedPaths].
  all: try reflexivity.
Qed.

Lemma paid_mark_write_remainingAmount isNew v d :
  isModified p_paidAmount (write_remainingAmount isNew v d)
  = isModified p_paidAmount d.
Proof.
  unfold write_remainingAmount, set_remainingAmount.
  case_bool_decide; destruct isNew; rewrite ?isModified_mark; reflexivity.
Qed.

Lemma paid_mark_write_paymentDate isNew v d :
  isModified p_paidAmount (write_paymentDate isNew v d)
  = isModified p_paidAmount d.
Proof.
  unfold write_paymentDate, set_paymentDate.
  case_bool_decide; destruct isNew; rewrite ?isModified_mark; reflexivity.
Qed.

Lemma fields_write_paidAmount isNew v d :
  fields (write_paidAmount isNew v d) = fields (set_paidAmount v d).
Proof. unfold write_paidAmount. by destruct isNew. Qed.

Lemma fields_write_remainingAmount isNew v d :
  fields (write_remainingAmount isNew v d) = fields (set_remainingAmount v d).
Proof. unfold write_remainingAmount. by destruct isNew. Qed.

Lemma fields_write_paymentDate isNew v d :
  fields (write_paymentDate isNew v d) = fields (set_paymentDate v d).
Proof. unfold write_paymentDate. by destruct isNew. Qed.

Lemma fields_write_status isNew v d :
  fields (write_status isNew v d) = fields (set_status v d).
Proof. unfold write_status. by destruct isNew. Qed.

(** On a loaded document the hook is [pre_save]. *)
Lemma save_hook_loaded now d : save_hook false now d = pre_save now d.
Proof. reflexivity. Qed.

Lemma put_payment_twice f a b c e a' b' c' e' :
  put_payment (put_payment f a b c e) a' b' c' e' = put_payment f a' b' c' e'.
Proof. reflexivity. Qed.

Lemma unpaid_is_not_paid : bool_decide (unpaid = paid) = false.
Proof. reflexivity. Qed.

Lemma partial_is_not_paid : bool_decide (partial = paid) = false.
Proof. reflexivity. Qed.

Lemma paid_is_paid : bool_decide (paid = paid) = true.
Proof. reflexivity. Qed.

Local Ltac hook_rewrite :=
  repeat (progress
    (rewrite ?fields_write_paidAmount, ?fields_write_remainingAmount,
       ?fields_write_paymentDate, ?fields_write_status,
       ?fields_set_paidAmount, ?fields_set_remainingAmount,
       ?fields_set_paymentDate, ?fields_set_status, ?put_payment_twice,
       ?unpaid_is_not_paid, ?partial_is_not_paid, ?paid_is_paid;
     cbn [put_payment _id student feeType amount dueDate paymentDate status
          paidAmount remainingAmount arrears recordedBy])).

(** The fields a save leaves. *)
Lemma save_hook_fields isNew now d :
  fields (save_hook isNew now d)
  = hook_fields isNew (isModified p_status d) (isModified p_paidAmount d)
                now (fields d).
Proof.
  unfold save_hook, hook_fields.
  set (f := fields d).
  set (explicit := isModified p_status d && bool_decide (status f = paid)).
  cbv zeta.
  (* first block *)
  set (d1 := if explicit then _ else d).
  assert (F1 : fields d1
               = put_payment f
                   (if explicit then Some (default now (paymentDate f))
                    else paymentDate f)
                   (status f)
                   (if explicit then amount f else paidAmount f)
                   (if explicit then 0 else remainingAmount f)).
  { unfold d1. destruct explicit.
    - unfold paymentDate_or_now. hook_rewrite. reflexivity.
    - unfold put_payment. symmetry. apply fee_eta. }
  assert (M1 : isModified p_paidAmount d1
               = isModified p_paidAmount d
                 || (explicit
                     && (isNew || negb (bool_decide (paidAmount f = amount f))))).
  { unfold d1. destruct explicit.
    - rewrite paid_mark_write_paymentDate, paid_mark_write_remainingAmount,
        paid_mark_write_paidAmount. cbn [andb]. by rewrite orb_assoc.
    - cbn [andb]. by rewrite orb_false_r. }
  clearbody d1. rewrite M1.
  set (derive := _ || _).
  (* second block *)
  set (d2 := if derive then _ else d1).
  assert (F2 : fields d2
               = put_payment f
                   (if derive
                       && bool_decide
                            (status_of_payment
                               (if explicit then amount f else paidAmount f)
                               (amount f) = paid)
                    then Some (default now (paymentDate (fields d1)))
                    else paymentDate (fields d1))
                   (if derive
                    then status_of_payment
                           (if explicit then amount f else paidAmount f)
                           (amount f)
                    else status f)
                   (if explicit then amount f else paidAmount f)
                   (if derive
                    then amount f - (if explicit then amount f else paidAmount f)
                    else if explicit then 0 else remainingAmount f)).
  { unfold d2. destruct derive; [|cbn [andb]; rewrite F1; reflexivity].
    cbn [andb]. unfold status_of_payment, paymentDate_or_now.
    hook_rewrite. rewrite F1. hook_rewrite.
    set (p := if explicit then amount f else paidAmount f).
    destruct (p =? 0);
      [hook_rewrite; rewrite F1; hook_rewrite; reflexivity|].
    destruct (Z.ltb_spec p (amount f));
      [hook_rewrite; rewrite F1; hook_rewrite; reflexivity|].
    assert (Hge : (p >=? amount f) = true) by lia. rewrite Hge.
    hook_rewrite. rewrite F1. hook_rewrite. reflexivity. }
  clearbody d2.
  rewrite F1 in F2.
  cbn [put_payment paymentDate] in F2.
  (* third block *)
  rewrite F2.
  cbn [put_payment _id student feeType amount dueDate paymentDate status
       paidAmount remainingAmount arrears recordedBy].
  set (st2 := if derive then _ else status f).
  destruct (negb (bool_decide (st2 = paid)) && (dueDate f <? now)
            && negb (bool_decide (st2 = overdue)));
    [hook_rewrite|]; rewrite F2; hook_rewrite; unfold st2;
    by destruct derive.
Qed.

(** A document as loaded from the store has no modified path. *)
Lemma loaded_unmodified p f : isModified p (mkDoc f []) = false.
Proof. reflexivity. Qed.

(** X1. After a save, of a new or of a loaded document, a fee whose due
    date lies before the clock reading of the save is [paid] or
    [overdue]: the hook leaves no past-due fee [unpaid] or [partial]. *)
Theorem save_past_due_is_paid_or_overdue isNew now d :
  dueDate (fields d) < now →
  status (fields (save_hook isNew now d)) = paid
  ∨ status (fields (save_hook isNew now d)) = overdue.
Proof.
  intros Hdue. rewrite save_hook_fields. unfold hook_fields.
  cbv zeta. cbn [put_payment status].
  set (st2 := if (_ : bool) then _ else status (fields d)).
  assert (Hlt : (dueDate (fields d) <? now) = true) by lia.
  rewrite Hlt. destruct st2; cbn; auto.
Qed.

Lemma save_past_due_is_paid_or_overdue_witness :
  status (fields (save_hook false 200 (fee_doc 500 100 unpaid 0 500 [])))
  = paid
  ∨ status (fields (save_hook false 200 (fee_doc 500 100 unpaid 0 500 [])))
    = overdue.
Proof.
  apply (save_past_due_is_paid_or_overdue false 200
           (fee_doc 500 100 unpaid 0 500 [])).
  cbn. lia.
Defined.

(** X2. The hook never replaces a payment date: a date the document
    holds before the save is the date it holds after it.  And when a
    save that found [status] or [paidAmount] modified leaves the fee
    [paid], the fee has a payment date. *)
Theorem save_keeps_payment_date isNew now d :
  (∀ t, paymentDate (fields d) = Some t →
        paymentDate (fields (save_hook isNew now d)) = Some t)
  ∧ (isModified p_status d || isModified p_paidAmount d = true →
     status (fields (save_hook isNew now d)) = paid →
     is_Some (paymentDate (fields (save_hook isNew now d)))).
Proof.
  rewrite save_hook_fields. unfold hook_fields. cbv zeta.
  cbn [put_payment status paymentDate].
  set (explicit := isModified p_status d && _).
  set (derive := isModified p_paidAmount d || _).
  set (st2 := if derive then _ else status (fields d)).
  split.
  - intros t Ht. rewrite Ht. cbn [default].
    by destruct (derive && _), explicit.
  - intros Hmod Hpaid.
    assert (Hst2 : st2 = paid).
    { destruct (negb (bool_decide (st2 = paid)) && _ && _); [done|exact Hpaid]. }
    destruct explicit eqn:Ee.
    + by destruct (derive && _).
    + destruct derive eqn:Ed.
      * rewrite Hst2. cbn. eauto.
      * exfalso. unfold st2 in Hst2. unfold derive in Ed.
        apply orb_false_elim in Ed as [Ed _]. rewrite Ed, orb_false_r in Hmod.
        unfold explicit in Ee. rewrite Hmod, Hst2 in Ee. done.
Qed.

Lemma save_keeps_payment_date_witness :
  paymentDate
    (fields (save_hook false 200
               (mkDoc (mkFee 1 1 tuition 500 300 (Some 150) unpaid 500 0 0 1)
                      [p_paidAmount])))
  = Some 150
  ∧ is_Some
      (paymentDate
         (fields (save_hook true 200
                    (fee_doc 500 300 unpaid 500 0 [p_paidAmount])))).
Proof.
  split.
  - exact (proj1 (save_keeps_payment_date false 200
                    (mkDoc (mkFee 1 1 tuition 500 300 (Some 150) unpaid 500 0
                                  0 1) [p_paidAmount]))
                 150 eq_refl).
  - exact (proj2 (save_keeps_payment_date true 200
                    (fee_doc 500 300 unpaid 500 0 [p_paidAmount]))
                 eq_refl eq_refl).
Defined.

(** X3. A save settles the document: saving what a save stored, with
    nothing modified since and at the same clock reading, changes no
    field. *)
Theorem save_settles isNew now d :
  let stored := fields (save_hook isNew now d) in
  fields (save_hook false now (mkDoc stored [])) = stored.
Proof.
  cbv zeta. rewrite (save_hook_fields false), !loaded_unmodified.
  cbn [fields].
  set (f' := fields (save_hook isNew now d)).
  assert (Hst : status f' = paid ∨ status f' = overdue
                ∨ (dueDate f' <? now) = false).
  { unfold f'. rewrite save_hook_fields. unfold hook_fields. cbv zeta.
    cbn [put_payment status dueDate].
    set (st2 := if (_ : bool) then _ else status (fields d)).
    destruct (dueDate (fields d) <? now); [|auto].
    destruct st2; cbn; auto. }
  unfold hook_fields. cbv zeta. cbn [andb orb].
  assert (Hkeep : (if negb (bool_decide (status f' = paid))
                      && (dueDate f' <? now)
                      && negb (bool_decide (status f' = overdue))
                   then overdue else status f') = status f').
  { destruct Hst as [->| [->| ->]];
      [reflexivity|by destruct (dueDate f' <? now)|].
    by rewrite andb_false_r. }
  rewrite Hkeep. apply fee_eta.
Qed.
End HookProofs.

(** ** The calendar *)

Section CalendarFacts.
Import Calendar.

(** The year of the era and the day of the year that [civil_from_days]
    computes are in range. *)
Lemma era_day_bounds doe :
  0 <= doe <= 146096 →
  let yoe := (doe - doe / 1460 + doe / 36524 - doe / 146096) / 365 in
  let doy := doe - (365 * yoe + yoe / 4 - yoe / 100) in
  0 <= yoe <= 399 ∧ 0 <= doy <= 365.
Proof. intros H. cbv zeta. Z.div_mod_to_equations. lia. Qed.

Lemma month_day_bounds doy :
  0 <= doy <= 365 →
  let mp := (5 * doy + 2) / 153 in
  let d := doy - (153 * mp + 2) / 5 + 1 in
  0 <= mp <= 11 ∧ 1 <= d <= 31.
Proof. intros H. cbv zeta. Z.div_mod_to_equations. lia. Qed.

(** [civil_from_days] yields a date of the calendar whose day number is
    the one it was given. *)
Lemma civil_from_days_spec z :
  let y := (civil_from_days z).1.1 in
  let m := (civil_from_days z).1.2 in
  let d := (civil_from_days z).2 in
  1 <= m <= 12 ∧ 1 <= d <= 31 ∧ days_from_civil y m d = z
  ∧ (0 <= z → 1600 <= y).
Proof.
  cbv zeta. unfold civil_from_days. cbv zeta. cbn [fst snd].
  set (z' := z + 719468).
  set (era := z' / 146097).
  set (doe := z' - era * 146097).
  assert (Hdoe : 0 <= doe <= 146096).
  { unfold doe, era. Z.div_mod_to_equations. lia. }
  destruct (era_day_bounds doe Hdoe) as [Hyoe Hdoy]. cbv zeta in Hyoe, Hdoy.
  set (yoe := (doe - doe / 1460 + doe / 36524 - doe / 146096) / 365) in *.
  set (doy := doe - (365 * yoe + yoe / 4 - yoe / 100)) in *.
  destruct (month_day_bounds doy Hdoy) as [Hmp Hd]. cbv zeta in Hmp, Hd.
  set (mp := (5 * doy + 2) / 153) in *.
  set (d := doy - (153 * mp + 2) / 5 + 1) in *.
  set (m := if mp <? 10 then mp + 3 else mp - 9).
  assert (Hm : 1 <= m <= 12 ∧ (if 2 <? m then m - 3 else m + 9) = mp
               ∧ ((m <=? 2) = negb (mp <? 10))).
  { unfold m. destruct (Z.ltb_spec mp 10).
    - destruct (Z.ltb_spec 2 (mp + 3)); [|lia].
      destruct (Z.leb_spec (mp + 3) 2); [lia|]. cbn. lia.
    - destruct (Z.ltb_spec 2 (mp - 9)); [lia|].
      destruct (Z.leb_spec (mp - 9) 2); [|lia]. cbn. lia. }
  destruct Hm as (Hm & Hback & Hle).
  split; [exact Hm|]. split; [exact Hd|].
  split; [|intros Hz; assert (4 <= era)
               by (unfold era, z'; Z.div_mod_to_equations; lia);
           destruct (m <=? 2); lia].
  unfold days_from_civil. cbv zeta. rewrite Hback, Hle.
  set (y' := if negb (mp <? 10) then _ - 1 else _).
  assert (Hy' : y' = yoe + era * 400).
  { unfold y'. destruct (mp <? 10); cbn [negb]; lia. }
  rewrite Hy'.
  assert (Hera : (yoe + era * 400) / 400 = era).
  { Z.div_mod_to_equations. lia. }
  rewrite Hera.
  replace (yoe + era * 400 - era * 400) with yoe by lia.
  unfold d, doy, doe, z'. lia.
Qed.

Lemma days_from_civil_day y m d :
  days_from_civil y m d = days_from_civil y m 1 + d - 1.
Proof. unfold days_from_civil. cbv zeta. lia. Qed.

(** The first instant of the month of [t] is not after [t], for a [t]
    from 1970 on. *)
Lemma month_start_le t :
  0 <= t → Date_ymd (getFullYear t) (getMonth t) 1 <= t.
Proof.
  intros Ht. unfold Date_ymd, getFullYear, getMonth, MakeDay, Day.
  destruct (civil_from_days_spec (t / msPerDay)) as (Hm & Hd & Hz & Hy).
  cbv zeta in Hm, Hd, Hz, Hy.
  set (y := (civil_from_days (t / msPerDay)).1.1) in *.
  set (m := (civil_from_days (t / msPerDay)).1.2) in *.
  set (d := (civil_from_days (t / msPerDay)).2) in *.
  assert (Hday : 0 <= t / msPerDay).
  { unfold msPerDay. Z.div_mod_to_equations. lia. }
  specialize (Hy Hday).
  assert (Hyr : (0 <=? y) && (y <=? 99) = false).
  { apply andb_false_iff. right. lia. }
  rewrite Hyr. cbv zeta.
  assert (Hq : (m - 1) / 12 = 0) by (Z.div_mod_to_equations; lia).
  assert (Hr : (m - 1) mod 12 = m - 1) by (Z.div_mod_to_equations; lia).
  rewrite Hq, Hr, Z.add_0_r. replace (m - 1 + 1) with m by lia.
  rewrite (days_from_civil_day y m d) in Hz.
  unfold msPerDay in *. Z.div_mod_to_equations. lia.
Qed.
End CalendarFacts.

(** ** The initial fee record *)

Section InitialFeeFacts.
Import FeeModel Calendar FeeController FeeRoutes HookSummary ArrearsSpec.

(** The record stored when the month has no tuition fee of the student. *)
Lemma initial_fee_created now fees sid rid amt :
  Fee_findOne
    (month_fee_query sid tuition
       (Date_ymd (getFullYear now) (getMonth now) 1)
       (Date_ymd (getFullYear now) (getMonth now + 1) 0)) fees = None →
  let due := Date_ymd (getFullYear now) (getMonth now + 1) 0 in
  let fee :=
    mkFee (fresh_id fees) sid tuition (default 0 amt) due None
          (if due <? now then overdue else unpaid) 0 (default 0 amt)
          (calculateStudentArrears now fees (Some sid)) rid in
  createInitialFeeRecord now fees (Some sid) (Some rid) amt
  = (Some fee, fees ++ [fee]).
Proof.
  intros Hnone. cbv zeta. unfold createInitialFeeRecord.
  rewrite Hnone. unfold Fee_create. cbv zeta.
  rewrite <- save_hook_loaded, save_hook_fields.
  cbn [fields]. unfold hook_fields.
  cbn [status bool_decide decide_rel amount dueDate paidAmount
       remainingAmount paymentDate].
  set (due := Date_ymd _ _ 0).
  change (isModified p_paidAmount _) with false.
  rewrite andb_false_r. cbn [orb andb negb].
  cbv zeta. cbn [put_payment _id student feeType amount dueDate arrears
                 recordedBy fd_student fd_feeType fd_amount fd_dueDate
                 fd_status fd_recordedBy fd_arrears].
  change (bool_decide (unpaid = paid)) with false.
  change (bool_decide (unpaid = overdue)) with false.
  cbn [negb andb]. rewrite andb_true_r.
  by destruct (due <? now).
Qed.

(** X4. When the student has no tuition fee due in the current month,
    [createInitialFeeRecord] appends one record and returns it: the
    monthly fee (0 when absent) as amount and as remaining amount,
    nothing paid, no payment date, the arrears calculated from the
    store, due on the last day of the month at midnight.  Its status is
    [unpaid], except that a call later than that midnight, that is any
    time on the last day of the month, stores it as [overdue] at
    once. *)
Theorem createInitialFeeRecord_creates now fees sid rid amt :
  Fee_findOne
    (month_fee_query sid tuition
       (Date_ymd (getFullYear now) (getMonth now) 1)
       (Date_ymd (getFullYear now) (getMonth now + 1) 0)) fees = None →
  let due := Date_ymd (getFullYear now) (getMonth now + 1) 0 in
  let fee :=
    mkFee (fresh_id fees) sid tuition (default 0 amt) due None
          (if due <? now then overdue else unpaid) 0 (default 0 amt)
          (calculateStudentArrears now fees (Some sid)) rid in
  createInitialFeeRecord now fees (Some sid) (Some rid) amt
  = (Some fee, fees ++ [fee]).
Proof. exact (initial_fee_created now fees sid rid amt). Qed.

Lemma createInitialFeeRecord_creates_witness :
  createInitialFeeRecord 1738317600000 [] (Some 7%nat) (Some 1%nat)
                         (Some 500)
  = (Some (mkFee 1 7 tuition 500 1738281600000 None overdue 0 500 0 1),
     [mkFee 1 7 tuition 500 1738281600000 None overdue 0 500 0 1]).
Proof.
  rewrite (createInitialFeeRecord_creates 1738317600000 [] 7 1 (Some 500))
    by reflexivity.
  vm_compute. reflexivity.
Defined.

(** In a collection whose identifiers are distinct, a document is the
    one found by its identifier. *)
Lemma same_id_same_fee (fees : FeeStore) e g :
  NoDup (_id <$> fees) → e ∈ fees → g ∈ fees → _id g = _id e → g = e.
Proof.
  intros Hnd He Hg Hid.
  apply list_elem_of_lookup in He as [i Hi].
  apply list_elem_of_lookup in Hg as [j Hj].
  assert (i = j) as ->.
  { eapply NoDup_lookup; [exact Hnd| |].
    - rewrite list_lookup_fmap, Hi. reflexivity.
    - rewrite list_lookup_fmap, Hj. cbn. by rewrite Hid. }
  congruence.
Qed.

Lemma Fee_findById_unique (fees : FeeStore) e :
  NoDup (_id <$> fees) → e ∈ fees → Fee_findById (_id e) fees = Some e.
Proof.
  intros Hnd He. unfold Fee_findById.
  destruct (head (filter (λ f, _id f = _id e) fees)) as [g|] eqn:Eg.
  - apply head_Some_elem_of in Eg.
    apply (list_elem_of_filter (λ f, _id f = _id e)) in Eg as [Hid Hg].
    f_equal. by apply (same_id_same_fee fees).
  - apply head_None in Eg. exfalso.
    by eapply (filter_nil_not_elem_of _ _ e Eg).
Qed.

Lemma Fee_findOne_elem_of (Q : Fee → Prop) `{∀ f, Decision (Q f)} fees e :
  Fee_findOne Q fees = Some e → Q e ∧ e ∈ fees.
Proof.
  unfold Fee_findOne. intros He%head_Some_elem_of.
  by apply (list_elem_of_filter Q) in He.
Qed.

(** The record stored when the month has a tuition fee of the student. *)
Lemma initial_fee_rewritten now fees sid rid amt e :
  NoDup (_id <$> fees) →
  Fee_findOne
    (month_fee_query sid tuition
       (Date_ymd (getFullYear now) (getMonth now) 1)
       (Date_ymd (getFullYear now) (getMonth now + 1) 0)) fees = Some e →
  let fee :=
    mkFee (_id e) sid tuition (default 0 amt)
          (Date_ymd (getFullYear now) (getMonth now + 1) 0)
          (paymentDate e) unpaid (paidAmount e) (remainingAmount e)
          (calculateStudentArrears now fees (Some sid)) rid in
  createInitialFeeRecord now fees (Some sid) (Some rid) amt
  = (Some fee, store_fee fee fees).
Proof.
  intros Hnd Hfound. cbv zeta. unfold createInitialFeeRecord.
  rewrite Hfound.
  apply Fee_findOne_elem_of in Hfound as [_ He].
  unfold Fee_findByIdAndUpdate.
  fold (Fee_findById (_id e) fees).
  rewrite (Fee_findById_unique fees e Hnd He). cbn [fmap option_fmap option_map].
  f_equal. unfold store_fee. apply list_fmap_ext.
  intros i g Hg. cbn [_id].
  case_bool_decide as Hid; [|reflexivity].
  apply list_elem_of_lookup_2 in Hg.
  by rewrite (same_id_same_fee fees e g Hnd He Hg Hid).
Qed.

(** X5. When the student already has a tuition fee due in the current
    month (the first such record of a collection with distinct
    identifiers), [createInitialFeeRecord] rewrites that record and adds
    none: amount, due date, recorder and arrears are set anew and the
    status is set to [unpaid], whatever it was, while the paid amount,
    the remaining amount and the payment date stay as they were. *)
Theorem createInitialFeeRecord_rewrites now fees sid rid amt e :
  NoDup (_id <$> fees) →
  Fee_findOne
    (month_fee_query sid tuition
       (Date_ymd (getFullYear now) (getMonth now) 1)
       (Date_ymd (getFullYear now) (getMonth now + 1) 0)) fees = Some e →
  let fee :=
    mkFee (_id e) sid tuition (default 0 amt)
          (Date_ymd (getFullYear now) (getMonth now + 1) 0)
          (paymentDate e) unpaid (paidAmount e) (remainingAmount e)
          (calculateStudentArrears now fees (Some sid)) rid in
  createInitialFeeRecord now fees (Some sid) (Some rid) amt
  = (Some fee, store_fee fee fees).
Proof. exact (initial_fee_rewritten now fees sid rid amt e). Qed.

Lemma createInitialFeeRecord_rewrites_witness :
  createInitialFeeRecord 1736942400000
    [mkFee 1 7 tuition 500 1738281600000 (Some 1735689600000) paid 500 0 0 1]
    (Some 7%nat) (Some 2%nat) (Some 600)
  = (Some (mkFee 1 7 tuition 600 1738281600000 (Some 1735689600000)
                 unpaid 500 0 0 2),
     [mkFee 1 7 tuition 600 1738281600000 (Some 1735689600000)
            unpaid 500 0 0 2]).
Proof.
  cbv zeta.
  rewrite (createInitialFeeRecord_rewrites 1736942400000 _ 7 2 (Some 600)
             (mkFee 1 7 tuition 500 1738281600000 (Some 1735689600000)
                    paid 500 0 0 1)).
  - vm_compute. reflexivity.
  - apply NoDup_singleton.
  - vm_compute. reflexivity.
Defined.

Lemma filter_fmap_same {A} (Q : A → Prop) `{∀ x, Decision (Q x)}
    (h : A → A) (l : list A) :
  (∀ g, g ∈ l → h g = g ∨ (¬ Q g ∧ ¬ Q (h g))) →
  filter Q (h <$> l) = filter Q l.
Proof.
  induction l as [|x l IH]; intros Hl; [reflexivity|].
  rewrite fmap_cons.
  assert (IH' : filter Q (h <$> l) = filter Q l).
  { apply IH. intros g Hg. apply Hl. by right. }
  destruct (Hl x) as [Hx|[Hx Hhx]]; [by left| |].
  - rewrite Hx. destruct (decide (Q x)).
    + rewrite !(filter_cons_True Q) by done. by rewrite IH'.
    + rewrite !(filter_cons_False Q) by done. exact IH'.
  - rewrite !(filter_cons_False Q) by done. exact IH'.
Qed.

(** X6. [createInitialFeeRecord] changes nobody's arrears of the
    current month: the record it creates or rewrites is due inside the
    month, and [calculateStudentArrears] counts what was due before
    it. *)
Theorem createInitialFeeRecord_keeps_arrears now fees sid rid amt studentId :
  NoDup (_id <$> fees) →
  calculateStudentArrears now
    (createInitialFeeRecord now fees (Some sid) (Some rid) amt).2 studentId
  = calculateStudentArrears now fees studentId.
Proof.
  intros Hnd.
  set (S := Date_ymd (getFullYear now) (getMonth now) 1).
  set (E := Date_ymd (getFullYear now) (getMonth now + 1) 0).
  assert (HSE : S <= E) by apply Date_ymd_month_start_before_end.
  assert (Hsame : ∀ s,
    filter (previous_fees_query s S)
      (createInitialFeeRecord now fees (Some sid) (Some rid) amt).2
    = filter (previous_fees_query s S) fees).
  { intros s.
    destruct (Fee_findOne (month_fee_query sid tuition S E) fees)
      as [e|] eqn:Ef.
    - rewrite (initial_fee_rewritten now fees sid rid amt e Hnd Ef).
      cbv zeta. cbn [snd]. unfold store_fee.
      apply Fee_findOne_elem_of in Ef as [(_ & _ & Hlo & _) He].
      apply filter_fmap_same. intros g Hg. cbn [_id].
      case_bool_decide as Hid; [|by left]. right.
      rewrite (same_id_same_fee fees e g Hnd He Hg Hid).
      unfold previous_fees_query. cbn [dueDate]. fold E. split; lia.
    - rewrite (initial_fee_created now fees sid rid amt Ef).
      cbv zeta. cbn [snd].
      rewrite (filter_app (previous_fees_query s S)).
      rewrite (filter_cons_False (previous_fees_query s S)).
      + by rewrite app_nil_r.
      + unfold previous_fees_query. cbn [dueDate]. fold E. lia. }
  unfold calculateStudentArrears. destruct studentId as [s|]; [|reflexivity].
  destruct ((getMonth now =? 4) && (getFullYear now =? 2025)); [reflexivity|].
  cbv zeta. fold S. by rewrite Hsame.
Qed.

Lemma createInitialFeeRecord_keeps_arrears_witness :
  calculateStudentArrears nov_2026
    (createInitialFeeRecord nov_2026 sample_fees (Some 1%nat) (Some 9%nat)
                            (Some 600)).2 (Some 1%nat)
  = calculateStudentArrears nov_2026 sample_fees (Some 1%nat).
Proof.
  apply (createInitialFeeRecord_keeps_arrears nov_2026 sample_fees 1 9
           (Some 600) (Some 1%nat)).
  apply (bool_decide_unpack _). vm_compute. exact I.
Defined.
End InitialFeeFacts.

(** ** Orphaned fees *)

Section CleanupFacts.
Import FeeModel FeeController FeeRoutes RouteExamples.

Local Open Scope nat_scope.

Lemma filter_iff_in {A} (P Q : A → Prop) `{∀ x, Decision (P x)}
    `{∀ x, Decision (Q x)} (l : list A) :
  (∀ x, x ∈ l → P x ↔ Q x) → filter P l = filter Q l.
Proof.
  induction l as [|x l IH]; intros Hl; [reflexivity|].
  assert (IH' : filter P l = filter Q l).
  { apply IH. intros y Hy. apply Hl. by right. }
  destruct (decide (P x)) as [Hx|Hx].
  - rewrite (filter_cons_True P), (filter_cons_True Q), IH';
      [reflexivity| |exact Hx]. apply Hl; [by left|exact Hx].
  - rewrite (filter_cons_False P), (filter_cons_False Q), IH';
      [reflexivity| |exact Hx]. intros HQ. apply Hx, Hl; [by left|exact HQ].
Qed.

Lemma filter_all {A} (P : A → Prop) `{∀ x, Decision (P x)} (l : list A) :
  (∀ x, x ∈ l → P x) → filter P l = l.
Proof.
  induction l as [|x l IH]; intros Hl; [reflexivity|].
  rewrite (filter_cons_True P) by (apply Hl; by left).
  f_equal. apply IH. intros y Hy. apply Hl. by right.
Qed.

Lemma orphaned_ids (fees : FeeStore) l f :
  NoDup (_id <$> fees) → f ∈ fees →
  _id f ∈ _id <$> filter (λ fee, is_orphaned l fee = true) fees
  ↔ is_orphaned l f = true.
Proof.
  intros Hnd Hf. rewrite list_elem_of_fmap. split.
  - intros (g & Hid & Hg).
    apply (list_elem_of_filter (λ fee, is_orphaned l fee = true)) in Hg
      as [Ho Hg].
    by rewrite <- (same_id_same_fee fees f g Hnd Hf Hg).
  - intros Ho. exists f. split; [reflexivity|].
    by apply (list_elem_of_filter (λ fee, is_orphaned l fee = true)).
Qed.

(** X7. [cleanupOrphanedFees], called by an admin or a principal on a
    collection with distinct identifiers, answers 200 and leaves exactly
    the fees whose student exists and is not marked inactive, in their
    order; it reports the number of fees removed and their identifiers.
    The students are not touched.  Any other role gets 403 and nothing
    changes. *)
Theorem cleanupOrphanedFees_result user c :
  NoDup (_id <$> fee_docs c) →
  let orphans :=
    filter (λ fee, is_orphaned (student_docs c) fee = true) (fee_docs c) in
  let kept :=
    filter (λ fee, is_orphaned (student_docs c) fee = false) (fee_docs c) in
  (ru_role user = "admin" ∨ ru_role user = "principal" →
   ∃ message,
     cleanupOrphanedFees user c
     = (mkCollections kept (student_docs c),
        mkReply 200 (Cleaned message (length orphans) (_id <$> orphans))))
  ∧ (ru_role user ≠ "admin" → ru_role user ≠ "principal" →
     cleanupOrphanedFees user c
     = (c, mkReply 403 (Failed "Not authorized to perform this action"))).
Proof.
  intros Hnd. cbv zeta. split.
  - intros Hrole. unfold cleanupOrphanedFees.
    assert (Hguard : bool_decide (ru_role user ≠ "admin")
                     && bool_decide (ru_role user ≠ "principal") = false).
    { apply andb_false_iff.
      destruct Hrole as [Hr|Hr]; [left|right];
        by apply bool_decide_eq_false; intros ?. }
    rewrite Hguard. cbv zeta.
    set (orphans := filter (λ fee, is_orphaned (student_docs c) fee = true)
                           (fee_docs c)).
    assert (Hkept :
      filter (λ f, _id f ∉ _id <$> orphans) (fee_docs c)
      = filter (λ fee, is_orphaned (student_docs c) fee = false) (fee_docs c)).
    { apply filter_iff_in. intros f Hf.
      pose proof (orphaned_ids (fee_docs c) (student_docs c) f Hnd Hf) as Ho.
      fold orphans in Ho. rewrite Ho.
      by destruct (is_orphaned (student_docs c) f). }
    assert (Hgone :
      filter (λ f, _id f ∈ _id <$> orphans) (fee_docs c) = orphans).
    { unfold orphans at 2. apply filter_iff_in. intros f Hf.
      apply (orphaned_ids (fee_docs c) (student_docs c) f Hnd Hf). }
    rewrite length_fmap.
    destruct (0 <? length orphans) eqn:E.
    + unfold Fee_deleteMany. rewrite Hkept, Hgone. eauto.
    + apply Nat.ltb_ge in E. assert (Hnil : orphans = []).
      { destruct orphans; [done|cbn in E; lia]. }
      rewrite Hnil. cbn [length fmap list_fmap].
      exists "No orphaned fee records found". f_equal.
      destruct c as [fees studs]. cbn [fee_docs student_docs] in *.
      f_equal. symmetry. apply filter_all. intros f Hf.
      apply (filter_nil_Forall (λ fee, is_orphaned studs fee = true)) in Hnil.
      rewrite Forall_forall in Hnil. specialize (Hnil f Hf).
      by destruct (is_orphaned studs f).
  - intros H1 H2. unfold cleanupOrphanedFees.
    by rewrite !bool_decide_eq_true_2.
Qed.

Lemma cleanupOrphanedFees_result_witness :
  ∃ message,
    cleanupOrphanedFees an_admin school
    = (mkCollections
         (filter (λ fee, FeeModel.student fee = 1) (fee_docs school))
         (student_docs school),
       mkReply 200 (Cleaned message 2 [4; 6])).
Proof.
  destruct (cleanupOrphanedFees_result an_admin school) as [H _].
  { apply (bool_decide_unpack _). vm_compute. exact I. }
  destruct H as [message Hm]; [by left|].
  exists message. rewrite Hm. vm_compute. reflexivity.
Defined.

(** X8. A second clean-up finds nothing to do: after a clean-up by an
    admin or a principal, a clean-up answers that no orphaned record was
    found and leaves the collections as they are. *)
Theorem cleanupOrphanedFees_twice user1 user2 c :
  ru_role user1 = "admin" ∨ ru_role user1 = "principal" →
  ru_role user2 = "admin" ∨ ru_role user2 = "principal" →
  cleanupOrphanedFees user2 (cleanupOrphanedFees user1 c).1
  = ((cleanupOrphanedFees user1 c).1,
     mkReply 200 (Cleaned "No orphaned fee records found" 0 [])).
Proof.
  intros Hr1 Hr2.
  assert (Hguard : ∀ user,
    ru_role user = "admin" ∨ ru_role user = "principal" →
    bool_decide (ru_role user ≠ "admin")
    && bool_decide (ru_role user ≠ "principal") = false).
  { intros user Hrole. apply andb_false_iff.
    destruct Hrole as [Hr|Hr]; [left|right];
      by apply bool_decide_eq_false; intros ?. }
  set (c1 := (cleanupOrphanedFees user1 c).1).
  assert (Hclean :
    filter (λ fee, is_orphaned (student_docs c1) fee = true) (fee_docs c1)
    = []).
  { unfold c1, cleanupOrphanedFees. rewrite (Hguard user1 Hr1). cbv zeta.
    set (orphans := filter (λ fee, is_orphaned (student_docs c) fee = true)
                           (fee_docs c)).
    destruct (0 <? length (_id <$> orphans)) eqn:E.
    - unfold Fee_deleteMany. cbn [fst fee_docs student_docs].
      apply (filter_nil_Forall (λ fee, is_orphaned (student_docs c) fee = true)).
      apply Forall_forall. intros f Hf Ho.
      apply (list_elem_of_filter (λ f, _id f ∉ _id <$> orphans)) in Hf
        as [Hid Hf].
      apply Hid, list_elem_of_fmap. exists f. split; [reflexivity|].
      by apply (list_elem_of_filter
                  (λ fee, is_orphaned (student_docs c) fee = true)).
    - cbn [fst]. fold orphans.
      apply Nat.ltb_ge in E. rewrite length_fmap in E.
      destruct orphans; [done|cbn in E; lia]. }
  unfold cleanupOrphanedFees at 1. rewrite (Hguard user2 Hr2). cbv zeta.
  fold c1. by rewrite Hclean.
Qed.

Lemma cleanupOrphanedFees_twice_witness :
  cleanupOrphanedFees a_principal (cleanupOrphanedFees an_admin school).1
  = ((cleanupOrphanedFees an_admin school).1,
     mkReply 200 (Cleaned "No orphaned fee records found" 0 [])).
Proof.
  apply (cleanupOrphanedFees_twice an_admin a_principal school);
    [by left|by right].
Defined.
End CleanupFacts.

(** ** The assignments of an update *)

Section AssignFacts.
Import FeeModel FeeController FeeRoutes HookSummary RouteExamples FeeSpec.

Local Ltac setter_fields :=
  intros;
  unfold set_student, set_feeType, set_amount, set_dueDate, set_arrears,
    set_recordedBy, markModified;
  let E := fresh in
  case_bool_decide as E; cbn [fields]; [|reflexivity];
  rewrite <- E; symmetry; apply fee_eta.

Lemma fields_set_student v d :
  let f := fields d in
  fields (set_student v d)
  =
    mkFee (_id f) (v) (feeType f) (amount f) (dueDate f) (paymentDate
    f) (status f) (paidAmount f) (remainingAmount f) (arrears f)
    (recordedBy f).
Proof. setter_fields. Qed.

Lemma fields_set_feeType v d :
  let f := fields d in
  fields (set_feeType v d)
  =
    mkFee (_id f) (student f) (v) (amount f) (dueDate f) (paymentDate
    f) (status f) (paidAmount f) (remainingAmount f) (arrears f)
    (recordedBy f).
Proof. setter_fields. Qed.

Lemma fields_set_amount v d :
  let f := fields d in
  fields (set_amount v d)
  =
    mkFee (_id f) (student f) (feeType f) (v) (dueDate f) (paymentDate
    f) (status f) (paidAmount f) (remainingAmount f) (arrears f)
    (recordedBy f).
Proof. setter_fields. Qed.

Lemma fields_set_dueDate v d :
  let f := fields d in
  fields (set_dueDate v d)
  =
    mkFee (_id f) (student f) (feeType f) (amount f) (v) (paymentDate
    f) (status f) (paidAmount f) (remainingAmount f) (arrears f)
    (recordedBy f).
Proof. setter_fields. Qed.

Lemma fields_set_arrears v d :
  let f := fields d in
  fields (set_arrears v d)
  =
    mkFee (_id f) (student f) (feeType f) (amount f) (dueDate f)
    (paymentDate f) (status f) (paidAmount f) (remainingAmount f) (v)
    (recordedBy f).
Proof. setter_fields. Qed.

Lemma fields_set_recordedBy v d :
  let f := fields d in
  fields (set_recordedBy v d)
  =
    mkFee (_id f) (student f) (feeType f) (amount f) (dueDate f)
    (paymentDate f) (status f) (paidAmount f) (remainingAmount f)
    (arrears f) (v).
Proof. setter_fields. Qed.

Lemma fields_assign_student v d :
  let f := fields d in
  fields (assign set_student v d)
  =
    mkFee (_id f) (default (student f) v) (feeType f) (amount f)
    (dueDate f) (paymentDate f) (status f) (paidAmount f)
    (remainingAmount f) (arrears f) (recordedBy f).
Proof.
  cbv zeta. destruct v; cbn [assign default id];
    [apply fields_set_student|symmetry; apply fee_eta].
Qed.

Lemma fields_assign_amount v d :
  let f := fields d in
  fields (assign set_amount v d)
  =
    mkFee (_id f) (student f) (feeType f) (default (amount f) v)
    (dueDate f) (paymentDate f) (status f) (paidAmount f)
    (remainingAmount f) (arrears f) (recordedBy f).
Proof.
  cbv zeta. destruct v; cbn [assign default id];
    [apply fields_set_amount|symmetry; apply fee_eta].
Qed.

Lemma fields_assign_dueDate v d :
  let f := fields d in
  fields (assign set_dueDate v d)
  =
    mkFee (_id f) (student f) (feeType f) (amount f) (default (dueDate
    f) v) (paymentDate f) (status f) (paidAmount f) (remainingAmount
    f) (arrears f) (recordedBy f).
Proof.
  cbv zeta. destruct v; cbn [assign default id];
    [apply fields_set_dueDate|symmetry; apply fee_eta].
Qed.

Lemma fields_assign_arrears v d :
  let f := fields d in
  fields (assign set_arrears v d)
  =
    mkFee (_id f) (student f) (feeType f) (amount f) (dueDate f)
    (paymentDate f) (status f) (paidAmount f) (remainingAmount f)
    (default (arrears f) v) (recordedBy f).
Proof.
  cbv zeta. destruct v; cbn [assign default id];
    [apply fields_set_arrears|symmetry; apply fee_eta].
Qed.

Lemma fields_assign_recordedBy v d :
  let f := fields d in
  fields (assign set_recordedBy v d)
  =
    mkFee (_id f) (student f) (feeType f) (amount f) (dueDate f)
    (paymentDate f) (status f) (paidAmount f) (remainingAmount f)
    (arrears f) (default (recordedBy f) v).
Proof.
  cbv zeta. destruct v; cbn [assign default id];
    [apply fields_set_recordedBy|symmetry; apply fee_eta].
Qed.

Lemma fields_assign_status v d :
  let f := fields d in
  fields (assign set_status v d)
  =
    mkFee (_id f) (student f) (feeType f) (amount f) (dueDate f)
    (paymentDate f) (default (status f) v) (paidAmount f)
    (remainingAmount f) (arrears f) (recordedBy f).
Proof.
  cbv zeta. destruct v; cbn [assign default id];
    [rewrite fields_set_status; reflexivity|symmetry; apply fee_eta].
Qed.

Lemma fields_assign_paidAmount v d :
  let f := fields d in
  fields (assign set_paidAmount v d)
  =
    mkFee (_id f) (student f) (feeType f) (amount f) (dueDate f)
    (paymentDate f) (status f) (default (paidAmount f) v)
    (remainingAmount f) (arrears f) (recordedBy f).
Proof.
  cbv zeta. destruct v; cbn [assign default id];
    [rewrite fields_set_paidAmount; reflexivity|symmetry; apply fee_eta].
Qed.

Lemma fields_assign_remainingAmount v d :
  let f := fields d in
  fields (assign set_remainingAmount v d)
  =
    mkFee (_id f) (student f) (feeType f) (amount f) (dueDate f)
    (paymentDate f) (status f) (paidAmount f) (default
    (remainingAmount f) v) (arrears f) (recordedBy f).
Proof.
  cbv zeta. destruct v; cbn [assign default id];
    [rewrite fields_set_remainingAmount; reflexivity|symmetry; apply fee_eta].
Qed.

Lemma fields_assign_paymentDate v d :
  let f := fields d in
  fields (assign (λ v, set_paymentDate (Some v)) v d)
  =
    mkFee (_id f) (student f) (feeType f) (amount f) (dueDate f)
    (match v with Some a => Some a | None => paymentDate f end)
    (status f) (paidAmount f) (remainingAmount f) (arrears f)
    (recordedBy f).
Proof.
  cbv zeta. destruct v; cbn [assign];
    [rewrite fields_set_paymentDate; reflexivity|symmetry; apply fee_eta].
Qed.

Lemma fields_assign_feeType v d :
  let f := fields d in
  fields (assign_feeType v d)
  =
    mkFee (_id f) (student f) (match v with Some (ft_one t) => t | _
    => feeType f end) (amount f) (dueDate f) (paymentDate f) (status
    f) (paidAmount f) (remainingAmount f) (arrears f) (recordedBy f).
Proof.
  cbv zeta. destruct v as [[t| |]|]; cbn [assign_feeType];
    [apply fields_set_feeType|symmetry; apply fee_eta..].
Qed.

Local Ltac step lem :=
  rewrite lem;
  cbv zeta;
  cbn [_id student feeType amount dueDate paymentDate status paidAmount
       remainingAmount arrears recordedBy].

(** The assignments of an update write the keys of the body and nothing
    else. *)
Lemma fields_assign_body b d :
  fields (assign_body b d) = apply_body b (type_after b (fields d)) (fields d).
Proof.
  unfold assign_body, apply_body, type_after.
  step fields_assign_recordedBy. step fields_assign_arrears.
  step fields_assign_remainingAmount. step fields_assign_paidAmount.
  step fields_assign_status. step fields_assign_paymentDate.
  step fields_assign_dueDate. step fields_assign_amount.
  step fields_assign_feeType. step fields_assign_student.
  reflexivity.
Qed.

Local Ltac other_mark :=
  intros;
  match goal with |- context [assign _ ?v _] => destruct v end;
  cbn [assign]; [|reflexivity];
  unfold set_student, set_feeType, set_amount, set_dueDate, set_arrears,
    set_recordedBy, set_paymentDate, set_status, set_paidAmount,
    set_remainingAmount;
  case_bool_decide; [reflexivity|];
  rewrite isModified_mark; reflexivity.

Lemma paid_mark_assign_recordedBy v d :
  isModified p_paidAmount (assign set_recordedBy v d)
  = isModified p_paidAmount d.
Proof. other_mark. Qed.

Lemma paid_mark_assign_arrears v d :
  isModified p_paidAmount (assign set_arrears v d)
  = isModified p_paidAmount d.
Proof. other_mark. Qed.

Lemma paid_mark_assign_remainingAmount v d :
  isModified p_paidAmount (assign set_remainingAmount v d)
  = isModified p_paidAmount d.
Proof. other_mark. Qed.

Lemma paid_mark_assign_status v d :
  isModified p_paidAmount (assign set_status v d)
  = isModified p_paidAmount d.
Proof. other_mark. Qed.

Lemma paid_mark_assign_paymentDate v d :
  isModified p_paidAmount (assign (λ v, set_paymentDate (Some v)) v d)
  = isModified p_paidAmount d.
Proof. other_mark. Qed.

Lemma paid_mark_assign_dueDate v d :
  isModified p_paidAmount (assign set_dueDate v d)
  = isModified p_paidAmount d.
Proof. other_mark. Qed.

Lemma paid_mark_assign_amount v d :
  isModified p_paidAmount (assign set_amount v d)
  = isModified p_paidAmount d.
Proof. other_mark. Qed.

Lemma paid_mark_assign_student v d :
  isModified p_paidAmount (assign set_student v d)
  = isModified p_paidAmount d.
Proof. other_mark. Qed.

Lemma paid_mark_assign_feeType v d :
  isModified p_paidAmount (assign_feeType v d) = isModified p_paidAmount d.
Proof.
  destruct v as [[t| |]|]; cbn [assign_feeType]; try reflexivity.
  unfold set_feeType. case_bool_decide; [reflexivity|].
  rewrite isModified_mark. reflexivity.
Qed.

Lemma status_mark_assign_paymentDate v d :
  isModified p_status (assign (λ v, set_paymentDate (Some v)) v d)
  = isModified p_status d.
Proof. other_mark. Qed.

Lemma status_mark_assign_dueDate v d :
  isModified p_status (assign set_dueDate v d) = isModified p_status d.
Proof. other_mark. Qed.

Lemma status_mark_assign_amount v d :
  isModified p_status (assign set_amount v d) = isModified p_status d.
Proof. other_mark. Qed.

Lemma status_mark_assign_student v d :
  isModified p_status (assign set_student v d) = isModified p_status d.
Proof. other_mark. Qed.

Lemma status_mark_assign_feeType v d :
  isModified p_status (assign_feeType v d) = isModified p_status d.
Proof.
  destruct v as [[t| |]|]; cbn [assign_feeType]; try reflexivity.
  unfold set_feeType. case_bool_decide; [reflexivity|].
  rewrite isModified_mark. reflexivity.
Qed.

Lemma status_mark_assign_recordedBy v d :
  isModified p_status (assign set_recordedBy v d) = isModified p_status d.
Proof. other_mark. Qed.

Lemma status_mark_assign_arrears v d :
  isModified p_status (assign set_arrears v d) = isModified p_status d.
Proof. other_mark. Qed.

Lemma status_mark_assign_remainingAmount v d :
  isModified p_status (assign set_remainingAmount v d)
  = isModified p_status d.
Proof. other_mark. Qed.

Lemma status_mark_assign_paidAmount v d :
  isModified p_status (assign set_paidAmount v d) = isModified p_status d.
Proof. other_mark. Qed.

(** A loaded document counts [paidAmount] as modified after the
    assignments when the body carries a paid amount other than the
    stored one, and likewise [status]. *)
Lemma paid_mark_assign_body b f :
  isModified p_paidAmount (assign_body b (mkDoc f []))
  = match b_paidAmount b with
    | Some v => negb (bool_decide (paidAmount f = v))
    | None => false
    end.
Proof.
  unfold assign_body.
  rewrite paid_mark_assign_recordedBy, paid_mark_assign_arrears,
    paid_mark_assign_remainingAmount.
  set (d := assign set_status _ _).
  assert (Hd : paidAmount (fields d) = paidAmount f
               ∧ isModified p_paidAmount d = false).
  { unfold d. split.
    - step fields_assign_status. step fields_assign_paymentDate.
      step fields_assign_dueDate. step fields_assign_amount.
      step fields_assign_feeType. step fields_assign_student.
      reflexivity.
    - rewrite paid_mark_assign_status, paid_mark_assign_paymentDate,
        paid_mark_assign_dueDate, paid_mark_assign_amount,
        paid_mark_assign_feeType, paid_mark_assign_student.
      reflexivity. }
  destruct Hd as [Hp Hm]. clearbody d.
  destruct (b_paidAmount b) as [v|]; cbn [assign]; [|exact Hm].
  unfold set_paidAmount. rewrite Hp.
  case_bool_decide; cbn [negb]; [exact Hm|].
  rewrite isModified_mark. reflexivity.
Qed.

Lemma status_mark_assign_body b f :
  isModified p_status (assign_body b (mkDoc f []))
  = match b_status b with
    | Some v => negb (bool_decide (status f = v))
    | None => false
    end.
Proof.
  unfold assign_body.
  rewrite status_mark_assign_recordedBy, status_mark_assign_arrears,
    status_mark_assign_remainingAmount, status_mark_assign_paidAmount.
  set (d := assign (λ v, set_paymentDate (Some v)) _ _).
  assert (Hd : status (fields d) = status f
               ∧ isModified p_status d = false).
  { unfold d. split.
    - step fields_assign_paymentDate.
      step fields_assign_dueDate. step fields_assign_amount.
      step fields_assign_feeType. step fields_assign_student.
      reflexivity.
    - rewrite status_mark_assign_paymentDate,
        status_mark_assign_dueDate, status_mark_assign_amount,
        status_mark_assign_feeType, status_mark_assign_student.
      reflexivity. }
  destruct Hd as [Hp Hm]. clearbody d.
  destruct (b_status b) as [v|]; cbn [assign]; [|exact Hm].
  unfold set_status. rewrite Hp.
  case_bool_decide; cbn [negb]; [exact Hm|].
  rewrite isModified_mark. reflexivity.
Qed.
End AssignFacts.

(** ** Update and deletion of a fee *)

Section UpdateFacts.
Import FeeModel FeeController FeeRoutes HookSummary RouteExamples FeeSpec
  ArrearsSpec.

Lemma Fee_findById_Some id fees fee :
  Fee_findById id fees = Some fee → _id fee = id ∧ fee ∈ fees.
Proof.
  unfold Fee_findById. intros H%head_Some_elem_of.
  by apply (list_elem_of_filter (λ f, _id f = id)) in H.
Qed.

Lemma Fee_findById_None id fees :
  Fee_findById id fees = None ↔ ∀ g, g ∈ fees → _id g ≠ id.
Proof.
  unfold Fee_findById. rewrite head_None.
  rewrite (filter_nil_Forall (λ f, _id f = id)), Forall_forall. done.
Qed.

(** What an update that passes the checks stores and answers. *)
Lemma updateFeeRecord_saved now user id b c fee :
  Fee_findById id (fee_docs c) = Some fee →
  may_change user fee = true →
  type_of_enum (b_feeType b) = true →
  let saved :=
    hook_fields false
      (match b_status b with
       | Some v => negb (bool_decide (status fee = v))
       | None => false
       end)
      (match b_paidAmount b with
       | Some v => negb (bool_decide (paidAmount fee = v))
       | None => false
       end)
      now (apply_body b (type_after b fee) fee) in
  updateFeeRecord now user id b c
  = (mkCollections (store_fee saved (fee_docs c)) (student_docs c),
     mkReply 200 (OneFee saved)).
Proof.
  intros Hfound Hmay Htype. cbv zeta. unfold updateFeeRecord.
  rewrite Hfound, Hmay, Htype. cbn [negb].
  rewrite save_hook_fields, fields_assign_body, paid_mark_assign_body,
    status_mark_assign_body.
  reflexivity.
Qed.

Lemma hook_fields_id isNew ms mp now f :
  _id (hook_fields isNew ms mp now f) = _id f.
Proof. reflexivity. Qed.

Lemma store_fee_ids f fees : _id <$> store_fee f fees = _id <$> fees.
Proof.
  unfold store_fee. rewrite <- list_fmap_compose. apply list_fmap_ext.
  intros i g _. cbn. by case_bool_decide.
Qed.

Lemma store_fee_other f fees g :
  g ∈ fees → _id g ≠ _id f → g ∈ store_fee f fees.
Proof.
  intros Hg Hid. unfold store_fee. apply list_elem_of_fmap.
  exists g. split; [|exact Hg]. by rewrite bool_decide_eq_false_2.
Qed.

(** X9. Whatever the request, [updateFeeRecord] keeps the identifiers of
    the fee collection, in their order, leaves the students alone, and
    leaves every fee with another identifier as it is.  When it does not
    answer 200 nothing changes at all; this is the case, in particular,
    for a user who is neither admin nor principal and recorded no fee of
    the collection. *)
Theorem updateFeeRecord_frame now user id b c :
  let r := updateFeeRecord now user id b c in
  _id <$> fee_docs r.1 = _id <$> fee_docs c
  ∧ student_docs r.1 = student_docs c
  ∧ (∀ g, g ∈ fee_docs c → _id g ≠ id → g ∈ fee_docs r.1)
  ∧ (reply_code r.2 ≠ 200%nat → r.1 = c)
  ∧ (ru_role user ≠ "admin" → ru_role user ≠ "principal" →
     (∀ g, g ∈ fee_docs c → recordedBy g ≠ ru_id user) →
     r.1 = c).
Proof.
  cbv zeta.
  destruct (Fee_findById id (fee_docs c)) as [fee|] eqn:Ef.
  2:{ unfold updateFeeRecord. rewrite Ef. cbn [fst snd reply_code].
      repeat split; try done. }
  destruct (may_change user fee) eqn:Em.
  2:{ unfold updateFeeRecord. rewrite Ef, Em. cbn [fst snd negb reply_code].
      repeat split; try done. }
  destruct (type_of_enum (b_feeType b)) eqn:Et.
  2:{ unfold updateFeeRecord. rewrite Ef, Em, Et.
      cbn [fst snd negb reply_code]. repeat split; try done. }
  rewrite (updateFeeRecord_saved now user id b c fee Ef Em Et).
  cbv zeta. cbn [fst snd fee_docs student_docs reply_code].
  apply Fee_findById_Some in Ef as [Hid Hin].
  split; [apply store_fee_ids|]. split; [reflexivity|].
  split; [|split; [done|]].
  - intros g Hg Hne. apply store_fee_other; [exact Hg|].
    rewrite hook_fields_id. cbn [apply_body _id]. congruence.
  - intros H1 H2 Hall. exfalso.
    unfold may_change in Em. apply negb_true_iff in Em.
    rewrite !bool_decide_eq_true_2 in Em; [done..|by apply Hall].
Qed.

Lemma updateFeeRecord_frame_witness :
  (updateFeeRecord nov_2026 a_teacher 1 (only_amount 1000) school).1 = school.
Proof.
  apply (updateFeeRecord_frame nov_2026 a_teacher 1 (only_amount 1000) school).
  - discriminate.
  - discriminate.
  - intros g Hg. unfold school, sample_fees in Hg. cbn [fee_docs app] in Hg.
    repeat (apply elem_of_cons in Hg as [->|Hg]; [cbn; discriminate|]).
    by apply elem_of_nil in Hg.
Defined.

Lemma overdue_check_agrees now due s :
  (if negb (bool_decide (s = paid)) && (due <? now)
      && negb (bool_decide (s = overdue))
   then overdue else s)
  = after_overdue_check now due s.
Proof.
  unfold after_overdue_check.
  destruct (decide (s ≠ paid ∧ due < now ∧ s ≠ overdue)) as [H|H];
    [rewrite (bool_decide_eq_true_2 _ H)
    |rewrite (bool_decide_eq_false_2 _ H)].
  - destruct H as (H1 & H2 & H3).
    rewrite !bool_decide_eq_false_2 by done.
    assert (Hlt : (due <? now) = true) by lia. by rewrite Hlt.
  - destruct (decide (s = paid)) as [->|H1]; [reflexivity|].
    destruct (decide (s = overdue)) as [->|H3];
      [by rewrite andb_false_r|].
    destruct (Z.ltb_spec due now) as [H2|H2];
      [tauto|by rewrite andb_false_r].
Qed.

(** X10. An update whose body carries only an amount stores the new
    amount and recomputes nothing from it: the paid amount, the
    remaining amount and the payment date stay as they were (so the
    remaining amount no longer is the amount less the paid amount when
    it was before), and the status changes only by the overdue check. *)
Theorem updateFeeRecord_amount_only now user id v c fee :
  Fee_findById id (fee_docs c) = Some fee →
  may_change user fee = true →
  let saved :=
    mkFee (_id fee) (student fee) (feeType fee) v (dueDate fee)
          (paymentDate fee)
          (after_overdue_check now (dueDate fee) (status fee))
          (paidAmount fee) (remainingAmount fee) (arrears fee)
          (recordedBy fee) in
  updateFeeRecord now user id (only_amount v) c
  = (mkCollections (store_fee saved (fee_docs c)) (student_docs c),
     mkReply 200 (OneFee saved)).
Proof.
  intros Hfound Hmay. cbv zeta.
  rewrite (updateFeeRecord_saved now user id (only_amount v) c fee Hfound
             Hmay eq_refl).
  cbv zeta.
  cbn [only_amount b_status b_paidAmount].
  unfold hook_fields, apply_body, type_after. cbv zeta.
  cbn [only_amount b_student b_feeType b_amount b_dueDate b_paymentDate
       b_status b_paidAmount b_remainingAmount b_arrears b_recordedBy
       default Datatypes.id andb orb put_payment _id student feeType amount
       dueDate paymentDate status paidAmount remainingAmount arrears
       recordedBy].
  rewrite overdue_check_agrees. reflexivity.
Qed.

Lemma updateFeeRecord_amount_only_witness :
  let fee := mkFee 2 1 tuition 900 (Calendar.Date_ymd 2026 9 31) None
                   partial 700 200 500 9 in
  (updateFeeRecord nov_2026 an_admin 2 (only_amount 1000) school).2
  = mkReply 200
      (OneFee (mkFee 2 1 tuition 1000 (Calendar.Date_ymd 2026 9 31) None
                     overdue 700 200 500 9)).
Proof.
  cbv zeta.
  rewrite (updateFeeRecord_amount_only nov_2026 an_admin 2 1000 school
             (mkFee 2 1 tuition 900 (Calendar.Date_ymd 2026 9 31) None
                    partial 700 200 500 9)).
  - vm_compute. reflexivity.
  - vm_compute. reflexivity.
  - vm_compute. reflexivity.
Defined.

(** What an update that carries only a paid amount stores. *)
Lemma payment_update_saved now user id v c fee :
  Fee_findById id (fee_docs c) = Some fee →
  may_change user fee = true →
  let derived := status_of_payment v (amount fee) in
  let saved :=
    if bool_decide (paidAmount fee = v) then
      mkFee (_id fee) (student fee) (feeType fee) (amount fee)
            (dueDate fee) (paymentDate fee)
            (after_overdue_check now (dueDate fee) (status fee))
            (paidAmount fee) (remainingAmount fee) (arrears fee)
            (recordedBy fee)
    else
      mkFee (_id fee) (student fee) (feeType fee) (amount fee)
            (dueDate fee)
            (if bool_decide (derived = paid)
             then Some (default now (paymentDate fee))
             else paymentDate fee)
            (after_overdue_check now (dueDate fee) derived)
            v (amount fee - v) (arrears fee) (recordedBy fee) in
  updateFeeRecord now user id (only_paidAmount v) c
  = (mkCollections (store_fee saved (fee_docs c)) (student_docs c),
     mkReply 200 (OneFee saved)).
Proof.
  intros Hfound Hmay. cbv zeta.
  rewrite (updateFeeRecord_saved now user id (only_paidAmount v) c fee
             Hfound Hmay eq_refl).
  cbv zeta.
  cbn [only_paidAmount b_status b_paidAmount].
  unfold hook_fields, apply_body, type_after. cbv zeta.
  cbn [only_paidAmount b_student b_feeType b_amount b_dueDate b_paymentDate
       b_status b_paidAmount b_remainingAmount b_arrears b_recordedBy
       default Datatypes.id andb orb put_payment _id student feeType amount
       dueDate paymentDate status paidAmount remainingAmount arrears
       recordedBy].
  rewrite orb_false_r.
  case_bool_decide as Hv; cbn [negb andb];
    rewrite overdue_check_agrees; [by rewrite Hv|reflexivity].
Qed.

(** X11. An update whose body carries only a paid amount that differs
    from the stored one stores it with the remaining amount
    [amount - paidAmount] and the status derived from the two, [overdue]
    taking the place of [unpaid] and [partial] past the due date; a
    payment date is set, if none is, when the status derived is [paid].
    When the paid amount is the stored one nothing is derived: the fee
    stays as it is but for the overdue check. *)
Theorem updateFeeRecord_payment now user id v c fee :
  Fee_findById id (fee_docs c) = Some fee →
  may_change user fee = true →
  let derived := status_of_payment v (amount fee) in
  let saved :=
    if bool_decide (paidAmount fee = v) then
      mkFee (_id fee) (student fee) (feeType fee) (amount fee)
            (dueDate fee) (paymentDate fee)
            (after_overdue_check now (dueDate fee) (status fee))
            (paidAmount fee) (remainingAmount fee) (arrears fee)
            (recordedBy fee)
    else
      mkFee (_id fee) (student fee) (feeType fee) (amount fee)
            (dueDate fee)
            (if bool_decide (derived = paid)
             then Some (default now (paymentDate fee))
             else paymentDate fee)
            (after_overdue_check now (dueDate fee) derived)
            v (amount fee - v) (arrears fee) (recordedBy fee) in
  updateFeeRecord now user id (only_paidAmount v) c
  = (mkCollections (store_fee saved (fee_docs c)) (student_docs c),
     mkReply 200 (OneFee saved)).
Proof. exact (payment_update_saved now user id v c fee). Qed.

Lemma updateFeeRecord_payment_witness :
  (updateFeeRecord nov_2026 an_admin 1 (only_paidAmount 200) school).2
  = mkReply 200
      (OneFee (mkFee 1 1 tuition 500 (Calendar.Date_ymd 2026 8 30) None
                     overdue 200 300 0 9)).
Proof.
  rewrite (updateFeeRecord_payment nov_2026 an_admin 1 200 school
             (mkFee 1 1 tuition 500 (Calendar.Date_ymd 2026 8 30) None
                    unpaid 0 500 0 9)).
  - vm_compute. reflexivity.
  - vm_compute. reflexivity.
  - vm_compute. reflexivity.
Defined.

Lemma filter_store_fee (Q : Fee → Prop) `{∀ f, Decision (Q f)} saved fees :
  ¬ Q saved →
  filter Q (store_fee saved fees)
  = filter Q (filter (λ g, _id g ≠ _id saved) fees).
Proof.
  intros Hs. unfold store_fee.
  induction fees as [|g l IH]; [reflexivity|].
  rewrite fmap_cons. case_bool_decide as Hid.
  - rewrite (filter_cons_False Q) by exact Hs.
    rewrite (filter_cons_False (λ g, _id g ≠ _id saved)) by tauto.
    exact IH.
  - rewrite (filter_cons_True (λ g, _id g ≠ _id saved)) by exact Hid.
    destruct (decide (Q g)).
    + rewrite !(filter_cons_True Q) by done. f_equal. exact IH.
    + rewrite !(filter_cons_False Q) by done. exact IH.
Qed.

(** X12. Paying a fee in full takes it out of the arrears.  After an
    update that sets the paid amount of a fee to its amount (not 0, and
    not what was stored as paid before), [calculateStudentArrears]
    gives, for every student and at every later clock reading, what it
    gives on the collection without that fee. *)
Theorem full_payment_clears_arrears now user id c fee now' studentId :
  Fee_findById id (fee_docs c) = Some fee →
  may_change user fee = true →
  amount fee ≠ 0 → paidAmount fee ≠ amount fee →
  calculateStudentArrears now'
    (fee_docs (updateFeeRecord now user id (only_paidAmount (amount fee)) c).1)
    studentId
  = calculateStudentArrears now'
      (filter (λ g, _id g ≠ id) (fee_docs c)) studentId.
Proof.
  intros Hfound Hmay Hamount Hpaid.
  rewrite (payment_update_saved now user id (amount fee) c fee Hfound
             Hmay).
  cbv zeta. rewrite (bool_decide_eq_false_2 _ Hpaid).
  cbn [fst fee_docs].
  assert (Hst : status_of_payment (amount fee) (amount fee) = paid).
  { unfold status_of_payment.
    destruct (Z.eqb_spec (amount fee) 0); [done|].
    by rewrite Z.ltb_irrefl. }
  rewrite Hst. cbn [bool_decide decide_rel].
  set (saved := mkFee _ _ _ _ _ _ _ _ _ _ _).
  assert (Hsaved : status saved = paid).
  { unfold saved. cbn [status]. unfold after_overdue_check.
    by rewrite bool_decide_eq_false_2 by tauto. }
  apply Fee_findById_Some in Hfound as [Hid _].
  assert (Hsid : _id saved = id) by exact Hid.
  unfold calculateStudentArrears.
  destruct studentId as [sid|]; [|reflexivity].
  destruct ((_ =? 4) && _); [reflexivity|]. cbv zeta.
  rewrite filter_store_fee; [by rewrite Hsid|].
  unfold previous_fees_query. rewrite Hsaved.
  intros (_ & _ & H). rewrite !elem_of_cons, elem_of_nil in H.
  by destruct H as [H|[H|[H|H]]].
Qed.

Lemma full_payment_clears_arrears_witness :
  calculateStudentArrears nov_2026
    (fee_docs (updateFeeRecord nov_2026 an_admin 1 (only_paidAmount 500)
                               school).1) (Some 1%nat)
  = calculateStudentArrears nov_2026
      (filter (λ g, _id g ≠ 1%nat) (fee_docs school)) (Some 1%nat).
Proof.
  apply (full_payment_clears_arrears nov_2026 an_admin 1 school
           (mkFee 1 1 tuition 500 (Calendar.Date_ymd 2026 8 30) None
                  unpaid 0 500 0 9) nov_2026 (Some 1%nat)).
  - vm_compute. reflexivity.
  - vm_compute. reflexivity.
  - cbn. lia.
  - cbn. lia.
Defined.

(** X13. A deletion that answers 200 removes the fee and nothing else:
    the collection is what it was without the documents of that
    identifier, no fee is found under it afterwards, and a second
    deletion answers 404.  A deletion that does not answer 200 changes
    nothing. *)
Theorem deleteFeeRecord_removes user user' id c :
  let r := deleteFeeRecord user id c in
  (reply_code r.2 = 200%nat →
   fee_docs r.1 = filter (λ g, _id g ≠ id) (fee_docs c)
   ∧ student_docs r.1 = student_docs c
   ∧ Fee_findById id (fee_docs r.1) = None
   ∧ reply_code (deleteFeeRecord user' id r.1).2 = 404%nat)
  ∧ (reply_code r.2 ≠ 200%nat → r.1 = c).
Proof.
  cbv zeta.
  destruct (Fee_findById id (fee_docs c)) as [fee|] eqn:Ef.
  2:{ unfold deleteFeeRecord. rewrite Ef. cbn [fst snd reply_code].
      split; [discriminate|reflexivity]. }
  destruct (may_change user fee) eqn:Em.
  2:{ unfold deleteFeeRecord. rewrite Ef, Em. cbn [negb fst snd reply_code].
      split; [discriminate|reflexivity]. }
  assert (Hr : deleteFeeRecord user id c
               = (mkCollections (filter (λ g, _id g ≠ id) (fee_docs c))
                                (student_docs c),
                  mkReply 200 NoData)).
  { unfold deleteFeeRecord. rewrite Ef, Em. cbn [negb].
    by apply Fee_findById_Some in Ef as [-> _]. }
  rewrite Hr. cbn [fst snd reply_code fee_docs student_docs].
  split; [intros _|done].
  assert (Hnone : Fee_findById id (filter (λ g, _id g ≠ id) (fee_docs c))
                  = None).
  { apply Fee_findById_None. intros g Hg.
    by apply (list_elem_of_filter (λ g, _id g ≠ id)) in Hg as [? _]. }
  split; [reflexivity|]. split; [reflexivity|]. split; [exact Hnone|].
  unfold deleteFeeRecord. cbn [fee_docs]. by rewrite Hnone.
Qed.

Lemma deleteFeeRecord_removes_witness :
  fee_docs (deleteFeeRecord an_admin 4 school).1
  = filter (λ g, _id g ≠ 4%nat) (fee_docs school)
  ∧ reply_code (deleteFeeRecord a_principal 4
                  (deleteFeeRecord an_admin 4 school).1).2 = 404%nat.
Proof.
  destruct (deleteFeeRecord_removes an_admin a_principal 4 school)
    as [H _].
  destruct H as (H1 & _ & _ & H4); [vm_compute; reflexivity|].
  split; [exact H1|exact H4].
Defined.

(** X14. A user with the role [student] is answered 200 by
    [getFeeRecord] only with a fee of the student profile of that
    user's account: the fee stored under the identifier asked for, whose
    student is the profile found for the account. *)
Theorem getFeeRecord_own_fee_only user id c :
  ru_role user = "student" →
  reply_code (getFeeRecord user id c) = 200%nat →
  ∃ fee profile,
    getFeeRecord user id c = mkReply 200 (OneFee fee)
    ∧ Fee_findById id (fee_docs c) = Some fee
    ∧ Student_findByUser (ru_id user) (student_docs c) = Some profile
    ∧ student fee = sd_id profile.
Proof.
  intros Hrole. unfold getFeeRecord.
  destruct (Fee_findById id (fee_docs c)) as [fee|]; [|discriminate].
  rewrite (bool_decide_eq_true_2 _ Hrole).
  destruct (Student_findByUser (ru_id user) (student_docs c))
    as [profile|]; [|discriminate].
  destruct (Student_findById (student fee) (student_docs c))
    as [populated|] eqn:Ep; [|discriminate].
  case_bool_decide as Hsame; [discriminate|]. intros _.
  exists fee, profile. repeat split.
  unfold Student_findById in Ep. apply head_Some_elem_of in Ep.
  apply (list_elem_of_filter (λ s, sd_id s = student fee)) in Ep as [Hp _].
  destruct (decide (sd_id populated = sd_id profile)); [congruence|done].
Qed.

Lemma getFeeRecord_own_fee_only_witness :
  ∃ fee profile,
    getFeeRecord student_one 1 school = mkReply 200 (OneFee fee)
    ∧ Fee_findById 1 (fee_docs school) = Some fee
    ∧ Student_findByUser (ru_id student_one) (student_docs school)
      = Some profile
    ∧ student fee = sd_id profile.
Proof.
  apply (getFeeRecord_own_fee_only student_one 1 school);
    [reflexivity|vm_compute; reflexivity].
Defined.
End UpdateFacts.

(** ** Creation of a fee *)

Section CreateFacts.
Import FeeModel Calendar FeeController FeeRoutes HookSummary RouteExamples
  ArrearsSpec.

Local Open Scope nat_scope.

Lemma fresh_id_above (fees : FeeStore) f :
  f ∈ fees → _id f < fresh_id fees.
Proof.
  unfold fresh_id. induction fees as [|g l IH]; [by intros ?%elem_of_nil|].
  rewrite elem_of_cons. cbn [fmap list_fmap foldr].
  intros [->|Hf]; [lia|]. specialize (IH Hf). lia.
Qed.

Lemma NoDup_snoc_fresh (fees : FeeStore) f :
  NoDup (_id <$> fees) → _id f = fresh_id fees →
  NoDup (_id <$> (fees ++ [f])).
Proof.
  intros Hnd Hid. rewrite fmap_app. apply NoDup_app.
  split; [exact Hnd|]. split; [|apply NoDup_singleton].
  intros x Hx Hx'. apply list_elem_of_singleton in Hx'. subst x.
  apply list_elem_of_fmap in Hx as (g & Hg & Hin).
  pose proof (fresh_id_above fees g Hin). lia.
Qed.

(** The query of the existence check. *)
Local Abbreviation in_month sid t due :=
  (month_fee_query sid t (startOfMonth due) (endOfMonth due)).

Lemma upsert_update now b t fees sid due e :
  b_student b = Some sid → b_dueDate b = Some due →
  Fee_findOne (in_month sid t due) fees = Some e →
  upsert now b t fees = Some (Fee_updateById (_id e) b t fees).
Proof. intros Hs Hd He. unfold upsert. by rewrite Hs, Hd, He. Qed.

(** The record a creation appends. *)
Lemma upsert_create now b t fees sid due a rid :
  b_student b = Some sid → b_dueDate b = Some due →
  b_amount b = Some a → b_recordedBy b = Some rid →
  Fee_findOne (in_month sid t due) fees = None →
  ∃ saved,
    upsert now b t fees = Some (Some saved, fees ++ [saved])
    ∧ _id saved = fresh_id fees ∧ student saved = sid
    ∧ feeType saved = t ∧ dueDate saved = due.
Proof.
  intros Hs Hd Ha Hr He. unfold upsert, Fee_create_body.
  rewrite Hs, Hd, He, Ha, Hr. cbv zeta.
  eexists. split; [reflexivity|].
  rewrite save_hook_fields. cbn [fields]. by repeat split.
Qed.

Lemma Fee_updateById_ids id b t fees :
  _id <$> (Fee_updateById id b t fees).2 = _id <$> fees.
Proof.
  unfold Fee_updateById. cbn [snd].
  rewrite <- list_fmap_compose. apply list_fmap_ext.
  intros i f _. cbn. by case_bool_decide.
Qed.

(** An update by the identifier of a stored fee returns a fee with the
    student, the type and the due date of the request, and that fee is
    in the collection. *)
Lemma Fee_updateById_found b t fees sid due e :
  b_student b = Some sid → b_dueDate b = Some due → e ∈ fees →
  ∃ f, (Fee_updateById (_id e) b t fees).1 = Some f
       ∧ student f = sid ∧ feeType f = t ∧ dueDate f = due
       ∧ f ∈ (Fee_updateById (_id e) b t fees).2.
Proof.
  intros Hs Hd He. unfold Fee_updateById. cbn [fst snd].
  destruct (Fee_findById (_id e) fees) as [g|] eqn:Eg.
  - apply Fee_findById_Some in Eg as [Hid Hg].
    exists (apply_body b t g). split; [reflexivity|].
    unfold apply_body. cbn [student feeType dueDate]. rewrite Hs, Hd.
    repeat split. apply list_elem_of_fmap. exists g.
    split; [|exact Hg]. by rewrite bool_decide_eq_true_2.
  - exfalso. rewrite Fee_findById_None in Eg. by apply (Eg e He).
Qed.

Lemma findOne_is_Some (Q : Fee → Prop) `{∀ f, Decision (Q f)} fees f :
  f ∈ fees → Q f → is_Some (Fee_findOne Q fees).
Proof.
  intros Hf HQ. unfold Fee_findOne.
  destruct (head (filter Q fees)) as [g|] eqn:Eg; [eauto|].
  apply head_None in Eg. exfalso.
  by eapply (filter_nil_not_elem_of _ _ f Eg).
Qed.

Lemma Fee_findOne_snoc_None (Q : Fee → Prop) `{∀ f, Decision (Q f)} l x :
  Fee_findOne Q l = None → ¬ Q x → Fee_findOne Q (l ++ [x]) = None.
Proof.
  unfold Fee_findOne, FeeStore. intros Hl%head_None Hx.
  rewrite (filter_app Q), Hl, app_nil_l.
  by rewrite (filter_cons_False Q).
Qed.

(** What [upsert] answers, when it answers: a fee with the student, the
    type and the due date of the request that is in the collection
    afterwards; either the fee found by the existence check was updated,
    or there was none and the fee answered was appended. *)
Lemma upsert_result now b t fees sid due r fees' :
  b_student b = Some sid → b_dueDate b = Some due →
  upsert now b t fees = Some (r, fees') →
  ∃ f, r = Some f ∧ student f = sid ∧ feeType f = t ∧ dueDate f = due
       ∧ f ∈ fees'
       ∧ ((∃ e, Fee_findOne (in_month sid t due) fees = Some e
                ∧ fees' = (Fee_updateById (_id e) b t fees).2)
          ∨ (fees' = fees ++ [f] ∧ _id f = fresh_id fees
             ∧ Fee_findOne (in_month sid t due) fees = None)).
Proof.
  intros Hs Hd Hu.
  destruct (Fee_findOne (in_month sid t due) fees) as [e|] eqn:Ee.
  - rewrite (upsert_update now b t fees sid due e Hs Hd Ee) in Hu.
    apply Fee_findOne_elem_of in Ee as [_ He].
    destruct (Fee_updateById_found b t fees sid due e Hs Hd He)
      as (f & Hf & H1 & H2 & H3 & Hin).
    apply (inj Some) in Hu.
    rewrite Hu in Hf, Hin. cbn [fst snd] in Hf, Hin.
    exists f. repeat split; try done.
    left. exists e. split; [reflexivity|]. by rewrite Hu.
  - unfold upsert in Hu. rewrite Hs, Hd, Ee in Hu.
    unfold Fee_create_body in Hu. rewrite Hs, Hd in Hu.
    destruct (b_amount b) as [a|]; [|discriminate].
    destruct (b_recordedBy b) as [rid|]; [|discriminate].
    cbv zeta in Hu. injection Hu as <- <-.
    eexists. split; [reflexivity|].
    rewrite save_hook_fields. cbn [fields].
    repeat split; [apply elem_of_app; right; constructor|].
    right. by repeat split.
Qed.

(** With an amount and a recorder in the body, [upsert] answers. *)
Lemma upsert_total now b t fees sid due a rid :
  b_student b = Some sid → b_dueDate b = Some due →
  b_amount b = Some a → b_recordedBy b = Some rid →
  ∃ r fees', upsert now b t fees = Some (r, fees').
Proof.
  intros Hs Hd Ha Hr.
  destruct (Fee_findOne (in_month sid t due) fees) as [e|] eqn:Ee.
  - rewrite (upsert_update now b t fees sid due e Hs Hd Ee).
    destruct (Fee_updateById (_id e) b t fees) as [r fees']. eauto.
  - destruct (upsert_create now b t fees sid due a rid Hs Hd Ha Hr Ee)
      as (saved & Hu & _). eauto.
Qed.

(** [upsert] keeps the identifiers distinct, keeps every fee of another
    type, and adds at most one document. *)
Lemma upsert_keeps now b t fees sid due r fees' :
  b_student b = Some sid → b_dueDate b = Some due →
  upsert now b t fees = Some (r, fees') →
  NoDup (_id <$> fees) →
  NoDup (_id <$> fees')
  ∧ (∀ g, g ∈ fees → feeType g ≠ t → g ∈ fees')
  ∧ length fees ≤ length fees' ≤ length fees + 1.
Proof.
  intros Hs Hd Hu Hnd.
  destruct (upsert_result now b t fees sid due r fees' Hs Hd Hu)
    as (f & Hr & _ & _ & _ & _ & [(e & He & Hfees)|(Hfees & Hid & _)]).
  - pose proof (Fee_updateById_ids (_id e) b t fees) as Hids.
    rewrite <- Hfees in Hids. split; [by rewrite Hids|]. split.
    + intros g Hg Hty. rewrite Hfees. unfold Fee_updateById. cbn [snd].
      apply list_elem_of_fmap. exists g. split; [|exact Hg].
      apply Fee_findOne_elem_of in He as [(_ & Hte & _) Hin].
      rewrite bool_decide_eq_false_2; [reflexivity|].
      intros Hsame. apply Hty.
      by rewrite (same_id_same_fee fees e g Hnd Hin Hg Hsame).
    + apply (f_equal length) in Hids. rewrite !length_fmap in Hids. lia.
  - subst fees'. split; [by apply NoDup_snoc_fresh|]. split.
    + intros g Hg _. apply elem_of_app. by left.
    + rewrite length_app. cbn. lia.
Qed.

Lemma completed_body_keys now user b fees :
  let b' := completed_body now user b fees in
  b_student b' = b_student b ∧ b_feeType b' = b_feeType b
  ∧ b_amount b' = b_amount b ∧ b_dueDate b' = b_dueDate b
  ∧ b_recordedBy b' = Some (ru_id user).
Proof. by repeat split. Qed.

(** The create route for a fee type of the enumeration and a student
    that exists. *)
Lemma createFeeRecord_one now user b c sid t s :
  b_student b = Some sid → b_feeType b = Some (ft_one t) →
  Student_findById sid (student_docs c) = Some s →
  createFeeRecord now user b c
  = match upsert now (completed_body now user b (fee_docs c)) t
                 (fee_docs c) with
    | Some (Some fee, fees') =>
        (mkCollections fees' (student_docs c), mkReply 201 (OneFee fee))
    | Some (None, fees') =>
        (mkCollections fees' (student_docs c), mkReply 201 NoData)
    | None => (c, mkReply 400 Thrown)
    end.
Proof.
  intros Hs Ht Hfound. unfold createFeeRecord. rewrite Hs, Hfound.
  cbv zeta. cbn [completed_body b_feeType]. by rewrite Ht.
Qed.

(** X15. A repeated request does not add a fee.  When [createFeeRecord]
    has answered 201 to a request for one fee type whose due date (1970
    or later) is not after the midnight that begins the last day of its
    month, the same request made again, by any user at any time, is
    answered 201 with a fee of that student, type and due date, and the
    collection keeps its identifiers: the fee found by the existence
    check is updated. *)
Theorem createFeeRecord_repeated now1 now2 user1 user2 b c sid t due :
  b_student b = Some sid → b_feeType b = Some (ft_one t) →
  b_dueDate b = Some due →
  (0 <= due)%Z → (due <= endOfMonth due)%Z →
  reply_code (createFeeRecord now1 user1 b c).2 = 201 →
  let c1 := (createFeeRecord now1 user1 b c).1 in
  let r2 := createFeeRecord now2 user2 b c1 in
  (∃ fee, r2.2 = mkReply 201 (OneFee fee)
          ∧ student fee = sid ∧ feeType fee = t ∧ dueDate fee = due)
  ∧ _id <$> fee_docs r2.1 = _id <$> fee_docs c1
  ∧ student_docs r2.1 = student_docs c.
Proof.
  intros Hs Ht Hd Hdue0 Hdue H201. cbv zeta.
  destruct (Student_findById sid (student_docs c)) as [s|] eqn:Es.
  2:{ exfalso. revert H201. unfold createFeeRecord. rewrite Hs, Es.
      discriminate. }
  revert H201. rewrite (createFeeRecord_one now1 user1 b c sid t s Hs Ht Es).
  set (b1 := completed_body now1 user1 b (fee_docs c)).
  destruct (completed_body_keys now1 user1 b (fee_docs c))
    as (Hs1 & _ & _ & Hd1 & _).
  fold b1 in Hs1, Hd1. rewrite Hs in Hs1. rewrite Hd in Hd1.
  destruct (upsert now1 b1 t (fee_docs c)) as [[r fees1]|] eqn:Eu;
    [|discriminate].
  destruct (upsert_result now1 b1 t (fee_docs c) sid due r fees1 Hs1 Hd1 Eu)
    as (f & Hr & Hf1 & Hf2 & Hf3 & Hin & _).
  subst r. intros _. cbn [fst snd].
  assert (Hfound : is_Some (Fee_findOne (in_month sid t due) fees1)).
  { apply (findOne_is_Some _ fees1 f Hin).
    unfold month_fee_query. rewrite Hf1, Hf2, Hf3.
    split; [reflexivity|]. split; [reflexivity|].
    unfold startOfMonth.
    split; [exact (month_start_le due Hdue0)|exact Hdue]. }
  destruct Hfound as [e He].
  set (c1 := mkCollections fees1 (student_docs c)).
  rewrite (createFeeRecord_one now2 user2 b c1 sid t s Hs Ht Es).
  set (b2 := completed_body now2 user2 b (fee_docs c1)).
  destruct (completed_body_keys now2 user2 b (fee_docs c1))
    as (Hs2 & _ & _ & Hd2 & _).
  fold b2 in Hs2, Hd2. rewrite Hs in Hs2. rewrite Hd in Hd2.
  cbn [fee_docs student_docs c1].
  rewrite (upsert_update now2 b2 t fees1 sid due e Hs2 Hd2 He).
  apply Fee_findOne_elem_of in He as [_ He].
  destruct (Fee_updateById_found b2 t fees1 sid due e Hs2 Hd2 He)
    as (g & Hg & Hg1 & Hg2 & Hg3 & _).
  pose proof (Fee_updateById_ids (_id e) b2 t fees1) as Hids.
  destruct (Fee_updateById (_id e) b2 t fees1) as [r2 fees2].
  cbn [fst snd] in Hg, Hids. subst r2. cbn [fst snd fee_docs student_docs].
  split; [eauto 6|]. split; [exact Hids|reflexivity].
Qed.

Lemma createFeeRecord_repeated_witness :
  let b := new_fee 1 (ft_one library) 50 jan_15 in
  let c1 := (createFeeRecord jan_15 an_admin b school).1 in
  let r2 := createFeeRecord jan_31_10h a_principal b c1 in
  (∃ fee, r2.2 = mkReply 201 (OneFee fee)
          ∧ student fee = 1 ∧ feeType fee = library
          ∧ dueDate fee = jan_15)
  ∧ _id <$> fee_docs r2.1 = _id <$> fee_docs c1
  ∧ student_docs r2.1 = student_docs school.
Proof.
  apply (createFeeRecord_repeated jan_15 jan_31_10h an_admin a_principal
           (new_fee 1 (ft_one library) 50 jan_15) school 1 library jan_15).
  - reflexivity.
  - reflexivity.
  - reflexivity.
  - vm_compute. discriminate.
  - vm_compute. discriminate.
  - vm_compute. reflexivity.
Defined.

(** X16. A due date on the last day of its month, later than the
    midnight that begins the day, escapes the existence check: the
    check looks for due dates up to that midnight.  When no fee of the
    student and type is due in the month up to then, each request with
    such a due date creates a fee, so that two requests leave two fees
    with that due date. *)
Theorem createFeeRecord_last_day_twice now1 now2 user1 user2 b c sid t due a
    s :
  b_student b = Some sid → b_feeType b = Some (ft_one t) →
  b_dueDate b = Some due → b_amount b = Some a →
  Student_findById sid (student_docs c) = Some s →
  (endOfMonth due < due)%Z →
  Fee_findOne (in_month sid t due) (fee_docs c) = None →
  ∃ f1 f2,
    createFeeRecord now1 user1 b c
    = (mkCollections (fee_docs c ++ [f1]) (student_docs c),
       mkReply 201 (OneFee f1))
    ∧ createFeeRecord now2 user2 b
        (mkCollections (fee_docs c ++ [f1]) (student_docs c))
      = (mkCollections (fee_docs c ++ [f1; f2]) (student_docs c),
         mkReply 201 (OneFee f2))
    ∧ student f1 = sid ∧ student f2 = sid
    ∧ feeType f1 = t ∧ feeType f2 = t
    ∧ dueDate f1 = due ∧ dueDate f2 = due
    ∧ _id f1 ≠ _id f2.
Proof.
  intros Hs Ht Hd Ha Es Hlate Hnone.
  set (b1 := completed_body now1 user1 b (fee_docs c)).
  destruct (completed_body_keys now1 user1 b (fee_docs c))
    as (Hs1 & _ & Ha1 & Hd1 & Hr1).
  fold b1 in Hs1, Ha1, Hd1, Hr1.
  rewrite Hs in Hs1. rewrite Hd in Hd1. rewrite Ha in Ha1.
  destruct (upsert_create now1 b1 t (fee_docs c) sid due a (ru_id user1)
              Hs1 Hd1 Ha1 Hr1 Hnone)
    as (f1 & Hu1 & Hid1 & Hst1 & Hty1 & Hdue1).
  set (c1 := mkCollections (fee_docs c ++ [f1]) (student_docs c)).
  assert (Hnone1 : Fee_findOne (in_month sid t due) (fee_docs c1) = None).
  { cbn [fee_docs c1]. apply Fee_findOne_snoc_None; [exact Hnone|].
    unfold month_fee_query. rewrite Hdue1. lia. }
  set (b2 := completed_body now2 user2 b (fee_docs c1)).
  destruct (completed_body_keys now2 user2 b (fee_docs c1))
    as (Hs2 & _ & Ha2 & Hd2 & Hr2).
  fold b2 in Hs2, Ha2, Hd2, Hr2.
  rewrite Hs in Hs2. rewrite Hd in Hd2. rewrite Ha in Ha2.
  destruct (upsert_create now2 b2 t (fee_docs c1) sid due a (ru_id user2)
              Hs2 Hd2 Ha2 Hr2 Hnone1)
    as (f2 & Hu2 & Hid2 & Hst2 & Hty2 & Hdue2).
  exists f1, f2. fold c1.
  rewrite (createFeeRecord_one now1 user1 b c sid t s Hs Ht Es).
  fold b1. rewrite Hu1.
  rewrite (createFeeRecord_one now2 user2 b c1 sid t s Hs Ht Es).
  fold b2. rewrite Hu2. cbn [fee_docs student_docs c1].
  rewrite <- app_assoc. cbn [app].
  repeat split; try done.
  assert (Hin : f1 ∈ fee_docs c1).
  { cbn [fee_docs c1]. apply elem_of_app. right. constructor. }
  pose proof (fresh_id_above (fee_docs c1) f1 Hin). lia.
Qed.

Lemma createFeeRecord_last_day_twice_witness :
  ∃ f1 f2,
    createFeeRecord jan_15 an_admin
      (new_fee 1 (ft_one library) 50 jan_31_10h) school
    = (mkCollections (fee_docs school ++ [f1]) (student_docs school),
       mkReply 201 (OneFee f1))
    ∧ createFeeRecord jan_15 an_admin
        (new_fee 1 (ft_one library) 50 jan_31_10h)
        (mkCollections (fee_docs school ++ [f1]) (student_docs school))
      = (mkCollections (fee_docs school ++ [f1; f2]) (student_docs school),
         mkReply 201 (OneFee f2))
    ∧ student f1 = 1 ∧ student f2 = 1
    ∧ feeType f1 = library ∧ feeType f2 = library
    ∧ dueDate f1 = jan_31_10h ∧ dueDate f2 = jan_31_10h
    ∧ _id f1 ≠ _id f2.
Proof.
  apply (createFeeRecord_last_day_twice jan_15 jan_15 an_admin an_admin
           (new_fee 1 (ft_one library) 50 jan_31_10h) school 1 library
           jan_31_10h 50 (mkStudentDoc 1 11 true)).
  - reflexivity.
  - reflexivity.
  - reflexivity.
  - reflexivity.
  - reflexivity.
  - vm_compute. reflexivity.
  - vm_compute. reflexivity.
Defined.

(** X17. A request with the fee type [all], for a student that exists,
    with an amount and a due date, is answered 201 with two fees of
    that student and due date, a [tuition] fee and then an [exam] fee;
    both are in the collection afterwards, which has grown by at most
    two documents and whose identifiers are distinct if they were. *)
Theorem createFeeRecord_all now user b c sid due a s :
  b_student b = Some sid → b_feeType b = Some ft_all →
  b_dueDate b = Some due → b_amount b = Some a →
  Student_findById sid (student_docs c) = Some s →
  NoDup (_id <$> fee_docs c) →
  ∃ f1 f2 fees',
    createFeeRecord now user b c
    = (mkCollections fees' (student_docs c),
       mkReply 201 (ManyFees "Created/Updated 2 fee records" [f1; f2]))
    ∧ feeType f1 = tuition ∧ feeType f2 = exam
    ∧ student f1 = sid ∧ student f2 = sid
    ∧ dueDate f1 = due ∧ dueDate f2 = due
    ∧ f1 ∈ fees' ∧ f2 ∈ fees'
    ∧ NoDup (_id <$> fees')
    ∧ length (fee_docs c) ≤ length fees' ≤ length (fee_docs c) + 2.
Proof.
  intros Hs Ht Hd Ha Es Hnd.
  set (b' := completed_body now user b (fee_docs c)).
  destruct (completed_body_keys now user b (fee_docs c))
    as (Hs' & Ht' & Ha' & Hd' & Hr').
  fold b' in Hs', Ht', Ha', Hd', Hr'.
  rewrite Hs in Hs'. rewrite Hd in Hd'. rewrite Ha in Ha'.
  rewrite Ht in Ht'.
  destruct (upsert_total now b' tuition (fee_docs c) sid due a (ru_id user)
              Hs' Hd' Ha' Hr') as (r1 & fees1 & Hu1).
  destruct (upsert_result now b' tuition (fee_docs c) sid due r1 fees1
              Hs' Hd' Hu1) as (f1 & Hr1 & Hst1 & Hty1 & Hdue1 & Hin1 & _).
  destruct (upsert_keeps now b' tuition (fee_docs c) sid due r1 fees1
              Hs' Hd' Hu1 Hnd) as (Hnd1 & _ & Hlen1).
  destruct (upsert_total now b' exam fees1 sid due a (ru_id user)
              Hs' Hd' Ha' Hr') as (r2 & fees2 & Hu2).
  destruct (upsert_result now b' exam fees1 sid due r2 fees2
              Hs' Hd' Hu2) as (f2 & Hr2 & Hst2 & Hty2 & Hdue2 & Hin2 & _).
  destruct (upsert_keeps now b' exam fees1 sid due r2 fees2
              Hs' Hd' Hu2 Hnd1) as (Hnd2 & Hkeep2 & Hlen2).
  exists f1, f2, fees2.
  split.
  { unfold createFeeRecord. rewrite Hs, Es. cbv zeta. fold b'.
    rewrite Ht', Hu1, Hu2, Hr1, Hr2. reflexivity. }
  repeat split; try done; try lia.
  apply Hkeep2; [exact Hin1|]. by rewrite Hty1.
Qed.

Lemma createFeeRecord_all_witness :
  ∃ f1 f2 fees',
    createFeeRecord nov_2026 an_admin
      (new_fee 1 ft_all 50 (Date_ymd 2026 10 30)) school
    = (mkCollections fees' (student_docs school),
       mkReply 201 (ManyFees "Created/Updated 2 fee records" [f1; f2]))
    ∧ feeType f1 = tuition ∧ feeType f2 = exam
    ∧ student f1 = 1 ∧ student f2 = 1
    ∧ dueDate f1 = Date_ymd 2026 10 30 ∧ dueDate f2 = Date_ymd 2026 10 30
    ∧ f1 ∈ fees' ∧ f2 ∈ fees'
    ∧ NoDup (_id <$> fees')
    ∧ length (fee_docs school) ≤ length fees'
      ≤ length (fee_docs school) + 2.
Proof.
  apply (createFeeRecord_all nov_2026 an_admin
           (new_fee 1 ft_all 50 (Date_ymd 2026 10 30)) school 1
           (Date_ymd 2026 10 30) 50 (mkStudentDoc 1 11 true)).
  - reflexivity.
  - reflexivity.
  - reflexivity.
  - reflexivity.
  - reflexivity.
  - apply (bool_decide_unpack _). vm_compute. exact I.
Defined.
End CreateFacts.

(** ** What a student import leaves in the store *)

Section ImportFacts.
Import JsString Parse FeeModel FeeController Store Upload ImportSpec
  EmailSpec ImportExamples ImportSummary StudentImports.

Local Open Scope nat_scope.

Lemma bind_unfold {A B} (m : M A) (k : A → M B) db :
  bind m k db
  = match m db with
    | (db', inl message) => (db', inl message)
    | (db', inr a) => k a db'
    end.
Proof. reflexivity. Qed.












(** X20. A row that passes the checks of the loop and is then refused by
    the Student schema leaves its account behind.  For a row that has
    its required fields, takes a generated address and a roll number no
    student has, and whose gender, lowercased, is none of [male],
    [female], [other]: the row fails with the validation error, no
    profile is stored, and the store holds one more account, of role
    [student], under the generated address. *)
Theorem process_student_leaves_account host uploader
    (row : gmap string string) db :
  filter (λ field, falsy (cell row field) = true) student_requiredFields
  = [] →
  student_email_generated (cell row "email") = true →
  Student_findOne (cell row "rollNumber") db = None →
  toLowerCase (cell row "gender") ∉ ["male"; "female"; "other"] →
  ∃ u,
    process_student host uploader row db
    = (mkDb (users db ++ [u]) (students db) (teachers db) (adminStaff db)
            (supportStaff db) (fees db) (uploadHistory db),
       inl "Student validation failed")
    ∧ user_email u
      = generate_email "std" (cell row "firstName") (cell row "lastName") db
    ∧ user_role u = "student".
Proof.
  intros Hreq Hgen Hroll Hgender.
  unfold process_student. cbv zeta. rewrite Hreq, Hgen.
  unfold bind, throw_if, gets, ret, throw, modify.
  cbn [length Nat.ltb Nat.leb].
  set (g := generate_email _ _ _ db).
  set (student' := <["email" := g]> row).
  assert (Hemail : cell student' "email" = g).
  { unfold cell, student'. by rewrite lookup_insert_eq. }
  assert (Hother : ∀ key, key ≠ "email" → cell student' key = cell row key).
  { intros key Hk. unfold cell, student'. by rewrite lookup_insert_ne. }
  rewrite Hemail, !Hother by done. rewrite Hroll.
  rewrite (bool_decide_eq_false_2 (is_Some None)) by (by intros [? ?]).
  unfold User_create. cbv beta iota zeta. cbn [user_id].
  set (u := mkUser _ _ _ _ g _ _ _ _). exists u.
  split; [|by split].
  unfold Student_create.
  destruct (date_or_now host _) as [dob|]; [|reflexivity].
  destruct (date_or_now host _) as [adm|]; [|reflexivity].
  rewrite (bool_decide_eq_false_2 _ Hgender). cbn [negb].
  by rewrite orb_true_r.
Qed.

Lemma process_student_leaves_account_witness :
  ∃ u,
    process_student sample_host 1 bad_gender_row db_with_ann
    = (mkDb (users db_with_ann ++ [u]) [] [] [] [] [] [],
       inl "Student validation failed")
    ∧ user_email u = "stdobriensmith@schoolms.com"
    ∧ user_role u = "student".
Proof.
  destruct (process_student_leaves_account sample_host 1 bad_gender_row
              db_with_ann) as (u & Hrun & Hemail & Hrole).
  - apply (bool_decide_unpack _). vm_compute. exact I.
  - apply (bool_decide_unpack _). vm_compute. exact I.
  - reflexivity.
  - apply (bool_decide_unpack _). vm_compute. exact I.
  - exists u. split; [exact Hrun|]. split; [|exact Hrole].
    rewrite Hemail. apply (bool_decide_unpack _). vm_compute. exact I.
Defined.
End ImportFacts.

(** ** The matcher and the words matched *)

Section RegexFacts.
Import JsString Regex RegexSpec.

Local Open Scope nat_scope.

Lemma append_eq_nil (a b : string) : a +:+ b = "" → a = "" ∧ b = "".
Proof. destruct a; [by rewrite append_nil_l|by rewrite append_cons]. Qed.

Lemma append_eq_cons (a b : string) c s :
  a +:+ b = String c s →
  (a = "" ∧ b = String c s) ∨ ∃ a', a = String c a' ∧ s = a' +:+ b.
Proof.
  destruct a as [|x a]; [rewrite append_nil_l; auto|].
  rewrite append_cons. intros [= -> <-]. right. eauto.
Qed.

Lemma matches_nil_nullable r s : matches r s → s = "" → nullable r = true.
Proof.
  induction 1 as [|p c Hp|r1 r2 s1 s2 _ IH1 _ IH2|r1 r2 s _ IH
                 |r1 r2 s _ IH| |r s1 s2 _ _ _ _]; intros Hs;
    cbn [nullable]; try done.
  - apply append_eq_nil in Hs as [-> ->]. by rewrite IH1, IH2.
  - by rewrite IH.
  - rewrite IH by done. apply orb_true_r.
Qed.

Lemma nullable_matches r : nullable r = true ↔ matches r "".
Proof.
  split; [|intros H; by apply (matches_nil_nullable r "")].
  induction r as [| |p|r1 IH1 r2 IH2|r1 IH1 r2 IH2|r _]; cbn [nullable];
    try done.
  - intros _. constructor.
  - intros [H1 H2]%andb_prop.
    rewrite <- (append_nil_l ""). constructor; auto.
  - intros [H|H]%orb_prop; [apply matches_alt_l|apply matches_alt_r]; auto.
  - intros _. constructor.
Qed.

Lemma matches_never s : ¬ matches Never s.
Proof. inversion 1. Qed.

Lemma matches_cat_smart r1 r2 s :
  matches (cat r1 r2) s ↔ matches (Cat r1 r2) s.
Proof.
  split.
  - destruct r1, r2; cbn [cat]; intros H; try exact H;
      try (by apply matches_never in H);
      rewrite <- (append_nil_l s); (constructor; [constructor|exact H]).
  - intros H. inversion H as [| |? ? s1 s2 H1 H2| | | |]; subst.
    destruct r1; try (by apply matches_never in H1);
      destruct r2; try (by apply matches_never in H2); cbn [cat];
      try exact H; inversion H1; subst; by rewrite append_nil_l.
Qed.

Lemma matches_alt_smart r1 r2 s :
  matches (alt r1 r2) s ↔ matches (Alt r1 r2) s.
Proof.
  split.
  - destruct r1, r2; cbn [alt]; try done; intros H;
      first [by apply matches_alt_r|by apply matches_alt_l].
  - intros H.
    inversion H as [| | |? ? ? H1|? ? ? H2| |]; subst.
    + destruct r1; try (by apply matches_never in H1);
        destruct r2; cbn [alt]; try exact H; exact H1.
    + destruct r2; try (by apply matches_never in H2);
        destruct r1; cbn [alt]; try exact H; exact H2.
Qed.

(** A non-empty word of a star begins with a non-empty word of its
    body. *)
Lemma matches_star_cons_inv r c s :
  matches (Star r) (String c s) →
  ∃ s1 s2, s = s1 +:+ s2 ∧ matches r (String c s1) ∧ matches (Star r) s2.
Proof.
  intros H. remember (Star r) as r' eqn:Er.
  remember (String c s) as w eqn:Ew. revert s Ew.
  induction H as [| | | | | |r0 s1 s2 H1 _ H2 IH2]; intros s' Ew;
    try discriminate.
  injection Er as ->.
  apply append_eq_cons in Ew as [[-> ->]|(a' & -> & ->)].
  - by apply IH2.
  - eauto.
Qed.

(** The derivative by [c] matches what the expression matches after
    [c]. *)
Lemma deriv_matches c r : ∀ s, matches (deriv c r) s ↔ matches r (String c s).
Proof.
  induction r as [| |p|r1 IH1 r2 IH2|r1 IH1 r2 IH2|r IH]; intros s;
    cbn [deriv].
  - split; inversion 1.
  - split; inversion 1.
  - destruct (p c) eqn:Hp; split.
    + inversion 1. by constructor.
    + inversion 1. constructor.
    + inversion 1.
    + inversion 1; congruence.
  - assert (Hleft : matches (cat (deriv c r1) r2) s
                    ↔ ∃ s1 s2, s = s1 +:+ s2 ∧ matches r1 (String c s1)
                               ∧ matches r2 s2).
    { rewrite matches_cat_smart. split.
      - inversion 1 as [| |? ? s1 s2 H1 H2| | | |]; subst.
        exists s1, s2. by rewrite <- IH1.
      - intros (s1 & s2 & -> & H1 & H2). constructor; [by apply IH1|done]. }
    assert (Hcat : matches (Cat r1 r2) (String c s)
                   ↔ (matches r1 "" ∧ matches r2 (String c s))
                     ∨ ∃ s1 s2, s = s1 +:+ s2 ∧ matches r1 (String c s1)
                                ∧ matches r2 s2).
    { split.
      - inversion 1 as [| |? ? s1 s2 H1 H2 E1 E2| | | |]; subst.
        apply append_eq_cons in E2 as [[-> ->]|(a' & -> & ->)];
          [left|right]; eauto.
      - intros [[H1 H2]|(s1 & s2 & -> & H1 & H2)].
        + rewrite <- (append_nil_l (String c s)). by constructor.
        + rewrite <- append_cons. by constructor. }
    rewrite Hcat. destruct (nullable r1) eqn:Hn.
    + rewrite matches_alt_smart. split.
      * inversion 1; subst.
        -- right. by apply Hleft.
        -- left. split; [by apply nullable_matches|by apply IH2].
      * intros [[H1 H2]|H].
        -- apply matches_alt_r. by apply IH2.
        -- apply matches_alt_l. by apply Hleft.
    + rewrite Hleft. split; [auto|].
      intros [[H1 _]|H]; [|done].
      apply nullable_matches in H1. congruence.
  - rewrite matches_alt_smart. split.
    + inversion 1; subst; [apply matches_alt_l|apply matches_alt_r];
        [by apply IH1|by apply IH2].
    + inversion 1; subst; [apply matches_alt_l|apply matches_alt_r];
        [by apply IH1|by apply IH2].
  - rewrite matches_cat_smart. split.
    + inversion 1 as [| |? ? s1 s2 H1 H2| | | |]; subst.
      rewrite <- append_cons. constructor; [by apply IH|done].
    + intros (s1 & s2 & -> & H1 & H2)%matches_star_cons_inv.
      constructor; [by apply IH|done].
Qed.

(** [test] decides [matches]. *)
Lemma test_matches r s : test r s = true ↔ matches r s.
Proof.
  revert r. induction s as [|c s IH]; intros r; cbn [test].
  - apply nullable_matches.
  - rewrite IH. apply deriv_matches.
Qed.
End RegexFacts.

(** ** Addresses accepted by [isValidEmail] and addresses generated *)

Section EmailFacts.
Import JsString Regex RegexSpec Parse CsvSpec Store Upload EmailSpec.

Local Open Scope nat_scope.

Lemma all_chars_append p a b :
  all_chars p (a +:+ b) = all_chars p a && all_chars p b.
Proof.
  induction a as [|x a IH]; [by rewrite append_nil_l|].
  rewrite append_cons. cbn [all_chars]. by rewrite IH, andb_assoc.
Qed.

Lemma all_chars_impl (p q : ascii → bool) s :
  (∀ c, p c = true → q c = true) →
  all_chars p s = true → all_chars q s = true.
Proof.
  intros Hpq. induction s as [|c s IH]; [done|]. cbn [all_chars].
  intros [Hc Hs]%andb_prop. by rewrite (Hpq c Hc), IH.
Qed.

Lemma all_chars_filter_chars p s : all_chars p (filter_chars p s) = true.
Proof.
  induction s as [|c s IH]; [done|]. cbn [filter_chars].
  destruct (p c) eqn:Hc; [|done]. cbn [all_chars]. by rewrite Hc, IH.
Qed.

Lemma clean_name_word name : all_chars word_char (clean_name name) = true.
Proof.
  unfold clean_name.
  apply (all_chars_impl (λ c, between 97 122 c || between 48 57 c));
    [|apply all_chars_filter_chars].
  intros c [H|H]%orb_prop; unfold word_char; rewrite H;
    by rewrite ?orb_true_r.
Qed.

Lemma pretty_N_char_word d : word_char (pretty_N_char d) = true.
Proof.
  destruct d as [|q]; [reflexivity|].
  repeat (destruct q as [q|q|]; try reflexivity).
Qed.

Lemma pretty_N_go_word x :
  ∀ s, all_chars word_char s = true →
       all_chars word_char (pretty_N_go x s) = true.
Proof.
  induction (N.lt_wf_0 x) as [x _ IH]. intros s Hs.
  assert (x = 0 ∨ 0 < x)%N as [->|Hx] by lia.
  - by rewrite pretty_N_go_0.
  - rewrite pretty_N_go_step by done. apply IH; [by apply N.div_lt|].
    cbn [all_chars]. by rewrite pretty_N_char_word, Hs.
Qed.

(** The decimal numeral of a counter is made of word characters. *)
Lemma pretty_nat_word (k : nat) : all_chars word_char (pretty k) = true.
Proof.
  unfold pretty, pretty_nat, pretty, pretty_N.
  destruct (decide (N.of_nat k = 0%N)); [reflexivity|].
  by apply pretty_N_go_word.
Qed.

Lemma all_word_no_at s : all_chars word_char s = true → has_char "@" s = false.
Proof.
  induction s as [|c s IH]; [done|]. cbn [all_chars has_char].
  intros [Hc Hs]%andb_prop. rewrite (IH Hs), orb_false_r.
  apply bool_decide_eq_false. by intros ->.
Qed.

Lemma matches_star_word s :
  all_chars word_char s = true → matches (Star word) s.
Proof.
  induction s as [|c s IH]; [constructor|]. cbn [all_chars].
  intros [Hc Hs]%andb_prop.
  change (String c s) with (String c "" +:+ s).
  constructor; [by constructor|by apply IH].
Qed.

Lemma matches_plus_word s :
  s ≠ "" → all_chars word_char s = true → matches (Plus word) s.
Proof.
  destruct s as [|c s]; [done|]. intros _. cbn [all_chars].
  intros [Hc Hs]%andb_prop.
  change (String c s) with (String c "" +:+ s).
  constructor; [by constructor|by apply matches_star_word].
Qed.

(** A non-empty run of word characters before [@schoolms.com] is a valid
    address. *)
Lemma word_at_school_valid loc :
  loc ≠ "" → all_chars word_char loc = true →
  isValidEmail (loc +:+ "@schoolms.com") = true.
Proof.
  intros Hne Hw. unfold isValidEmail, emailRegex. cbv zeta.
  apply test_matches.
  constructor; [by apply matches_plus_word|].
  rewrite <- (append_nil_l "@schoolms.com").
  constructor; [constructor|].
  change "@schoolms.com" with ("@" +:+ "schoolms.com").
  constructor; [constructor; by apply bool_decide_eq_true_2|].
  apply test_matches. vm_compute. reflexivity.
Qed.

Lemma prefix_append p s : String.prefix p (p +:+ s) = true.
Proof.
  induction p as [|c p IH]; [by destruct s|].
  rewrite append_cons. cbn [String.prefix].
  destruct (ascii_dec c c); [exact IH|done].
Qed.

Lemma rev_app_append a b c :
  String.rev_app (a +:+ b) c = String.rev_app b (String.rev_app a c).
Proof.
  revert c. induction a as [|x a IH]; intros c; [by rewrite append_nil_l|].
  rewrite append_cons. cbn [String.rev_app]. apply IH.
Qed.

Lemma rev_app_as_append a c : String.rev_app a c = String.rev a +:+ c.
Proof.
  unfold String.rev. revert c. induction a as [|x a IH]; intros c.
  - by rewrite append_nil_l.
  - cbn [String.rev_app]. rewrite IH, (IH (String x "")).
    by rewrite append_assoc.
Qed.

Lemma endsWith_append a p : endsWith (a +:+ p) p = true.
Proof.
  unfold endsWith, String.rev at 2.
  rewrite rev_app_append, rev_app_as_append. apply prefix_append.
Qed.

Lemma candidate_shape loc k :
  ∃ n, all_chars word_char n = true
       ∧ candidate loc k = (loc +:+ n) +:+ "@schoolms.com".
Proof.
  destruct k as [|k]; cbn [candidate].
  - exists "". by rewrite append_nil_r.
  - exists (pretty (S k)). split; [apply pretty_nat_word|].
    by rewrite !append_assoc.
Qed.

Lemma local_part_word pre firstName lastName :
  all_chars word_char pre = true →
  all_chars word_char (local_part pre firstName lastName) = true.
Proof.
  intros Hpre. unfold local_part.
  by rewrite !all_chars_append, Hpre, !clean_name_word.
Qed.

Lemma generate_email_shape pre firstName lastName db :
  all_chars word_char pre = true →
  ∃ rest, all_chars word_char rest = true
          ∧ generate_email pre firstName lastName db
            = (pre +:+ rest) +:+ "@schoolms.com".
Proof.
  intros Hpre.
  destruct (generate_email_first_free pre firstName lastName db
              (all_word_no_at pre Hpre)) as (k & -> & _).
  destruct (candidate_shape (local_part pre firstName lastName) k)
    as (n & Hn & ->).
  exists (clean_name firstName +:+ clean_name lastName +:+ n). split.
  - by rewrite !all_chars_append, !clean_name_word, Hn.
  - unfold local_part. by rewrite !append_assoc.
Qed.

(** X21. Whatever the names of the row and the accounts already stored,
    the address generated from a non-empty prefix of word characters
    (the code uses std and tch) passes the check that typed addresses
    undergo, although the code never applies it to a generated one. *)
Theorem generated_email_is_valid pre firstName lastName db :
  pre ≠ "" → all_chars word_char pre = true →
  isValidEmail (generate_email pre firstName lastName db) = true.
Proof.
  intros Hne Hpre.
  destruct (generate_email_shape pre firstName lastName db Hpre)
    as (rest & Hrest & ->).
  apply word_at_school_valid.
  - destruct pre; [done|]. by rewrite append_cons.
  - by rewrite all_chars_append, Hpre, Hrest.
Qed.

Lemma generated_email_is_valid_witness :
  "tch" ≠ "" ∧ all_chars word_char "tch" = true
  ∧ isValidEmail (generate_email "tch" "Anne-Marie" "O'Brien" empty_db) = true.
Proof.
  assert (H1 : "tch" ≠ "") by done.
  assert (H2 : all_chars word_char "tch" = true) by reflexivity.
  exact (conj H1 (conj H2
           (generated_email_is_valid "tch" "Anne-Marie" "O'Brien" empty_db
              H1 H2))).
Defined.

(** X22. An address generated for a student is kept when it comes back
    in a later file: it is not empty, starts with std and ends with
    @schoolms.com, so the import does not generate another one for
    it. *)
Theorem generated_student_email_kept firstName lastName db :
  student_email_generated (generate_email "std" firstName lastName db) = false.
Proof.
  destruct (generate_email_shape "std" firstName lastName db eq_refl)
    as (rest & _ & ->).
  unfold student_email_generated.
  rewrite endsWith_append. unfold startsWith.
  rewrite append_assoc, prefix_append.
  rewrite !append_cons. reflexivity.
Qed.
End EmailFacts.

(** ** The shape of a valid address *)

Section ValidEmailFacts.
Import JsString Regex RegexSpec Parse CsvSpec Store Upload EmailSpec.

Local Open Scope nat_scope.

Lemma matches_cat_inv r1 r2 s :
  matches (Cat r1 r2) s →
  ∃ s1 s2, s = s1 +:+ s2 ∧ matches r1 s1 ∧ matches r2 s2.
Proof. inversion 1; subst; eauto. Qed.

Lemma matches_class_inv p s :
  matches (Class p) s → ∃ c, s = String c "" ∧ p c = true.
Proof. inversion 1; subst; eauto. Qed.

Lemma matches_alt_inv r1 r2 s :
  matches (Alt r1 r2) s → matches r1 s ∨ matches r2 s.
Proof. inversion 1; subst; auto. Qed.

Lemma matches_eps_inv s : matches Eps s → s = "".
Proof. by inversion 1. Qed.

Lemma matches_avoids c r s :
  matches r s → avoids c r = true → has_char c s = false.
Proof.
  induction 1 as [|p x Hp|r1 r2 s1 s2 _ IH1 _ IH2|r1 r2 s _ IH
                 |r1 r2 s _ IH| |r s1 s2 _ IH1 _ IH2]; cbn [avoids];
    try done.
  - intros Hc%negb_true_iff. cbn [has_char]. rewrite orb_false_r.
    apply bool_decide_eq_false. intros ->. congruence.
  - intros [H1 H2]%andb_prop. by rewrite has_char_append, IH1, IH2.
  - intros [H1 _]%andb_prop. auto.
  - intros [_ H2]%andb_prop. auto.
  - intros Hr. rewrite has_char_append, IH1, IH2; done.
Qed.

(** A non-empty word of a star ends with a word of its body. *)
Lemma matches_star_last r s :
  matches (Star r) s →
  s = "" ∨ ∃ u v, s = u +:+ v ∧ matches (Star r) u ∧ matches r v.
Proof.
  intros H. remember (Star r) as r' eqn:Er.
  induction H as [| | | | | |r0 s1 s2 H1 _ H2 IH2]; try discriminate;
    [by left|].
  injection Er as ->. right.
  destruct (IH2 eq_refl) as [->|(u & v & -> & Hu & Hv)].
  - exists "", s1. rewrite append_nil_l, append_nil_r.
    split; [done|]. split; [constructor|done].
  - exists (s1 +:+ u), v. rewrite append_assoc.
    split; [done|]. split; [by constructor|done].
Qed.

Lemma matches_plus_last r s :
  matches (Plus r) s → ∃ u v, s = u +:+ v ∧ matches (Star r) u ∧ matches r v.
Proof.
  intros (s1 & s2 & -> & H1 & H2)%matches_cat_inv.
  destruct (matches_star_last r s2 H2) as [->|(u & v & -> & Hu & Hv)].
  - exists "", s1. rewrite append_nil_l, append_nil_r.
    split; [done|]. split; [constructor|done].
  - exists (s1 +:+ u), v. rewrite append_assoc.
    split; [done|]. split; [by constructor|done].
Qed.

Lemma matches_word_inv s :
  matches word s → ∃ c, s = String c "" ∧ word_char c = true.
Proof. apply matches_class_inv. Qed.

Lemma plus_word_nonempty s t : matches (Plus word) s → s +:+ t ≠ "".
Proof.
  intros (s1 & s2 & -> & (c & -> & _)%matches_word_inv & _)%matches_cat_inv.
  by rewrite !append_cons.
Qed.

(** X23. An address that [isValidEmail] accepts has exactly the shape
    local@domain.tld: one at sign, a non-empty local part, a non-empty
    domain, and after the last dot two or three word characters up to
    the end, so that a top-level domain of four letters is refused. *)
Theorem valid_email_shape email :
  isValidEmail email = true →
  ∃ a b t, email = a +:+ "@" +:+ b +:+ "." +:+ t
           ∧ a ≠ "" ∧ b ≠ ""
           ∧ has_char "@" a = false ∧ has_char "@" b = false
           ∧ all_chars word_char t = true
           ∧ (String.length t = 2 ∨ String.length t = 3).
Proof.
  unfold isValidEmail, emailRegex. cbv zeta. intros H%test_matches.
  apply matches_cat_inv in H as (s1 & k1 & -> & H1 & H).
  apply matches_cat_inv in H as (s2 & k2 & -> & H2 & H).
  apply matches_cat_inv in H as (s3 & k3 & -> & H3 & H).
  apply matches_cat_inv in H as (s4 & k4 & -> & H4 & H).
  apply matches_cat_inv in H as (s5 & k5 & -> & H5 & H).
  apply matches_plus_last in H as (u & v & -> & Hu & Hv).
  apply matches_class_inv in H3 as (c & -> & ->%bool_decide_eq_true_1).
  apply matches_cat_inv in Hv as (d & v1 & -> & Hd & Hv).
  apply matches_class_inv in Hd as (c & -> & ->%bool_decide_eq_true_1).
  apply matches_cat_inv in Hv as (w1 & v2 & -> & Hw1 & Hv).
  apply matches_cat_inv in Hv as (w2 & w3 & -> & Hw2 & Hw3).
  apply matches_word_inv in Hw1 as (c1 & -> & Hc1).
  apply matches_word_inv in Hw2 as (c2 & -> & Hc2).
  exists (s1 +:+ s2), (s4 +:+ s5 +:+ u), (String c1 (String c2 w3)).
  split; [by rewrite !append_assoc, !append_cons, !append_nil_l|].
  split; [by apply plus_word_nonempty|].
  split; [by apply plus_word_nonempty|].
  split.
  { rewrite has_char_append.
    rewrite (matches_avoids "@" _ _ H1 eq_refl).
    by rewrite (matches_avoids "@" _ _ H2 eq_refl). }
  split.
  { rewrite !has_char_append.
    rewrite (matches_avoids "@" _ _ H4 eq_refl).
    rewrite (matches_avoids "@" _ _ H5 eq_refl).
    by rewrite (matches_avoids "@" _ _ Hu eq_refl). }
  apply matches_alt_inv in Hw3 as [(c3 & -> & Hc3)%matches_word_inv
                                  | ->%matches_eps_inv].
  - cbn [all_chars String.length]. rewrite Hc1, Hc2, Hc3. auto.
  - cbn [all_chars String.length]. rewrite Hc1, Hc2. auto.
Qed.

Lemma valid_email_shape_witness :
  isValidEmail "ann.lee@mail.school.org" = true
  ∧ ∃ a b t, "ann.lee@mail.school.org" = a +:+ "@" +:+ b +:+ "." +:+ t
             ∧ a ≠ "" ∧ b ≠ ""
             ∧ has_char "@" a = false ∧ has_char "@" b = false
             ∧ all_chars word_char t = true
             ∧ (String.length t = 2 ∨ String.length t = 3).
Proof.
  assert (H : isValidEmail "ann.lee@mail.school.org" = true)
    by (vm_compute; reflexivity).
  exact (conj H (valid_email_shape "ann.lee@mail.school.org" H)).
Defined.
End ValidEmailFacts.

(** ** The rows a file yields *)

Section ParseFacts.
Import JsString Parse CsvSpec ParseSpec Store Upload ImportExamples.

Local Open Scope nat_scope.

Lemma row_object_key_field headers row obj :
  row_object headers row = Some obj →
  ∃ key, key ∈ key_fields ∧ cell obj key ≠ "".
Proof.
  intros Hobj.
  assert (Hnd : ¬ dropped headers row).
  { rewrite <- row_object_dropped. by rewrite Hobj. }
  apply row_object_obj in Hobj as ->.
  apply Exists_exists, not_Forall_Exists; [apply _|].
  intros Hall. apply Hnd. by right.
Qed.

(** X24. Every row that [parseFile] yields for a CSV file has a value
    under firstName, lastName or email.  A line with none of the three,
    whatever else it holds, is left out of the rows handed to the import
    loop. *)
Theorem parsed_rows_have_key_field fileContent data :
  parseFile fileContent = inr data →
  Forall (λ obj, ∃ key, key ∈ key_fields ∧ cell obj key ≠ "") data.
Proof.
  unfold parseFile.
  destruct (parse_rawData (csv_rawData fileContent)) as [m|d] eqn:Ep;
    [done|].
  intros [= <-].
  destruct (csv_rawData fileContent) as [|headerRow rows]; [done|].
  apply parse_rawData_rows in Ep as ->.
  apply Forall_forall. intros obj Hobj. unfold data_rows in Hobj.
  apply list_elem_of_omap in Hobj as (raw & _ & Hraw).
  by apply (row_object_key_field (header_key <$> headerRow) raw).
Qed.

Lemma parsed_rows_have_key_field_witness :
  Forall (λ obj, ∃ key, key ∈ key_fields ∧ cell obj key ≠ "")
    (data_rows
       (header_key <$> hd [] (csv_rawData (file_content with_instructions)))
       (tail (csv_rawData (file_content with_instructions)))).
Proof.
  apply (parsed_rows_have_key_field (file_content with_instructions)).
  apply (parseFile_data_rows (file_content with_instructions)
           (hd [] (csv_rawData (file_content with_instructions)))
           (tail (csv_rawData (file_content with_instructions)))).
  - vm_compute. reflexivity.
  - refine (bool_decide_unpack _ _). vm_compute. exact I.
  - vm_compute. lia.
Defined.
End ParseFacts.

(** ** Line ends *)

Section LineFacts.
Import JsString Parse CsvSpec Store Upload ImportExamples.

Local Open Scope nat_scope.

(** A line without carriage return and line feed is read up to its
    end. *)
Lemma split_lines_go_chars l :
  ∀ cur s,
    has_char "013" l = false → has_char "010" l = false →
    split_lines_go cur (l +:+ s) = split_lines_go (String.rev_app l cur) s.
Proof.
  induction l as [|c l IH]; intros cur s Hcr Hlf.
  - by rewrite append_nil_l.
  - cbn [has_char] in Hcr, Hlf.
    apply orb_false_elim in Hcr as [Hc1 Hcr].
    apply orb_false_elim in Hlf as [Hc2 Hlf].
    rewrite append_cons. cbn [split_lines_go String.rev_app].
    rewrite Hc1, Hc2. cbn [andb].
    rewrite <- (IH (String c cur) s Hcr Hlf).
    by destruct (l +:+ s).
Qed.

Lemma split_lines_last l :
  has_char "013" l = false → has_char "010" l = false →
  split_lines l = [l].
Proof.
  intros Hcr Hlf. unfold split_lines.
  rewrite <- (append_nil_r l) at 1.
  rewrite split_lines_go_chars by done. cbn [split_lines_go].
  by rewrite rev_rev_app.
Qed.

Lemma split_lines_sep sep l rest :
  sep = String "010" "" ∨ sep = String "013" (String "010" "") →
  has_char "013" l = false → has_char "010" l = false →
  split_lines (l +:+ sep +:+ rest) = l :: split_lines rest.
Proof.
  intros Hsep Hcr Hlf. unfold split_lines.
  rewrite split_lines_go_chars by done.
  destruct Hsep as [-> | ->]; rewrite !append_cons, append_nil_l;
    cbn [split_lines_go]; rewrite ?bool_decide_eq_true_2 by done;
    cbn [andb]; by rewrite rev_rev_app.
Qed.

Lemma split_lines_join sep ls :
  sep = String "010" "" ∨ sep = String "013" (String "010" "") →
  Forall (λ l, has_char "013" l = false ∧ has_char "010" l = false) ls →
  ls ≠ [] → split_lines (join sep ls) = ls.
Proof.
  intros Hsep Hall. induction Hall as [|l ls [Hcr Hlf] _ IH]; [done|].
  intros _. destruct ls as [|l' ls].
  - cbn [join]. by apply split_lines_last.
  - change (join sep (l :: l' :: ls)) with (l +:+ sep +:+ join sep (l' :: ls)).
    rewrite split_lines_sep by done. by rewrite IH.
Qed.

(** X25. The CSV reader sees a file as its lines, whether they are
    joined by line feeds or by carriage return and line feed: the raw
    rows are the parsed lines that are not blank, in their order, so
    both files give the same result of [parseFile]. *)
Theorem csv_rawData_line_ends sep ls :
  sep = String "010" "" ∨ sep = String "013" (String "010" "") →
  Forall (λ l, has_char "013" l = false ∧ has_char "010" l = false) ls →
  csv_rawData (join sep ls)
  = parse_csv_line <$> filter (λ line, trim line ≠ "") ls
  ∧ parseFile (join sep ls) = parseFile (join (String "010" "") ls).
Proof.
  intros Hsep Hall.
  assert (Hraw : ∀ sep',
    sep' = String "010" "" ∨ sep' = String "013" (String "010" "") →
    csv_rawData (join sep' ls)
    = parse_csv_line <$> filter (λ line, trim line ≠ "") ls).
  { intros sep' Hsep'. unfold csv_rawData.
    destruct ls as [|l ls]; [reflexivity|].
    by rewrite (split_lines_join sep' (l :: ls) Hsep' Hall). }
  split; [by apply Hraw|].
  unfold parseFile. rewrite (Hraw sep Hsep).
  rewrite (Hraw (String "010" "")) by (by left). reflexivity.
Qed.

Lemma csv_rawData_line_ends_witness :
  csv_rawData
    (join (String "013" (String "010" ""))
          ["firstName,lastName"; ""; "Ann,Lee"])
  = [["firstName"; "lastName"]; ["Ann"; "Lee"]].
Proof.
  rewrite (proj1 (csv_rawData_line_ends (String "013" (String "010" ""))
                    ["firstName,lastName"; ""; "Ann,Lee"]
                    (or_intror eq_refl)
                    ltac:(repeat constructor))).
  vm_compute. reflexivity.
Defined.
End LineFacts.

(** ** The derivation of the hook, sentence by sentence *)

Section DerivationProofs.
Import FeeModel FeeSpec FeeRoutes HookSummary.

(** Where a line of the table applies, it gives the status the second
    block derives. *)
Lemma stated_status_derived p a s :
  stated_status p a = Some s → status_of_payment p a = s.
Proof.
  unfold stated_status, status_of_payment.
  destruct (Z.eqb_spec p 0); [congruence|].
  destruct (Z.ltb_spec 0 p), (Z.ltb_spec p a); cbn [andb];
    try congruence; destruct (Z.leb_spec a p); try congruence; lia.
Qed.

(** C1.  Every save, of a new or of a loaded document, goes through the
    hook with the paid amount [p]: the amount of the fee when the status
    was explicitly set to [paid], the paid amount of the document
    otherwise.  When [paidAmount] was modified the hook stores [p] as
    paid amount and [amount - p] as remaining amount, and the status is
    the one the table gives for [p], read from its first line ([unpaid]
    if [p = 0], [partial] if [0 < p < amount], [paid] if
    [p >= amount]), then passed through the overdue check; a status
    [paid] comes with the payment date the document had or, if it had
    none, the time of the save, and a status other than [paid] leaves
    the payment date alone.  When the status was explicitly set to
    [paid] the hook stores the amount as paid amount and 0 as remaining
    amount.  On every save the status stored is the result of the
    overdue check (a status other than [paid] and [overdue] becomes
    [overdue] when the due date is before the time of the save) on the
    status derived, when one was derived, or else on the status of the
    document; and a save that neither modified [paidAmount] nor set the
    status to [paid] leaves the amounts and the payment date as they
    were. *)
Theorem fee_save_derivation isNew now d :
  let f := fields d in
  let f' := fields (save_hook isNew now d) in
  let explicit := isModified p_status d && bool_decide (status f = paid) in
  let p := if explicit then amount f else paidAmount f in
  let rederived :=
    isModified p_paidAmount d
    || (explicit && (isNew || negb (bool_decide (paidAmount f = amount f)))) in
  (isModified p_paidAmount d = true →
   paidAmount f' = p
   ∧ remainingAmount f' = amount f - p
   ∧ ∀ s, stated_status p (amount f) = Some s →
          status f' = after_overdue_check now (dueDate f) s
          ∧ (s = paid →
             paymentDate f' = Some (default now (paymentDate f)))
          ∧ (s ≠ paid → explicit = false →
             paymentDate f' = paymentDate f))
  ∧ (explicit = true →
     paidAmount f' = amount f ∧ remainingAmount f' = 0
     ∧ paymentDate f' = Some (default now (paymentDate f)))
  ∧ status f'
    = after_overdue_check now (dueDate f)
        (if rederived then status_of_payment p (amount f) else status f)
  ∧ (isModified p_paidAmount d = false → explicit = false →
     paidAmount f' = paidAmount f
     ∧ remainingAmount f' = remainingAmount f
     ∧ paymentDate f' = paymentDate f)
  ∧ amount f' = amount f ∧ dueDate f' = dueDate f.
Proof.
  cbv zeta. rewrite save_hook_fields. unfold hook_fields. cbv zeta.
  cbn [put_payment paidAmount remainingAmount status paymentDate amount
       dueDate].
  set (f := fields d).
  set (explicit := isModified p_status d && bool_decide (status f = paid)).
  set (p := if explicit then amount f else paidAmount f).
  set (rederived := isModified p_paidAmount d || _).
  set (s2 := if rederived then status_of_payment p (amount f) else status f).
  assert (Hcheck :
    (if negb (bool_decide (s2 = paid)) && (dueDate f <? now)
        && negb (bool_decide (s2 = overdue))
     then overdue else s2)
    = after_overdue_check now (dueDate f) s2).
  { unfold after_overdue_check.
    destruct (Z.ltb_spec (dueDate f) now);
      repeat case_bool_decide; cbn [negb andb]; try done;
      try (exfalso; tauto); try (exfalso; lia). }
  rewrite Hcheck.
  split; [|split; [|split; [|split; [|split]]]]; try reflexivity.
  - intros Hm. unfold rederived in s2 |- *. unfold s2, rederived.
    rewrite Hm. cbn [orb andb].
    split; [reflexivity|]. split; [reflexivity|].
    intros s Hs. apply stated_status_derived in Hs. rewrite Hs.
    split; [reflexivity|]. split.
    + intros ->. rewrite (bool_decide_eq_true_2 (paid = paid) eq_refl).
      by destruct explicit, (paymentDate f).
    + intros Hne He. rewrite (bool_decide_eq_false_2 _ Hne). by rewrite He.
  - intros He. rewrite He. unfold p. rewrite He.
    split; [reflexivity|]. split.
    + destruct rederived; [lia|reflexivity].
    + destruct (rederived && _), (paymentDate f); reflexivity.
  - intros Hm He. unfold rederived. rewrite Hm, He. cbn [orb andb].
    unfold p. by rewrite He.
Qed.

Lemma fee_save_derivation_witness :
  (status (fields (save_hook false 100
             (fee_doc 1000 200 unpaid 1000 1000 [p_paidAmount]))) = paid
   ∧ remainingAmount (fields (save_hook false 100
             (fee_doc 1000 200 unpaid 1000 1000 [p_paidAmount]))) = 0
   ∧ paymentDate (fields (save_hook false 100
             (fee_doc 1000 200 unpaid 1000 1000 [p_paidAmount])))
     = Some 100)
  ∧ (status (fields (save_hook false 100
               (fee_doc 1000 200 unpaid 400 1000 [p_paidAmount])))
     = partial
     ∧ remainingAmount (fields (save_hook false 100
               (fee_doc 1000 200 unpaid 400 1000 [p_paidAmount]))) = 600)
  ∧ status (fields (save_hook true 100 (fee_doc 1000 50 unpaid 0 1000 [])))
    = overdue.
Proof.
  split; [|split].
  - destruct (fee_save_derivation false 100
                (fee_doc 1000 200 unpaid 1000 1000 [p_paidAmount]))
      as (H & _).
    destruct (H eq_refl) as (_ & Hr & Hs).
    destruct (Hs paid eq_refl) as (Hst & Hd & _).
    split; [exact Hst|]. split; [exact Hr|exact (Hd eq_refl)].
  - destruct (fee_save_derivation false 100
                (fee_doc 1000 200 unpaid 400 1000 [p_paidAmount]))
      as (H & _).
    destruct (H eq_refl) as (_ & Hr & Hs).
    destruct (Hs partial eq_refl) as (Hst & _).
    split; [exact Hst|exact Hr].
  - destruct (fee_save_derivation true 100
                (fee_doc 1000 50 unpaid 0 1000 [])) as (_ & _ & Hst & _).
    exact Hst.
Defined.

(** Where two lines of the table apply, the first one does: a fee of
    amount 0 saved with a paid amount of 0 is [unpaid]. *)
Example zero_payment_of_zero_amount_is_unpaid :
  stated_status 0 0 = Some unpaid
  ∧ status (fields (save_hook false 100
              (fee_doc 0 200 unpaid 0 0 [p_paidAmount]))) = unpaid.
Proof. split; reflexivity. Qed.
End DerivationProofs.

(** ** Two calls in one month *)

Section IdempotenceProofs.
Import FeeModel Calendar FeeController FeeRoutes FeeSpec ArrearsSpec.

(** What a call for a student leaves: the record it returns is in the
    collection, it is the first tuition record of the month for the
    student, and the identifiers are distinct if they were. *)
Lemma createInitialFeeRecord_leaves now fees sid rid amt :
  NoDup (_id <$> fees) →
  let r := createInitialFeeRecord now fees (Some sid) (Some rid) amt in
  ∃ f, r.1 = Some f ∧ f ∈ r.2 ∧ NoDup (_id <$> r.2)
       ∧ Fee_findOne
           (month_fee_query sid tuition
              (Date_ymd (getFullYear now) (getMonth now) 1)
              (Date_ymd (getFullYear now) (getMonth now + 1) 0)) r.2
         = Some f.
Proof.
  intros Hnd. cbv zeta.
  destruct (createInitialFeeRecord_first_match now fees sid rid amt)
    as (f & g & Hf & Hg & Hid & Hin).
  cbv zeta in Hf, Hg, Hin.
  set (r := createInitialFeeRecord now fees (Some sid) (Some rid) amt) in *.
  assert (Hnd' : NoDup (_id <$> r.2)).
  { unfold r. destruct (Fee_findOne
      (month_fee_query sid tuition
         (Date_ymd (getFullYear now) (getMonth now) 1)
         (Date_ymd (getFullYear now) (getMonth now + 1) 0)) fees)
      as [e|] eqn:Ef.
    - rewrite (initial_fee_rewritten now fees sid rid amt e Hnd Ef).
      cbv zeta. cbn [snd]. by rewrite store_fee_ids.
    - rewrite (initial_fee_created now fees sid rid amt Ef).
      cbv zeta. cbn [snd]. by apply NoDup_snoc_fresh. }
  exists f. split; [exact Hf|]. split; [exact Hin|]. split; [exact Hnd'|].
  unfold Fee_findOne. rewrite Hg. f_equal.
  apply (same_id_same_fee r.2); [exact Hnd'|exact Hin| |exact Hid].
  apply head_Some_elem_of in Hg.
  by apply (list_elem_of_filter (month_fee_query _ _ _ _)) in Hg as [_ ?].
Qed.

(** C6.  Two calls of [createInitialFeeRecord] for the same student at
    clock readings of one calendar month, on a collection with distinct
    identifiers.  The second call creates nothing: it returns the record
    the first call returned, under the same identifier, rewritten with
    its own amount (0 when absent), due date, recorder and arrears and
    with the status [unpaid], the paid amount, the remaining amount and
    the payment date being those of the record; the collection after it
    is the collection after the first call with that record replaced,
    so it has the same identifiers and the same length.  And a call
    without student or without recorder returns [null] and leaves the
    collection as it is. *)
Theorem createInitialFeeRecord_idempotent now1 now2 fees sid rid1 rid2
    amt1 amt2 :
  NoDup (_id <$> fees) →
  getFullYear now1 = getFullYear now2 → getMonth now1 = getMonth now2 →
  let r1 := createInitialFeeRecord now1 fees (Some sid) (Some rid1) amt1 in
  let r2 := createInitialFeeRecord now2 r1.2 (Some sid) (Some rid2) amt2 in
  (∃ f1, r1.1 = Some f1 ∧ f1 ∈ r1.2
         ∧ r2.1 = Some (mkFee (_id f1) sid tuition (default 0 amt2)
                          (Date_ymd (getFullYear now2) (getMonth now2 + 1) 0)
                          (paymentDate f1) unpaid (paidAmount f1)
                          (remainingAmount f1)
                          (calculateStudentArrears now2 r1.2 (Some sid))
                          rid2)
         ∧ r2.2 = store_fee
                    (mkFee (_id f1) sid tuition (default 0 amt2)
                       (Date_ymd (getFullYear now2) (getMonth now2 + 1) 0)
                       (paymentDate f1) unpaid (paidAmount f1)
                       (remainingAmount f1)
                       (calculateStudentArrears now2 r1.2 (Some sid)) rid2)
                    r1.2)
  ∧ _id <$> r2.2 = _id <$> r1.2
  ∧ length r2.2 = length r1.2
  ∧ (∀ rid, createInitialFeeRecord now1 fees None rid amt1 = (None, fees))
  ∧ (∀ sid', createInitialFeeRecord now1 fees sid' None amt1 = (None, fees)).
Proof.
  intros Hnd Hy Hm. cbv zeta.
  destruct (createInitialFeeRecord_leaves now1 fees sid rid1 amt1 Hnd)
    as (f1 & Hf1 & Hin & Hnd1 & Hfound).
  cbv zeta in Hf1, Hin, Hnd1, Hfound.
  set (r1 := createInitialFeeRecord now1 fees (Some sid) (Some rid1) amt1)
    in *.
  rewrite Hy, Hm in Hfound.
  pose proof (initial_fee_rewritten now2 r1.2 sid rid2 amt2 f1 Hnd1 Hfound)
    as H2.
  cbv zeta in H2. rewrite H2. cbn [fst snd].
  split; [|split; [|split; [|split]]].
  - exists f1. by repeat split.
  - apply store_fee_ids.
  - unfold store_fee. apply length_fmap.
  - reflexivity.
  - intros [?|]; reflexivity.
Qed.

Lemma createInitialFeeRecord_idempotent_witness :
  createInitialFeeRecord (nov_2026 + 86400000)
    (createInitialFeeRecord nov_2026 sample_fees (Some 2%nat) (Some 9%nat)
                            (Some 300)).2
    (Some 2%nat) (Some 8%nat) (Some 350)
  = (Some (mkFee 6 2 tuition 350 (Date_ymd 2026 11 0) None unpaid 0 300 300
                 8),
     sample_fees
     ++ [mkFee 6 2 tuition 350 (Date_ymd 2026 11 0) None unpaid 0 300 300
               8]).
Proof.
  destruct (createInitialFeeRecord_idempotent nov_2026
              (nov_2026 + 86400000) sample_fees 2%nat 9%nat 8%nat
              (Some 300) (Some 350))
    as ((f1 & Hf1 & _ & H1 & H2) & _).
  - apply (bool_decide_unpack _). vm_compute. exact I.
  - vm_compute. reflexivity.
  - vm_compute. reflexivity.
  - vm_compute in Hf1. injection Hf1 as <-.
    apply injective_projections; cbn [fst snd].
    + rewrite H1. vm_compute. reflexivity.
    + rewrite H2. vm_compute. reflexivity.
Defined.
End IdempotenceProofs.

(** ** The address of a student row *)

Section AddressProofs.
Import JsString Parse CsvSpec Store Upload ImportExamples EmailSpec.

Local Open Scope nat_scope.

(** The test of [/[^a-z0-9]/]. *)
Local Abbreviation kept_char :=
  (λ c : ascii, between 97 122 c || between 48 57 c).

Local Ltac each_byte c :=
  destruct c as [[] [] [] [] [] [] [] []]; vm_compute; repeat split;
  congruence.

Lemma upper_byte c :
  between 65 90 c = true →
  lower_char c = ascii_of_nat (code c + 32)
  ∧ kept_char (lower_char c) = true
  ∧ (code c =? 196) = false ∧ (code c =? 226) = false.
Proof. each_byte c. Qed.

Lemma kept_byte c :
  kept_char c = true →
  between 65 90 c = false ∧ lower_char c = c
  ∧ (code c =? 196) = false ∧ (code c =? 226) = false.
Proof. each_byte c. Qed.

Lemma other_byte c :
  between 65 90 c = false → kept_char c = false →
  lower_char c = c ∧ kept_char (lower_char c) = false.
Proof. each_byte c. Qed.

Lemma toLowerCase_plain c1 s1 :
  (code c1 =? 196) = false → (code c1 =? 226) = false →
  toLowerCase (String c1 s1) = String (lower_char c1) (toLowerCase s1).
Proof.
  intros H1 H2. unfold toLowerCase.
  destruct s1 as [|c2 [|c3 s3]]; cbn [map_case];
    unfold lower2, lower3, bytes2, bytes3; rewrite ?H1, ?H2; reflexivity.
Qed.

Lemma clean_name_cleaned_below n :
  ∀ name, String.length name ≤ n →
          filter_chars kept_char (toLowerCase name) = cleaned name.
Proof.
  induction n as [|n IH]; intros [|c1 s1] Hlen; try reflexivity;
    cbn [String.length] in Hlen; [lia|].
  assert (IH1 : filter_chars kept_char (toLowerCase s1) = cleaned s1)
    by (apply IH; lia).
  destruct (between 65 90 c1) eqn:Eu.
  { destruct (upper_byte c1 Eu) as (Hl & Hk & H1 & H2).
    rewrite toLowerCase_plain by done.
    cbn [filter_chars cleaned]. rewrite Hk, Eu, IH1. by rewrite Hl. }
  destruct (kept_char c1) eqn:Ek.
  { destruct (kept_byte c1 Ek) as (_ & Hl & H1 & H2).
    rewrite toLowerCase_plain by done.
    cbn [filter_chars cleaned]. rewrite Hl, Ek, Eu, IH1. reflexivity. }
  destruct (other_byte c1 Eu Ek) as (Hl & Hk).
  assert (Hplain :
    filter_chars kept_char (String (lower_char c1) (toLowerCase s1))
    = cleaned s1).
  { cbn [filter_chars]. by rewrite Hk. }
  unfold toLowerCase in *.
  destruct s1 as [|c2 s2].
  { cbn [map_case filter_chars cleaned]. by rewrite Hk, Eu, Ek. }
  cbn [map_case cleaned]. rewrite Eu, Ek. unfold lower2 at 1.
  destruct (bytes2 c1 c2 196 176) eqn:E2.
  { unfold marked.
    rewrite !append_cons, append_nil_l. cbn [filter_chars].
    change (kept_char "i"%char) with true.
    change (kept_char (ascii_of_nat 204)) with false.
    change (kept_char (ascii_of_nat 135)) with false.
    cbv iota. f_equal. apply IH. cbn [String.length] in Hlen. lia. }
  destruct s2 as [|c3 s3]; [exact Hplain|].
  unfold lower3 at 1.
  destruct (bytes3 c1 c2 c3 226 132 170) eqn:E3; [|exact Hplain].
  rewrite append_cons, append_nil_l. cbn [filter_chars].
  change (kept_char "k"%char) with true. cbv iota. f_equal.
  apply IH. cbn [String.length] in Hlen. lia.
Qed.

(** The names as the code cleans them are the cleaned names. *)
Lemma clean_name_cleaned name : clean_name name = cleaned name.
Proof.
  unfold clean_name.
  by apply (clean_name_cleaned_below (String.length name)).
Qed.

(** A row that keeps its address: the format check, the test for an
    account with the address, and the account created. *)
Lemma process_student_kept host uploader (row : gmap string string) db :
  student_email_generated (cell row "email") = false →
  (∀ db', process_student host uploader row db = (db', inr ()) →
          isValidEmail (cell row "email") = true
          ∧ ¬ taken db (cell row "email")
          ∧ ∃ u, users db' = users db ++ [u]
                 ∧ user_email u = cell row "email")
  ∧ (filter (λ field, falsy (cell row field) = true) student_requiredFields
     = [] →
     (isValidEmail (cell row "email") = false →
      process_student host uploader row db
      = (db, inl "Invalid email format"))
     ∧ (isValidEmail (cell row "email") = true →
        taken db (cell row "email") →
        process_student host uploader row db
        = (db, inl "Email already exists"))).
Proof.
  intros Hgen. unfold process_student. rewrite Hgen.
  unfold bind, throw_if, gets, ret, throw, modify. split.
  - intros db'.
    destruct (0 <? length _); [cbv beta iota; intros [=]|].
    cbv beta iota.
    destruct (isValidEmail (cell row "email"));
      [|cbn [negb]; cbv beta iota; intros [=]].
    cbn [negb]. cbv beta iota.
    case_bool_decide as Htaken; [cbv beta iota; intros [=]|].
    cbv beta iota.
    destruct (bool_decide (is_Some (Student_findOne _ db)));
      [cbv beta iota; intros [=]|].
    unfold User_create. cbv beta iota. cbn [user_id].
    set (u := mkUser _ _ _ _ (cell row "email") _ _ _ _).
    set (db1 := mkDb (users db ++ [u]) _ _ _ _ _ _).
    unfold Student_create.
    destruct (date_or_now host _) as [dob|]; [|cbv beta iota; intros [=]].
    destruct (date_or_now host _) as [adm|]; [|cbv beta iota; intros [=]].
    destruct (_ || _); [cbv beta iota; intros [=]|].
    destruct (bool_decide (is_Some (Student_findOne _ db1)));
      [cbv beta iota; intros [=]|].
    cbv beta iota. cbn [student_monthlyFee student_id].
    destruct (0 <? _)%Z; intros H; apply (f_equal fst) in H;
      cbn [fst] in H; subst db';
      (split; [reflexivity|]); (split; [exact Htaken|]);
      exists u; split; reflexivity.
  - intros Hreq. rewrite Hreq. cbn [length Nat.ltb Nat.leb].
    cbv beta iota. split.
    + intros ->. reflexivity.
    + intros -> Htaken. cbn [negb]. cbv beta iota.
      by rewrite (bool_decide_eq_true_2 _ Htaken).
Qed.

(** C4 (as amended).  In the student import the address of a row is
    generated exactly when the given one is empty, does not start with
    [std] or does not end with [@schoolms.com].  The address generated
    is [std], the cleaned first name, the cleaned last name (the letters
    in lower case and the digits, nothing else) and [@schoolms.com] when
    no account has that address, and otherwise the same with the least
    suffix 1, 2, ... of the local part that no account has; a row that
    takes it and succeeds creates its account under it.  A given address
    that starts with [std] and ends with [@schoolms.com] is kept
    whatever stands between them: the row then fails with
    [Invalid email format] when the address does not pass
    [isValidEmail], with [Email already exists] when an account has it,
    and a row that succeeds has created its account under the given
    address. *)
Theorem student_email_generation host uploader (row : gmap string string)
    db :
  let email := cell row "email" in
  let loc :=
    "std" +:+ cleaned (cell row "firstName")
    +:+ cleaned (cell row "lastName") in
  let generated :=
    generate_email "std" (cell row "firstName") (cell row "lastName") db in
  (student_email_generated email = true ↔ lacks_prefix_or_domain email)
  ∧ (∃ k, generated = candidate loc k ∧ first_free db loc k)
  ∧ (student_email_generated email = true →
     ∀ db', process_student host uploader row db = (db', inr ()) →
            ∃ u, users db' = users db ++ [u] ∧ user_email u = generated)
  ∧ (student_email_generated email = false →
     (∀ db', process_student host uploader row db = (db', inr ()) →
             isValidEmail email = true ∧ ¬ taken db email
             ∧ ∃ u, users db' = users db ++ [u] ∧ user_email u = email)
     ∧ (filter (λ field, falsy (cell row field) = true)
               student_requiredFields = [] →
        (isValidEmail email = false →
         process_student host uploader row db
         = (db, inl "Invalid email format"))
        ∧ (isValidEmail email = true → taken db email →
           process_student host uploader row db
           = (db, inl "Email already exists")))).
Proof.
  cbv zeta. split; [apply student_email_generated_iff|]. split.
  - destruct (generate_email_first_free "std" (cell row "firstName")
                (cell row "lastName") db eq_refl) as (k & Hk & Hfree).
    unfold local_part in Hk, Hfree.
    rewrite !clean_name_cleaned in Hk, Hfree. by exists k.
  - split.
    + intros Hgen db'. by apply process_student_generated.
    + apply process_student_kept.
Qed.

Lemma student_email_generation_witness :
  user_email
    <$> users (process_student sample_host 1 obrien_row empty_db).1
  = ["stdobriensmith@schoolms.com"]
  ∧ user_email
      <$> users (process_student sample_host 1
                   (<["rollNumber" := "R2"]> obrien_row)
                   (process_student sample_host 1 obrien_row empty_db).1).1
    = ["stdobriensmith@schoolms.com"; "stdobriensmith1@schoolms.com"]
  ∧ user_email
      <$> users (process_student sample_host 1
                   (<["email" := "stdxyz@schoolms.com"]> obrien_row)
                   empty_db).1
    = ["stdxyz@schoolms.com"].
Proof.
  split; [|split].
  - destruct (student_email_generation sample_host 1 obrien_row empty_db)
      as (_ & _ & Hg & _).
    destruct (Hg ltac:(vm_compute; reflexivity)
                (process_student sample_host 1 obrien_row empty_db).1)
      as (u & Hu & He); [vm_compute; reflexivity|].
    rewrite Hu. cbn [users empty_db app fmap list_fmap].
    rewrite He. vm_compute. reflexivity.
  - set (db1 := (process_student sample_host 1 obrien_row empty_db).1).
    destruct (student_email_generation sample_host 1
                (<["rollNumber" := "R2"]> obrien_row) db1)
      as (_ & _ & Hg & _).
    destruct (Hg ltac:(vm_compute; reflexivity)
                (process_student sample_host 1
                   (<["rollNumber" := "R2"]> obrien_row) db1).1)
      as (u & Hu & He); [vm_compute; reflexivity|].
    rewrite Hu, fmap_app. cbn [fmap list_fmap].
    rewrite He. vm_compute. reflexivity.
  - destruct (student_email_generation sample_host 1
                (<["email" := "stdxyz@schoolms.com"]> obrien_row) empty_db)
      as (_ & _ & _ & Hk).
    destruct (Hk ltac:(vm_compute; reflexivity)) as (Hk' & _).
    destruct (Hk' (process_student sample_host 1
                     (<["email" := "stdxyz@schoolms.com"]> obrien_row)
                     empty_db).1)
      as (_ & _ & u & Hu & He); [vm_compute; reflexivity|].
    rewrite Hu. cbn [users empty_db app fmap list_fmap].
    rewrite He. vm_compute. reflexivity.
Defined.
End AddressProofs.

(** ** The row numbers of an import *)

Section NumberProofs.
Import JsString Parse CsvSpec ParseSpec Store Upload ImportSpec
       ImportExamples.

Local Open Scope nat_scope.

(** The rows that [parseFile] emits for the lines after the header
    line. *)
Local Abbreviation parsed headers dataLines :=
  (data_rows headers
     (parse_csv_line <$> filter (λ line, trim line ≠ "") dataLines)).














End NumberProofs.
